(** * The Open Science Catalog builder ([process.py]), embedded in Rocq

    The script reads four CSV registries (themes, variables, projects,
    products), builds a tree of catalogue nodes, rolls statistics up the
    tree, projects a metrics document and writes everything below an output
    directory.  Python values are embedded as follows:

    - [str] is [string]; only the ASCII behaviour of [strip], [lower],
      [split], [startswith] and [int] is modelled;
    - exceptions are the constructors of [exn]; a computation that may
      raise returns an [outcome];
    - [print], the file system and the mutable catalogue objects live in
      the [state] threaded by the monad [M];
    - a Python object is identified by a [ref]: its position in the list
      that [main] keeps it in, so two names for one object are one [ref]. *)

From Stdlib Require Import ZArith Ascii String.
From stdpp Require Import gmap strings list fin_maps sorting.

#[local] Set Warnings "-register-all".
Local Open Scope string_scope.
Local Open Scope Z_scope.

(** ** Exceptions and outcomes *)

Inductive exn : Type :=
  | KeyError (key : string)
  | ValueError
  | OverflowError
  | IndexError
  | TypeError
  | AttributeError
  | UnboundLocalError (name : string)
  | FileExistsError (path : string)
  | FileNotFoundError (path : string)
  | NotADirectoryError (path : string)
  | IsADirectoryError (path : string)
  | STACError.

Inductive outcome (A : Type) : Type :=
  | Return (a : A)
  | Raise (e : exn).
Arguments Return {A} a.
Arguments Raise {A} e.

Definition obind {A B} (o : outcome A) (k : A -> outcome B) : outcome B :=
  match o with
  | Return a => k a
  | Raise e => Raise e
  end.

Definition raises {A} (o : outcome A) : Prop :=
  match o with Return _ => False | Raise _ => True end.

(** ** Python string primitives (ASCII) *)

Module Py.

Definition code (a : ascii) : Z := Z.of_nat (nat_of_ascii a).

(** [str.isspace] on the ASCII range: TAB..CR, FS..US and the space. *)
Definition isspace (a : ascii) : bool :=
    ((9 <=? code a) && (code a <=? 13)) || ((28 <=? code a) && (code a <=? 32)).

Definition isdigit (a : ascii) : bool := (48 <=? code a) && (code a <=? 57).
Definition isupper (a : ascii) : bool := (65 <=? code a) && (code a <=? 90).
Definition islower (a : ascii) : bool := (97 <=? code a) && (code a <=? 122).
Definition isalnum (a : ascii) : bool := isdigit a || isupper a || islower a.

Definition lower_char (a : ascii) : ascii :=
    if isupper a then ascii_of_nat (nat_of_ascii a + 32) else a.

(** [s.lower()] *)
Fixpoint lower (s : string) : string :=
    match s with
    | EmptyString => EmptyString
    | String a s' => String (lower_char a) (lower s')
    end.

Fixpoint lstrip (s : string) : string :=
    match s with
    | EmptyString => EmptyString
    | String a s' => if isspace a then lstrip s' else s
    end.

Fixpoint rstrip (s : string) : string :=
    match s with
    | EmptyString => EmptyString
    | String a s' =>
        match rstrip s' with
        | EmptyString => if isspace a then EmptyString else String a EmptyString
        | r => String a r
        end
    end.

(** [s.strip()] *)
Definition strip (s : string) : string := rstrip (lstrip s).

(** [s.startswith(p)] *)
Fixpoint startswith (s p : string) : bool :=
    match p, s with
    | EmptyString, _ => true
    | String b p', String a s' => if ascii_dec a b then startswith s' p' else false
    | String _ _, EmptyString => false
    end.

(** [s.split(sep)] for a one-character separator: never the empty list. *)
Fixpoint split (sep : ascii) (s : string) : list string :=
    match s with
    | EmptyString => [EmptyString]
    | String a s' =>
        if ascii_dec a sep then EmptyString :: split sep s'
        else match split sep s' with
             | [] => [String a EmptyString]
             | w :: ws => String a w :: ws
             end
    end.

(** The digits of a decimal literal: a digit, then digits each
    optionally preceded by one underscore.  [seen] tells whether the
    previous character was a digit. *)
Fixpoint int_digits (s : string) (acc : Z) (seen : bool) : option Z :=
    match s with
    | EmptyString => if seen then Some acc else None
    | String a s' =>
        if isdigit a then int_digits s' (10 * acc + (code a - 48)) true
        else if ascii_dec a "_" then
          (if seen then int_digits s' acc false else None)
        else None
    end.

(** The blanks that [int] skips around a literal: TAB..CR and the space
    (the C locale's [isspace]); unlike [str.strip], not FS..US. *)
Definition isspace_c (a : ascii) : bool :=
    ((9 <=? code a) && (code a <=? 13)) || (code a =? 32).

Fixpoint lstrip_c (s : string) : string :=
    match s with
    | EmptyString => EmptyString
    | String a s' => if isspace_c a then lstrip_c s' else s
    end.

Fixpoint rstrip_c (s : string) : string :=
    match s with
    | EmptyString => EmptyString
    | String a s' =>
        match rstrip_c s' with
        | EmptyString => if isspace_c a then EmptyString else String a EmptyString
        | r => String a r
        end
    end.

(** The number of digits of a literal. *)
Fixpoint digit_count (s : string) : nat :=
    match s with
    | EmptyString => 0
    | String a s' => if isdigit a then S (digit_count s') else digit_count s'
    end.

(** [sys.int_info.default_max_str_digits]: a longer literal is refused. *)
Definition max_str_digits : nat := 4300.

(** The literal after its sign. *)
Definition int_literal (d : string) : option Z :=
    if (max_str_digits <? digit_count d)%nat then None
    else int_digits d 0 false.

(** [int(s)] in base ten; [None] stands for [ValueError]. *)
Definition int (s : string) : option Z :=
    match rstrip_c (lstrip_c s) with
    | String "+" d => int_literal d
    | String "-" d => Z.opp <$> int_literal d
    | d => int_literal d
    end.

(** Truth value of a string that may be [None]. *)
Definition truthy (s : option string) : bool :=
    match s with
    | None | Some EmptyString => false
    | Some _ => true
    end.

End Py.

(** ** [datetime] *)

Record datetime : Type := mk_datetime {
  year : Z; month : Z; day : Z;
  hour : Z; minute : Z; second : Z
}.

Definition is_leap (y : Z) : bool :=
  ((y mod 4 =? 0) && negb (y mod 100 =? 0)) || (y mod 400 =? 0).

Definition days_in_month (y m : Z) : Z :=
  if m =? 2 then (if is_leap y then 29 else 28)
  else if (m =? 4) || (m =? 6) || (m =? 9) || (m =? 11) then 30
  else 31.

(** Whether an integer fits the C [int] that [datetime] reads its
    arguments into. *)
Definition fits_c_int (n : Z) : bool :=
  (-2147483648 <=? n) && (n <=? 2147483647).

(** [datetime(y, m, d)]: [OverflowError] when an argument does not fit a C
    [int]; otherwise [ValueError] outside year 1..9999, month 1..12 or the
    days of the month. *)
Definition new_datetime (y m d : Z) : outcome datetime :=
  if negb (fits_c_int y && fits_c_int m && fits_c_int d) then Raise OverflowError
  else if (1 <=? y) && (y <=? 9999) && (1 <=? m) && (m <=? 12)
          && (1 <=? d) && (d <=? days_in_month y m)
  then Return (mk_datetime y m d 0 0 0)
  else Raise ValueError.

Definition digit_char (n : Z) : ascii :=
  ascii_of_nat (Z.to_nat (48 + n mod 10)).

Definition fmt2 (n : Z) : string :=
  String (digit_char (n / 10)) (String (digit_char n) EmptyString).

Definition fmt4 (n : Z) : string := fmt2 (n / 100) +:+ fmt2 n.

(** [d.isoformat()] of a naive datetime with whole seconds. *)
Definition isoformat (d : datetime) : string :=
  fmt4 (year d) +:+ "-" +:+ fmt2 (month d) +:+ "-" +:+ fmt2 (day d) +:+ "T"
  +:+ fmt2 (hour d) +:+ ":" +:+ fmt2 (minute d) +:+ ":" +:+ fmt2 (second d).

(** ** [parse_date] *)

Definition parse_date (source : option string) : outcome (option datetime) :=
  match source with
  | None | Some EmptyString => Return None
  | Some source =>
      match Py.split "." source with
      | [y; m] =>
          match Py.int y with
          | None => Raise ValueError
          | Some y =>
              match Py.int m with
              | None => Raise ValueError
              | Some m => obind (new_datetime y (m + 1) 1) (fun d => Return (Some d))
              end
          end
      | _ => Raise ValueError
      end
  end.


(** ** Python values

    What [json.loads] returns and what [json.dump] takes; also the values
    kept in [extra_fields] and [properties].  A [dict] literal keeps its
    insertion order, so [VDict] is an association list. *)

Inductive value : Type :=
  | VNone
  | VBool (b : bool)
  | VInt (n : Z)
  | VFloat (repr : string)
  | VStr (s : string)
  | VList (l : list value)
  | VDict (d : list (string * value)).

(** [bool(v)] *)
Definition value_truthy (v : value) : bool :=
  match v with
  | VNone => false
  | VBool b => b
  | VInt n => negb (n =? 0)
  | VFloat _ => true
  | VStr s => Py.truthy (Some s)
  | VList l => match l with [] => false | _ => true end
  | VDict d => match d with [] => false | _ => true end
  end.


(** ** [get_depth] *)

Fixpoint get_depth (maybe_list : value) : outcome Z :=
  match maybe_list with
  | VList l =>
      match l with
      | [] => Raise IndexError
      | first :: _ => obind (get_depth first) (fun d => Return (d + 1))
      end
  | _ => Return 0
  end.

(** ** The libraries the script imports

    [slugify] (python-slugify), [json.loads], the two [pygeoif] geometry
    constructors with the truth value and [__geo_interface__] of what they
    build, and [dateutil]'s [parse].  Their code is not part of the
    repository; the script is embedded over any implementation of them. *)

Class Library : Type := {
  slugify : string -> string;
  (** [None]: [json.loads] raised [ValueError] *)
  json_loads : string -> option value;
  geom : Type;
  Point : list value -> outcome geom;
  Polygon : value -> option (list value) -> outcome geom;
  geom_bool : geom -> bool;
  geo_interface : geom -> value;
  parse : string -> outcome datetime
}.

(** ** Catalogue objects ([pystac]) *)

(** The identity of an object: the catalogue, or the position of the object
    in the list [main] binds it in. *)
Inductive ref : Type :=
  | RCatalog
  | RTheme (i : nat)
  | RVariable (i : nat)
  | RProduct (i : nat)
  | RProject (i : nat).

#[global] Instance ref_eq_dec : EqDecision ref.
Proof. solve_decision. Defined.

Inductive RelType : Type := VIA | CHILD | ITEM | ALTERNATE.

#[global] Instance RelType_eq_dec : EqDecision RelType.
Proof. solve_decision. Defined.

(** A link points at an href or at an object. *)
Inductive link_target : Type :=
  | Href (href : string)
  | Object (r : ref).

Record Link : Type := mk_Link {
  rel : RelType;
  target : link_target;
  media_type : option string
}.

(** [pystac.Catalog] and its subclass [pystac.Collection].  Of the links
    only those the script adds or reads are kept ([via], [child], [item],
    [alternate]); the [root], [self], [parent] and [collection] links that
    [pystac] maintains on its own are left out. *)
Record Collection : Type := mk_Collection {
  id : string;
  description : string;
  extra_fields : gmap string value;
  links : list Link;
  self_href : string
}.

(** [pystac.Item] and [MultiCollectionItem]. *)
Record Item : Type := mk_Item {
  item_id : string;
  geometry : option value;
  item_datetime : option datetime;
  properties : gmap string value;
  item_links : list Link;
  item_href : string;
  (** the DOI handed to the scientific extension *)
  doi : option string
}.

Definition set_extra_fields (c : Collection) (e : gmap string value) : Collection :=
  mk_Collection (id c) (description c) e (links c) (self_href c).

(** [c.add_link(l)] *)
Definition add_link (l : Link) (c : Collection) : Collection :=
  mk_Collection (id c) (description c) (extra_fields c) (links c ++ [l]) (self_href c).

(** [c.extra_fields[k] = v] *)
Definition set_field (k : string) (v : value) (c : Collection) : Collection :=
  set_extra_fields c (<[k := v]> (extra_fields c)).

(** [get_single_link(rel)]: the first link with that relation, if any. *)
Definition get_single_link (r : RelType) (ls : list Link) : option Link :=
  head (filter (fun l => rel l = r) ls).

(** The objects that the links with relation [r] point at, in link order
    ([get_children], [get_collections], [get_items]). *)
Definition get_stac_objects (r : RelType) (ls : list Link) : list ref :=
  omap (fun l => match target l with
                 | Object o => if decide (rel l = r) then Some o else None
                 | Href _ => None
                 end) ls.

(** ** The state of a run *)

Inductive file : Type :=
  | Directory
  (** what [json.dump] wrote *)
  | JsonFile (doc : value)
  (** the document [pystac] wrote for an object *)
  | StacFile (r : ref).

(** The path of a file or directory: the names from the root down, with
    no empty name, ["."] or [".."] among them. *)
Definition path : Type := list string.

Record state : Type := mk_state {
  stdout : list string;
  cwd : path;
  fs : gmap path file;
  catalog : option Collection;
  theme_collections : list Collection;
  variable_collections : list Collection;
  product_items : list Item;
  project_items : list Item
}.

Definition M (A : Type) : Type := state -> outcome A * state.

#[global] Instance M_ret : MRet M := fun A a s => (Return a, s).
#[global] Instance M_bind : MBind M := fun A B k m s =>
  match m s with
  | (Return a, s') => k a s'
  | (Raise e, s') => (Raise e, s')
  end.

Definition throw {A} (e : exn) : M A := fun s => (Raise e, s).
Definition lift {A} (o : outcome A) : M A := fun s => (o, s).
Definition get_state : M state := fun s => (Return s, s).

(** [for x in l: body(x)] *)
Fixpoint for_ {A} (l : list A) (body : A -> M unit) : M unit :=
  match l with
  | [] => mret tt
  | x :: l' => body x ≫= fun _ => for_ l' body
  end.

(** A loop that assigns local variables: [acc] holds them. *)
Fixpoint for_fold {A B} (l : list A) (acc : B) (body : B -> A -> M B) : M B :=
  match l with
  | [] => mret acc
  | x :: l' => body acc x ≫= fun acc' => for_fold l' acc' body
  end.

(** [[f(x) for x in l]] *)
Fixpoint for_list {A B} (l : list A) (f : A -> M B) : M (list B) :=
  match l with
  | [] => mret []
  | x :: l' => f x ≫= fun y => for_list l' f ≫= fun ys => mret (y :: ys)
  end.

(** [enumerate(l, start=k)] *)
Fixpoint enumerate {A} (k : Z) (l : list A) : list (Z * A) :=
  match l with
  | [] => []
  | x :: l' => (k, x) :: enumerate (k + 1) l'
  end.

Definition enumerate1 {A} (l : list A) : list (Z * A) := enumerate 1 l.

(** *** State access *)

Definition set_stdout (v : list string) (s : state) : state :=
  mk_state v (cwd s) (fs s) (catalog s) (theme_collections s)
           (variable_collections s) (product_items s) (project_items s).
Definition set_cwd (v : path) (s : state) : state :=
  mk_state (stdout s) v (fs s) (catalog s) (theme_collections s)
           (variable_collections s) (product_items s) (project_items s).
Definition set_fs (v : gmap path file) (s : state) : state :=
  mk_state (stdout s) (cwd s) v (catalog s) (theme_collections s)
           (variable_collections s) (product_items s) (project_items s).
Definition set_catalog (v : option Collection) (s : state) : state :=
  mk_state (stdout s) (cwd s) (fs s) v (theme_collections s)
           (variable_collections s) (product_items s) (project_items s).
Definition set_theme_collections (v : list Collection) (s : state) : state :=
  mk_state (stdout s) (cwd s) (fs s) (catalog s) v
           (variable_collections s) (product_items s) (project_items s).
Definition set_variable_collections (v : list Collection) (s : state) : state :=
  mk_state (stdout s) (cwd s) (fs s) (catalog s) (theme_collections s)
           v (product_items s) (project_items s).
Definition set_product_items (v : list Item) (s : state) : state :=
  mk_state (stdout s) (cwd s) (fs s) (catalog s) (theme_collections s)
           (variable_collections s) v (project_items s).
Definition set_project_items (v : list Item) (s : state) : state :=
  mk_state (stdout s) (cwd s) (fs s) (catalog s) (theme_collections s)
           (variable_collections s) (product_items s) v.

Definition modify (f : state -> state) : M unit := fun s => (Return tt, f s).

(** [print(line)] *)
Definition print (line : string) : M unit :=
  modify (fun s => set_stdout (stdout s ++ [line]) s).

(** The collection (or catalogue) a reference names. *)
Definition lookup_collection (r : ref) (s : state) : option Collection :=
  match r with
  | RCatalog => catalog s
  | RTheme i => theme_collections s !! i
  | RVariable i => variable_collections s !! i
  | RProduct _ | RProject _ => None
  end.

Definition lookup_item (r : ref) (s : state) : option Item :=
  match r with
  | RProduct i => product_items s !! i
  | RProject i => project_items s !! i
  | _ => None
  end.

Definition deref (r : ref) : M Collection := fun s =>
  match lookup_collection r s with
  | Some c => (Return c, s)
  | None => (Raise AttributeError, s)
  end.

Definition deref_item (r : ref) : M Item := fun s =>
  match lookup_item r s with
  | Some i => (Return i, s)
  | None => (Raise AttributeError, s)
  end.

Definition store_collection (r : ref) (c : Collection) (s : state) : state :=
  match r with
  | RCatalog => set_catalog (Some c) s
  | RTheme i => set_theme_collections (<[i := c]> (theme_collections s)) s
  | RVariable i => set_variable_collections (<[i := c]> (variable_collections s)) s
  | RProduct _ | RProject _ => s
  end.

(** In-place mutation of the collection behind [r]. *)
Definition update (r : ref) (f : Collection -> Collection) : M unit :=
  deref r ≫= fun c => modify (store_collection r (f c)).

(** [parent.add_child(child)]: one more [child] link on the parent. *)
Definition add_child (parent child : ref) : M unit :=
  update parent (add_link (mk_Link CHILD (Object child) None)).

(** [parent.add_item(item)]: one more [item] link on the parent.
    [MultiCollectionItem.set_collection] keeps the links the item already
    has, so an item may hang under several collections. *)
Definition add_item (parent item : ref) : M unit :=
  update parent (add_link (mk_Link ITEM (Object item) None)).

(** [get_collections()]: the children that are collections. *)
Definition is_collection (r : ref) : bool :=
  match r with RTheme _ | RVariable _ => true | _ => false end.

Definition get_collections (c : Collection) : list ref :=
  filter (fun r => is_collection r = true) (get_stac_objects CHILD (links c)).

Definition get_items (c : Collection) : list ref :=
  get_stac_objects ITEM (links c).

(** [d[k]] on [extra_fields] or [properties] *)
Definition getitem (d : gmap string value) (k : string) : outcome value :=
  match d !! k with
  | Some v => Return v
  | None => Raise (KeyError k)
  end.

Definition as_str (v : value) : outcome string :=
  match v with VStr s => Return s | _ => Raise TypeError end.

Definition as_int (v : value) : outcome Z :=
  match v with VInt n => Return n | _ => Raise TypeError end.

Fixpoint as_ints (l : list value) : outcome (list Z) :=
  match l with
  | [] => Return []
  | v :: l' =>
      obind (as_int v) (fun n => obind (as_ints l') (fun ns => Return (n :: ns)))
  end.

Definition as_years (v : value) : outcome (list Z) :=
  match v with VList l => as_ints l | _ => Raise TypeError end.

(** [sorted(years)] of a set of integers *)
Definition sorted (years : gset Z) : list Z := merge_sort Z.le (elements years).

Definition years_value (years : gset Z) : value := VList (VInt <$> sorted years).

(** ** Rows and node builders *)

(** A row of [csv.DictReader]: column name to cell. *)
Abbreviation row := (gmap string string).

(** [obj[column]] *)
Definition col (obj : row) (column : string) : M string :=
  match obj !! column with
  | Some v => mret v
  | None => throw (KeyError column)
  end.

Definition get_themes (obj : row) : M (list string) :=
  for_list ["Theme1"; "Theme2"; "Theme3"; "Theme4"; "Theme5"; "Theme6"]
           (fun k => col obj k ≫= fun v =>
                     if Py.truthy (Some v) then col obj k ≫= fun v' => mret [v']
                     else mret [])
  ≫= fun vs => mret (concat vs).

Section Builders.
Context `{Library}.

Definition get_geometry (source : option string) : M (option value) :=
    let finish (g : option geom) : M (option value) :=
      match g with
      | Some g => if geom_bool g then mret (Some (geo_interface g)) else mret None
      | None => mret None
      end in
    match source with
    | None | Some EmptyString => finish None
    | Some source =>
        if Py.startswith source "Multipolygon" then finish None
        else
          match json_loads source with
          | None => print source ≫= fun _ => mret None
          | Some raw_geom =>
              lift (get_depth raw_geom) ≫= fun depth =>
              if depth =? 1 then
                match raw_geom with
                | VList coords => lift (Point coords) ≫= fun g => finish (Some g)
                | _ => throw TypeError
                end
              else if depth =? 3 then
                match raw_geom with
                | VList (shell :: holes) =>
                    lift (Polygon shell (match holes with [] => None | _ => Some holes end))
                    ≫= fun g => finish (Some g)
                | _ => throw ValueError
                end
              else finish None
          end
    end.

(** [obj[c] and parse_date(obj[c]) or None] *)
Definition date_or_none (obj : row) (c : string) : M (option datetime) :=
    col obj c ≫= fun v =>
    if Py.truthy (Some v) then col obj c ≫= fun v' => lift (parse_date (Some v'))
    else mret None.

(** [obj[c] and parse_date(obj[c]).isoformat() or None] *)
Definition isoformat_or_none (obj : row) (c : string) : M value :=
    col obj c ≫= fun v =>
    if Py.truthy (Some v) then
      col obj c ≫= fun v' =>
      lift (parse_date (Some v')) ≫= fun d =>
      match d with
      | Some d => mret (VStr (isoformat d))
      | None => throw AttributeError
      end
    else mret VNone.

Definition via (obj : row) (column : string) : M Link :=
    col obj column ≫= fun href => mret (mk_Link VIA (Href href) None).

Definition product_to_item (obj : row) : M Item :=
    isoformat_or_none obj "Start" ≫= fun start_datetime =>
    isoformat_or_none obj "End" ≫= fun end_datetime =>
    col obj "Product" ≫= fun title =>
    col obj "Description" ≫= fun descr =>
    col obj "EO_Missions" ≫= fun mission =>
    col obj "Project" ≫= fun project =>
    get_themes obj ≫= fun themes =>
    col obj "Variable" ≫= fun variable =>
    col obj "Status" ≫= fun status =>
    col obj "Region" ≫= fun region =>
    let properties : gmap string value :=
      <["osc:type" := VStr "Product"]>
      (<["osc:region" := VStr region]>
      (<["osc:status" := VStr status]>
      (<["osc:variable" := VStr variable]>
      (<["osc:themes" := VList (VStr <$> themes)]>
      (<["osc:project" := VStr project]>
      (<["mission" := VStr mission]>
      (<["description" := VStr descr]>
      (<["title" := VStr title]>
      (<["end_datetime" := end_datetime]>
      (<["start_datetime" := start_datetime]> ∅)))))))))) in
    col obj "ID" ≫= fun ident =>
    col obj "Polygon" ≫= fun polygon =>
    get_geometry (Some polygon) ≫= fun g =>
    date_or_none obj "Start" ≫= fun dt =>
    col obj "ID" ≫= fun ident' =>
    via obj "Website" ≫= fun website =>
    via obj "Access" ≫= fun access =>
    via obj "Documentation" ≫= fun documentation =>
    col obj "DOI" ≫= fun d =>
    mret (mk_Item ("product-" +:+ ident) g dt properties
                  [website; access; documentation]
                  ("products/product-" +:+ ident' +:+ ".json") (Some d)).

Definition project_to_item (obj : row) : M Item :=
    col obj "Start_Date_Project" ≫= fun s0 => lift (parse s0) ≫= fun start =>
    col obj "End_Date_Project" ≫= fun e0 => lift (parse e0) ≫= fun end_ =>
    col obj "Project_Name" ≫= fun title =>
    col obj "Short_Description" ≫= fun descr =>
    get_themes obj ≫= fun themes =>
    col obj "Status" ≫= fun status =>
    col obj "Consortium" ≫= fun consortium =>
    col obj "TO" ≫= fun to_name =>
    col obj "TO_E-mail" ≫= fun to_email =>
    let properties : gmap string value :=
      <["osc:type" := VStr "Project"]>
      (<["osc:technical_officer" :=
           VDict [("name", VStr to_name); ("email", VStr to_email)]]>
      (<["osc:consortium" := VStr consortium]>
      (<["osc:status" := VStr status]>
      (<["osc:themes" := VList (VStr <$> themes)]>
      (<["description" := VStr descr]>
      (<["title" := VStr title]>
      (<["end_datetime" := VStr (isoformat end_)]>
      (<["start_datetime" := VStr (isoformat start)]> ∅)))))))) in
    col obj "Project_ID" ≫= fun ident =>
    col obj "Start_Date_Project" ≫= fun s1 => lift (parse s1) ≫= fun dt =>
    col obj "Project_ID" ≫= fun ident' =>
    via obj "Website" ≫= fun website =>
    via obj "Eo4Society_link" ≫= fun eo4 =>
    mret (mk_Item ("project-" +:+ ident) None (Some dt) properties
                  [website; eo4]
                  ("projects/project-" +:+ ident' +:+ ".json") None).

Definition theme_to_collection (obj : row) : M Collection :=
    col obj "theme" ≫= fun theme =>
    let identifier := Py.strip theme in
    col obj "description" ≫= fun descr =>
    via obj "link" ≫= fun l =>
    mret (mk_Collection identifier descr {["osc:type" := VStr "Theme"]} [l]
                        ("themes/" +:+ identifier +:+ ".json")).

Definition variable_to_collection (obj : row) : M Collection :=
    col obj "variable" ≫= fun variable =>
    let identifier := Py.strip variable in
    col obj "variable description" ≫= fun descr =>
    col obj "theme" ≫= fun theme =>
    via obj "link" ≫= fun l =>
    mret (mk_Collection identifier descr
            (<["osc:type" := VStr "Variable"]> {["osc:theme" := VStr theme]}) [l]
            ("variables/" +:+ identifier +:+ ".json")).

End Builders.

(** ** The file system

    [fs] maps the path of every file and directory there is to what is at
    it; the root is a directory and is always there.  A path string is
    resolved the way the kernel does it, one component after the other,
    from the root when the string starts with a slash and from the working
    directory otherwise.  There are no symbolic links and no permissions. *)

(** What is at the path [p]. *)
Definition entry (s : state) (p : path) : option file :=
  match p with
  | [] => Some Directory
  | _ :: _ => fs s !! p
  end.

(** The components of a path string: what stands between its slashes. *)
Definition components (name : string) : list string := Py.split "/" name.

(** Where the resolution of [name] starts. *)
Definition start_of (name : string) (s : state) : path :=
  if Py.startswith name "/" then [] else cwd s.

(** One step of the resolution of [name]: the component [c] is looked up
    in what is at [cur], which has to be a directory.  An empty component
    (a slash after a slash, or at the end) and ["."] stay there, [".."]
    goes one directory up; what a name leads to need not be there. *)
Definition step (name : string) (s : state) (cur : path) (c : string)
  : outcome path :=
  match entry s cur with
  | Some Directory =>
      if String.eqb c EmptyString || String.eqb c "." then Return cur
      else if String.eqb c ".." then Return (removelast cur)
      else Return (cur ++ [c])%list
  | Some _ => Raise (NotADirectoryError name)
  | None => Raise (FileNotFoundError name)
  end.

Fixpoint walk (name : string) (s : state) (cur : path) (comps : list string)
  : outcome path :=
  match comps with
  | [] => Return cur
  | c :: comps' => obind (step name s cur c) (fun p => walk name s p comps')
  end.

(** The path [name] leads to; the empty string leads nowhere. *)
Definition resolve (name : string) (s : state) : outcome path :=
  match name with
  | EmptyString => Raise (FileNotFoundError name)
  | _ => walk name s (start_of name s) (components name)
  end.

(** Whether the components [comps], resolved from [start], lead to
    something, and whether to a directory. *)
Definition exists_at (name : string) (s : state) (start : path)
    (comps : list string) : bool :=
  match walk name s start comps with
  | Return p => match entry s p with Some _ => true | None => false end
  | Raise _ => false
  end.

Definition isdir_at (name : string) (s : state) (start : path)
    (comps : list string) : bool :=
  match walk name s start comps with
  | Return p => match entry s p with Some Directory => true | _ => false end
  | Raise _ => false
  end.

(** [os.path.exists(name)] *)
Definition path_exists (name : string) (s : state) : bool :=
  match name with
  | EmptyString => false
  | _ => exists_at name s (start_of name s) (components name)
  end.

(** [os.path.isdir(name)] *)
Definition path_isdir (name : string) (s : state) : bool :=
  match name with
  | EmptyString => false
  | _ => isdir_at name s (start_of name s) (components name)
  end.

(** The components of a string without the slashes that end it. *)
Fixpoint rstrip_slashes (comps : list string) : list string :=
  match comps with
  | [] => []
  | c :: comps' =>
      match rstrip_slashes comps' with
      | [] => if String.eqb c EmptyString then [] else [c]
      | r => c :: r
      end
  end.

(** [os.mkdir] of the path with the components [comps]:
    [FileExistsError] when something is there already, whatever it is. *)
Definition mkdir_at (name : string) (start : path) (comps : list string)
  : M unit := fun s =>
  match walk name s start comps with
  | Raise e => (Raise e, s)
  | Return p =>
      match entry s p with
      | Some _ => (Raise (FileExistsError name), s)
      | None => (Return tt, set_fs (<[p := Directory]> (fs s)) s)
      end
  end.

(** [try: m  except FileExistsError: pass] *)
Definition ignore_FileExistsError (m : M unit) : M unit := fun s =>
  match m s with
  | (Raise (FileExistsError _), s') => (Return tt, s')
  | r => r
  end.

(** [os.makedirs] of the path whose components are [r], the last one
    first.  [os.path.split] gives the last component as the tail and the
    ones before it, without the slashes that end them, as the head
    (slashes at the end of the path itself are skipped first).  When the
    head is not empty and leads to nothing, the head is made first, and
    that is all when the tail is ["."]; then the path itself is made
    with [os.mkdir], whose errors are not caught. *)
Fixpoint makedirs_rev (name : string) (start : path) (r : list string)
  : M unit :=
  match r with
  | [] => mkdir_at name start []
  | tail :: rest =>
      if String.eqb tail EmptyString then makedirs_rev name start rest
      else
        (match rest return M bool with
         | [] => mret false
         | _ :: _ => fun s =>
             if exists_at name s start (rstrip_slashes (reverse rest))
             then (Return false, s)
             else (ignore_FileExistsError (makedirs_rev name start rest)
                   ≫= fun _ => mret (String.eqb tail ".")) s
         end) ≫= fun done : bool =>
        if done then mret tt else mkdir_at name start (reverse r)
  end.

(** [os.makedirs(name)] *)
Definition makedirs (name : string) : M unit := fun s =>
  match name with
  | EmptyString => (Raise (FileNotFoundError name), s)
  | _ => makedirs_rev name (start_of name s) (reverse (components name)) s
  end.

(** [os.chdir(name)] *)
Definition chdir (name : string) : M unit := fun s =>
  match resolve name s with
  | Raise e => (Raise e, s)
  | Return p =>
      match entry s p with
      | Some Directory => (Return tt, set_cwd p s)
      | Some _ => (Raise (NotADirectoryError name), s)
      | None => (Raise (FileNotFoundError name), s)
      end
  end.

(** Opening [name] for writing and writing [content] to it: the file is
    made or replaced; the directory it is in has to be there. *)
Definition write_file (name : string) (content : file) : M unit := fun s =>
  match resolve name s with
  | Raise e => (Raise e, s)
  | Return p =>
      match entry s p with
      | Some Directory => (Raise (IsADirectoryError name), s)
      | _ => (Return tt, set_fs (<[p := content]> (fs s)) s)
      end
  end.

(** [DefaultStacIO.write_text_to_href] of [pystac]: the directory of
    the file ([os.path.dirname(href)]: the components before the last) is
    made with [os.makedirs] when it is not a directory yet; then the file
    is written. *)
Definition write_text_to_href (href : string) (content : file) : M unit :=
  let dir := removelast (components href) in
  (match dir return M unit with
   | [] => mret tt
   | _ :: _ => fun s =>
       if isdir_at href s (start_of href s) (rstrip_slashes dir)
       then (Return tt, s)
       else makedirs_rev href (start_of href s) (reverse dir) s
   end) ≫= fun _ =>
  write_file href content.

(** ** [main] *)

(** [{slugify(coll.id): coll for coll in colls}]: a later collection with
    the same key replaces an earlier one. *)
Definition index_by_slug `{Library} (mk : nat -> ref) (colls : list Collection)
  : gmap string ref :=
  foldl (fun m p => <[p.1 := p.2]> m) ∅
        (imap (fun i c => (slugify (id c), mk i)) colls).

Definition refs_of {A} (mk : nat -> ref) (l : list A) : list ref :=
  mk <$> seq 0 (length l).

Section Main.
Context `{Library}.

(** Lines 239-268: the node builders and the two lookup maps. *)
Definition build_nodes (variables themes projects products : list row)
    : M (gmap string ref * gmap string ref) :=
    modify (set_catalog
              (Some (mk_Collection "OSC-Catalog" "OSC-Catalog" ∅ [] "catalog.json")))
    ≫= fun _ =>
    for_list themes theme_to_collection ≫= fun tcs =>
    modify (set_theme_collections tcs) ≫= fun _ =>
    let theme_map := index_by_slug RTheme tcs in
    for_list variables variable_to_collection ≫= fun vcs =>
    modify (set_variable_collections vcs) ≫= fun _ =>
    let variable_map := index_by_slug RVariable vcs in
    for_list products product_to_item ≫= fun pis =>
    modify (set_product_items pis) ≫= fun _ =>
    for_list projects project_to_item ≫= fun pjs =>
    modify (set_project_items pjs) ≫= fun _ =>
    mret (theme_map, variable_map).

(** Lines 270-273: place variable collections into theme collections. *)
Definition place_variables (theme_map : gmap string ref) : M unit :=
    get_state ≫= fun s =>
    for_ (refs_of RVariable (variable_collections s)) (fun coll =>
      deref coll ≫= fun c =>
      lift (obind (getitem (extra_fields c) "osc:theme") as_str) ≫= fun theme =>
      match theme_map !! slugify theme with
      | None => throw (KeyError (slugify theme))
      | Some theme_coll => add_child theme_coll coll
      end).

(** Lines 275-281: put products into variable collections.  The local
    [variable_coll] is the accumulator: [None] while it is unbound. *)
Definition place_products (variable_map : gmap string ref) : M unit :=
    get_state ≫= fun s =>
    for_fold (refs_of RProduct (product_items s)) (None : option ref)
      (fun variable_coll item =>
         deref_item item ≫= fun it =>
         lift (obind (getitem (properties it) "osc:variable") as_str) ≫= fun variable =>
         (match variable_map !! slugify variable with
          | Some c => mret (Some c)
          | None => print ("Missing variable " +:+ variable) ≫= fun _ =>
                    mret variable_coll
          end) ≫= fun variable_coll =>
         match variable_coll with
         | None => throw (UnboundLocalError "variable_coll")
         | Some c => add_item c item ≫= fun _ => mret variable_coll
         end)
    ≫= fun _ => mret tt.

(** [item.properties["osc:themes"]] as a list of strings *)
Definition themes_of (it : Item) : outcome (list string) :=
    obind (getitem (properties it) "osc:themes") (fun v =>
      match v with
      | VList l =>
          (fix go (l : list value) : outcome (list string) :=
             match l with
             | [] => Return []
             | v :: l' => obind (as_str v) (fun x => obind (go l') (fun xs => Return (x :: xs)))
             end) l
      | _ => Raise TypeError
      end).

(** Lines 283-286: put projects into their theme collections. *)
Definition place_projects (theme_map : gmap string ref) : M unit :=
    get_state ≫= fun s =>
    for_ (refs_of RProject (project_items s)) (fun item =>
      deref_item item ≫= fun it =>
      lift (themes_of it) ≫= fun themes =>
      for_ themes (fun theme =>
        match theme_map !! slugify theme with
        | None => throw (KeyError (slugify theme))
        | Some theme_coll => add_item theme_coll item
        end)).

(** [catalog.add_children(theme_collections)] *)
Definition add_children : M unit :=
    get_state ≫= fun s =>
    for_ (refs_of RTheme (theme_collections s)) (add_child RCatalog).

(** Lines 292-303: the statistics of one variable collection. *)
Definition summarize_variable (coll : ref) : M unit :=
    deref coll ≫= fun c =>
    for_fold (enumerate1 (get_items c)) ((∅ : gset Z), 0)
      (fun '(years, _) '(i, item) =>
         deref_item item ≫= fun it =>
         lift (getitem (properties it) "start_datetime") ≫= fun start =>
         if value_truthy start then
           lift (getitem (properties it) "start_datetime") ≫= fun start' =>
           lift (obind (as_str start') parse) ≫= fun d =>
           mret (years ∪ {[year d]}, i)
         else mret (years, i))
    ≫= fun '(years, i) =>
    update coll (set_field "osc:years" (years_value years)) ≫= fun _ =>
    update coll (set_field "osc:numberOfProducts" (VInt i)).

(** Lines 305-320: the statistics of one theme collection.  The local
    [i] is assigned by both loops and initialised before the first. *)
Definition summarize_theme (coll : ref) : M unit :=
    deref coll ≫= fun c =>
    for_fold (enumerate1 (get_collections c)) ((∅ : gset Z), 0, 0)
      (fun '(years, number_of_products, _) '(i, sub_coll) =>
         deref sub_coll ≫= fun sc =>
         lift (obind (getitem (extra_fields sc) "osc:years") as_years) ≫= fun ys =>
         lift (obind (getitem (extra_fields sc) "osc:numberOfProducts") as_int) ≫= fun n =>
         mret (years ∪ list_to_set ys, number_of_products + n, i))
    ≫= fun '(years, number_of_products, i) =>
    update coll (set_field "osc:years" (years_value years)) ≫= fun _ =>
    update coll (set_field "osc:numberOfProducts" (VInt number_of_products)) ≫= fun _ =>
    update coll (set_field "osc:numberOfVariables" (VInt i)) ≫= fun _ =>
    deref coll ≫= fun c' =>
    for_fold (enumerate1 (get_items c')) i (fun _ '(i, item) => mret i) ≫= fun i =>
    update coll (set_field "osc:numberOfProjects" (VInt i)).

(** Lines 322-337: the statistics of the catalogue. *)
Definition summarize_catalog : M unit :=
    get_state ≫= fun s =>
    for_fold (enumerate1 (refs_of RTheme (theme_collections s)))
             ((∅ : gset Z), 0, 0, 0)
      (fun '(years, number_of_products, number_of_variables, _) '(i, coll) =>
         deref coll ≫= fun c =>
         lift (obind (getitem (extra_fields c) "osc:years") as_years) ≫= fun ys =>
         lift (obind (getitem (extra_fields c) "osc:numberOfProducts") as_int) ≫= fun n =>
         lift (obind (getitem (extra_fields c) "osc:numberOfVariables") as_int) ≫= fun v =>
         mret (years ∪ list_to_set ys, number_of_products + n,
               number_of_variables + v, i))
    ≫= fun '(years, number_of_products, number_of_variables, i) =>
    update RCatalog (fun c => set_extra_fields c
      (<["osc:years" := years_value years]>
      (<["osc:numberOfThemes" := VInt i]>
      (<["osc:numberOfVariables" := VInt number_of_variables]>
      (<["osc:numberOfProjects" := VInt (Z.of_nat (length (project_items s)))]>
      (<["osc:numberOfProducts" := VInt number_of_products]> ∅)))))).

(** Lines 291-337 *)
Definition aggregate : M unit :=
    get_state ≫= fun s =>
    for_ (refs_of RVariable (variable_collections s)) summarize_variable ≫= fun _ =>
    for_ (refs_of RTheme (theme_collections s)) summarize_theme ≫= fun _ =>
    summarize_catalog.

(** [link.get_href()]: the href of a link to an href, the self href of
    the object otherwise. *)
Definition get_href (l : Link) : M value :=
    match target l with
    | Href h => mret (VStr h)
    | Object r => fun s =>
        match lookup_collection r s, lookup_item r s with
        | Some c, _ => (Return (VStr (self_href c)), s)
        | None, Some it => (Return (VStr (item_href it)), s)
        | None, None => (Raise AttributeError, s)
        end
    end.

(** Lines 362-369: one entry of a theme's ["variables"]. *)
Definition variable_metrics (var_coll : ref) : M value :=
    deref var_coll ≫= fun c =>
    lift (getitem (extra_fields c) "osc:years") ≫= fun years =>
    lift (getitem (extra_fields c) "osc:numberOfProducts") ≫= fun products =>
    mret (VDict [("name", VStr (id c));
                 ("description", VStr (description c));
                 ("summary", VDict [("years", years);
                                    ("numberOfProducts", products)])]).

(** Lines 349-372: one entry of ["themes"].  [get_single_link] gives
    [None] when there is no such link, and [None.get_href()] raises. *)
Definition theme_metrics (theme_coll : ref) : M value :=
    deref theme_coll ≫= fun c =>
    match get_single_link VIA (links c) with
    | None => throw AttributeError
    | Some l =>
        get_href l ≫= fun website =>
        lift (getitem (extra_fields c) "osc:years") ≫= fun years =>
        lift (getitem (extra_fields c) "osc:numberOfProducts") ≫= fun products =>
        lift (getitem (extra_fields c) "osc:numberOfProjects") ≫= fun projects =>
        lift (getitem (extra_fields c) "osc:numberOfVariables") ≫= fun variables =>
        for_list (get_collections c) variable_metrics ≫= fun vars =>
        mret (VDict [("name", VStr (id c));
                     ("description", VStr (description c));
                     ("image", VStr "...");
                     ("website", website);
                     ("summary", VDict [("years", years);
                                        ("numberOfProducts", products);
                                        ("numberOfProjects", projects);
                                        ("numberOfVariables", variables)]);
                     ("variables", VList vars)])
    end.

(** Lines 339-375: the metrics document. *)
Definition build_metrics : M value :=
    deref RCatalog ≫= fun c =>
    lift (getitem (extra_fields c) "osc:years") ≫= fun years =>
    lift (getitem (extra_fields c) "osc:numberOfProducts") ≫= fun products =>
    lift (getitem (extra_fields c) "osc:numberOfProjects") ≫= fun projects =>
    lift (getitem (extra_fields c) "osc:numberOfVariables") ≫= fun variables =>
    lift (getitem (extra_fields c) "osc:numberOfThemes") ≫= fun themes =>
    for_list (get_collections c) theme_metrics ≫= fun ts =>
    mret (VDict [("id", VStr (id c));
                 ("summary", VDict [("years", years);
                                    ("numberOfProducts", products);
                                    ("numberOfProjects", projects);
                                    ("numberOfVariables", variables);
                                    ("numberOfThemes", themes)]);
                 ("themes", VList ts)]).

(** The two functions of the [CustomLayoutStrategy] (lines 401-404). *)
Definition collection_func (c : Collection) : outcome string :=
    obind (obind (getitem (extra_fields c) "osc:type") as_str) (fun t =>
      Return (Py.lower t +:+ "s/" +:+ slugify (id c) +:+ ".json")).

Definition item_func (it : Item) : outcome string :=
    obind (obind (getitem (properties it) "osc:type") as_str) (fun t =>
      Return (Py.lower t +:+ "s/" +:+ item_id it +:+ ".json")).

Definition layout_items (c : Collection) : M (list (string * ref)) :=
    for_list (get_items c) (fun item =>
      deref_item item ≫= fun it =>
      lift (item_func it) ≫= fun p => mret (p, item)).

(** The files of a variable collection, in the order they are saved:
    its items, then the collection. *)
Definition layout_variable (v : ref) : M (list (string * ref)) :=
    deref v ≫= fun c =>
    layout_items c ≫= fun items =>
    lift (collection_func c) ≫= fun p =>
    mret (items ++ [(p, v)])%list.

(** The files below a theme: its children, its items, then the theme. *)
Definition layout_theme (t : ref) : M (list (string * ref)) :=
    deref t ≫= fun c =>
    for_list (get_stac_objects CHILD (links c)) layout_variable ≫= fun children =>
    layout_items c ≫= fun items =>
    lift (collection_func c) ≫= fun p =>
    mret (concat children ++ items ++ [(p, t)])%list.

(** [catalog.normalize_and_save] with an empty root href: every
    object reachable from the catalogue gets the path of the layout
    strategy, the catalogue itself [catalog.json]; then each is written. *)
Definition normalize_and_save : M unit :=
    deref RCatalog ≫= fun c =>
    for_list (get_stac_objects CHILD (links c)) layout_theme ≫= fun themes =>
    for_ (concat themes ++ [("catalog.json", RCatalog)])%list
         (fun '(p, r) => write_text_to_href p (StacFile r)).

(** Everything before the output directory is touched (lines 222-375). *)
Definition build (variables themes projects products : list row) : M value :=
    build_nodes variables themes projects products ≫= fun '(theme_map, variable_map) =>
    place_variables theme_map ≫= fun _ =>
    place_products variable_map ≫= fun _ =>
    place_projects theme_map ≫= fun _ =>
    add_children ≫= fun _ =>
    aggregate ≫= fun _ =>
    build_metrics.

(** Lines 377-405. *)
Definition save (metrics : value) (out_dir : string) : M unit :=
    makedirs out_dir ≫= fun _ =>
    chdir out_dir ≫= fun _ =>
    write_file "metrics.json" (JsonFile metrics) ≫= fun _ =>
    update RCatalog (add_link (mk_Link ALTERNATE (Href "./metrics.json")
                                       (Some "application/json"))) ≫= fun _ =>
    normalize_and_save.

Definition main (variables_file themes_file projects_file products_file : list row)
                  (out_dir : string) : M unit :=
    build variables_file themes_file projects_file products_file ≫= fun metrics =>
    save metrics out_dir.

End Main.

(** The state a run starts in: nothing printed, the root as the working
    directory the run is started from, and the file system as it is
    then. *)
Definition initial_state (files : gmap path file) : state :=
  mk_state [] [] files None [] [] [] [].

(** ** The reference normalizer *)

Module Normalizer.

(** Runs of non-alphanumeric characters become one ["-"]; [in_run] tells
    whether the previous character already belonged to such a run. *)
Fixpoint collapse_runs (in_run : bool) (s : string) : string :=
    match s with
    | EmptyString => EmptyString
    | String a s' =>
        if Py.isalnum a then String a (collapse_runs false s')
        else if in_run then collapse_runs true s'
        else String "-" (collapse_runs true s')
    end.

(** Modelled from the spec: [slugify] of the python-slugify package,
    whose code is not in the repository.  The spec (4.1) describes it as
    "slug-style: lowercase, non-alphanumeric runs collapsed to a
    separator", total on every string. *)
Definition slugify (x : string) : string := collapse_runs false (Py.lower x).

End Normalizer.

(** ** A library instance to run the script on

    The decoder knows the coordinate strings used below; the date parser
    reads the [YYYY-MM-DD] head of a string. *)

Module Sample.

Definition loads (source : string) : option value :=
    if String.eqb source "[]" then Some (VList [])
    else if String.eqb source "[[]]" then Some (VList [VList []])
    else if String.eqb source "[12, 48]" then Some (VList [VInt 12; VInt 48])
    else if String.eqb source "[[1, 2], [3, 4]]"
      then Some (VList [VList [VInt 1; VInt 2]; VList [VInt 3; VInt 4]])
    else if String.eqb source "{}" then Some (VDict [])
    else if String.eqb source "7" then Some (VInt 7)
    else None.

Definition parse_iso (source : string) : outcome datetime :=
    match Py.int (substring 0 4 source), Py.int (substring 5 2 source),
          Py.int (substring 8 2 source) with
    | Some y, Some m, Some d => new_datetime y m d
    | _, _, _ => Raise ValueError
    end.

#[export] Instance library : Library := {|
    slugify := Normalizer.slugify;
    json_loads := loads;
    geom := value;
    Point := fun coords =>
      Return (VDict [("type", VStr "Point"); ("coordinates", VList coords)]);
    Polygon := fun shell holes =>
      Return (VDict [("type", VStr "Polygon");
                     ("coordinates", VList (shell :: default [] holes))]);
    geom_bool := fun _ => true;
    geo_interface := fun g => g;
    parse := parse_iso
  |}.

Definition theme_row (theme descr link : string) : row :=
    <["theme" := theme]> (<["description" := descr]> {["link" := link]}).

Definition variable_row (variable theme : string) : row :=
    <["variable" := variable]> (<["variable description" := "about " +:+ variable]>
    (<["theme" := theme]> {["link" := "https://example.org/v"]})).

Definition with_themes (themes : list string) (r : row) : row :=
    foldr (fun '(k, v) m => <[k := v]> m) r
      (zip ["Theme1"; "Theme2"; "Theme3"; "Theme4"; "Theme5"; "Theme6"]
           (themes ++ replicate 6 EmptyString)%list).

Definition product_row (ident variable start polygon : string) : row :=
    with_themes []
      (list_to_map [("ID", ident); ("Product", "product " +:+ ident);
                    ("Description", EmptyString); ("EO_Missions", EmptyString);
                    ("Project", EmptyString); ("Variable", variable);
                    ("Status", "ongoing"); ("Region", "global");
                    ("Start", start); ("End", EmptyString); ("Polygon", polygon);
                    ("Website", EmptyString); ("Access", EmptyString);
                    ("Documentation", EmptyString); ("DOI", EmptyString)]).

Definition project_row (ident : string) (themes : list string) : row :=
    with_themes themes
      (list_to_map [("Project_ID", ident); ("Project_Name", "project " +:+ ident);
                    ("Short_Description", EmptyString); ("Status", "ongoing");
                    ("Consortium", EmptyString); ("TO", EmptyString);
                    ("TO_E-mail", EmptyString);
                    ("Start_Date_Project", "2019-01-01");
                    ("End_Date_Project", "2021-12-31");
                    ("Website", EmptyString); ("Eo4Society_link", EmptyString)]).

Definition themes : list row :=
    [theme_row "Climate" "the climate" "https://example.org/climate";
     theme_row "Land" "the land" EmptyString].

Definition variables : list row := [variable_row "Soil Moisture" "Climate"].

Definition products : list row :=
    [product_row "1" "Soil Moisture" "2019.03" "[12, 48]";
     product_row "2" "soil-moisture" "2020.07" EmptyString].

Definition projects : list row := [project_row "7" ["Climate"; "Land"]].


(** The whole run on them, into a directory that is not there yet. *)
Definition ran : outcome unit * state :=
  main variables themes projects products "dist" (initial_state ∅).

End Sample.


(** ** Vocabulary of the properties *)

(** A string whose month part reads as twelve or more. *)
Definition month_beyond_range (source : string) : Prop :=
  exists y m m', Py.split "." source = [y; m] /\ Py.int m = Some m' /\ 12 <= m'.

(** Whether a computation raised when run from [s]. *)
Definition aborts {A} (m : M A) (s : state) : Prop := raises (m s).1.

(** [m] leaves the component [proj] of the state alone, whether it
    returns or raises. *)
Definition preserves {A B} (proj : state -> B) (m : M A) : Prop :=
  forall s, proj (m s).2 = proj s.

(** The part of the state that is the world outside the process. *)
Definition files (s : state) : gmap path file * path := (fs s, cwd s).

(** Registries on which the script goes wrong. *)
Module Defects.

(** A products file whose second row names a variable that is in no
    variables file. *)
Definition products_with_unknown_variable : list row :=
  [Sample.product_row "1" "Soil Moisture" "2019.03" EmptyString;
   Sample.product_row "2" "Sea Ice" "2020.07" EmptyString].

Definition run_unknown_variable : outcome unit * state :=
  main (H := Sample.library) Sample.variables Sample.themes []
       products_with_unknown_variable "dist" (initial_state ∅).

(** The same, with the unknown variable on the first row. *)
Definition run_unknown_variable_first : outcome unit * state :=
  main (H := Sample.library) Sample.variables Sample.themes []
       [Sample.product_row "2" "Sea Ice" "2020.07" EmptyString] "dist"
       (initial_state ∅).

(** A projects file whose only row has all six theme slots blank. *)
Definition run_unattached_project : outcome unit * state :=
  main (H := Sample.library) Sample.variables Sample.themes
       [Sample.project_row "7" []] Sample.products "dist" (initial_state ∅).

(** A file system in which the directory [dist] is there already, with a
    file in it. *)
Definition dist_with_a_file : gmap path file :=
  <[["dist"; "old.json"] := JsonFile VNone]> {[ ["dist"] := Directory ]}.

(** Themes "Climate" (one variable) and "Land", and no project at all. *)
Definition run_without_projects : outcome unit * state :=
  main (H := Sample.library) Sample.variables Sample.themes [] Sample.products
       "dist" (initial_state ∅).

End Defects.

(** The catalogue objects: everything in the state but the output. *)
Definition heap (s : state)
  : option Collection * list Collection * list Collection * list Item * list Item :=
  (catalog s, theme_collections s, variable_collections s,
   product_items s, project_items s).

(** What the theme builder makes of a row: one link, to the row's link. *)
Definition theme_built (obj : row) (c : Collection) : Prop :=
  exists theme descr link,
    obj !! "theme" = Some theme /\ obj !! "description" = Some descr /\
    obj !! "link" = Some link /\
    c = mk_Collection (Py.strip theme) descr {["osc:type" := VStr "Theme"]}
          [mk_Link VIA (Href link) None]
          ("themes/" +:+ Py.strip theme +:+ ".json").

(** A view [π] of a collection, taken of the catalogue and of every theme
    and variable collection, next to the items. *)
Definition view {B} (π : Collection -> B) (s : state)
  : option B * list B * list B * list Item * list Item :=
  (π <$> catalog s, π <$> theme_collections s, π <$> variable_collections s,
   product_items s, project_items s).

(** [get_children()]: the objects of the [child] links. *)
Definition kids (c : Collection) : list ref := get_stac_objects CHILD (links c).



(** The reference names a variable collection. *)
Definition is_variable (r : ref) : Prop := exists v, r = RVariable v.

(** The [osc:numberOfProducts] a collection records. *)
Definition number_of_products (c : Collection) : option Z :=
  match extra_fields c !! "osc:numberOfProducts" with
  | Some (VInt n) => Some n
  | _ => None
  end.

(** The [osc:numberOfProducts] recorded on the object behind [r]. *)
Definition products_of (s : state) (r : ref) : option Z :=
  lookup_collection r s ≫= number_of_products.

(** [sum(l)] *)
Definition sum_Z (l : list Z) : Z := foldr Z.add 0 l.

(** A theme whose recorded product count is the sum over its
    sub-collections of theirs. *)
Definition summed (s : state) (c : Collection) : Prop :=
  exists ns, Forall2 (fun r k => products_of s r = Some k) (get_collections c) ns
             /\ number_of_products c = Some (sum_Z ns).

(** The collections, without the catalogue. *)
Definition collections (s : state) : list Collection * list Collection :=
  (theme_collections s, variable_collections s).

(** A project node is covered when some theme has it among its items. *)
Definition covered (r : ref) (s : state) : Prop :=
  exists c, c ∈ theme_collections s /\ r ∈ get_items c.

(** The [osc:numberOfProjects] the catalogue records. *)
Definition number_of_projects (s : state) : option Z :=
  catalog s ≫= fun c =>
  match extra_fields c !! "osc:numberOfProjects" with
  | Some (VInt n) => Some n
  | _ => None
  end.

(** The project nodes that some theme has among its items, with
    repetitions: one occurrence for each attachment. *)
Definition reachable_projects (s : state) : list ref :=
  concat (get_items <$> theme_collections s).

(** A second library instance, whose decoder also knows one polygon. *)
Module Shapes.

Definition triangle : string := "[[[0, 0], [4, 0], [4, 3], [0, 0]]]".

Definition ring : value :=
  VList [VList [VInt 0; VInt 0]; VList [VInt 4; VInt 0];
         VList [VInt 4; VInt 3]; VList [VInt 0; VInt 0]].

Definition loads (source : string) : option value :=
  if String.eqb source triangle then Some (VList [ring]) else Sample.loads source.

#[export] Instance library : Library := {|
  slugify := Normalizer.slugify;
  json_loads := loads;
  geom := value;
  Point := fun coords =>
    Return (VDict [("type", VStr "Point"); ("coordinates", VList coords)]);
  Polygon := fun shell holes =>
    Return (VDict [("type", VStr "Polygon");
                   ("coordinates", VList (shell :: default [] holes))]);
  geom_bool := fun _ => true;
  geo_interface := fun g => g;
  parse := Sample.parse_iso
|}.

End Shapes.

(** The [osc:years] a collection records, as the list it is. *)
Definition recorded_years (c : Collection) : option (list Z) :=
  match extra_fields c !! "osc:years" with
  | Some v => match as_years v with Return l => Some l | Raise _ => None end
  | None => None
  end.

(** The year the statistics take from an item: that of its
    [start_datetime], when the item has one. *)
Definition start_year `{Library} (it : Item) : option Z :=
  match properties it !! "start_datetime" with
  | Some (VStr start) =>
      if Py.truthy (Some start) then
        match parse start with
        | Return d => Some (year d)
        | Raise _ => None
        end
      else None
  | _ => None
  end.

(** What [summarize_variable] leaves on the variable it is run on, with
    the items looked up in [s0]. *)
Definition variable_summarized `{Library} (s0 : state) (c : Collection) : Prop :=
  number_of_products c = Some (Z.of_nat (length (get_items c)))
  /\ exists ys, recorded_years c = Some ys
                /\ StronglySorted Z.lt ys
                /\ forall y, y ∈ ys <->
                     exists r it, r ∈ get_items c /\ lookup_item r s0 = Some it
                                  /\ start_year it = Some y.

(** The [osc:years] recorded on the object behind [r]. *)
Definition years_of (s : state) (r : ref) : option (list Z) :=
  lookup_collection r s ≫= recorded_years.

(** An integer field of a collection. *)
Definition int_field (k : string) (c : Collection) : option Z :=
  match extra_fields c !! k with
  | Some (VInt n) => Some n
  | _ => None
  end.

(** What [summarize_theme] leaves on the theme it is run on, with the
    sub-collections looked up in [s0]. *)
Definition theme_summarized (s0 : state) (c : Collection) : Prop :=
  int_field "osc:numberOfVariables" c = Some (Z.of_nat (length (get_collections c)))
  /\ int_field "osc:numberOfProjects" c
     = Some (match get_items c with
             | [] => Z.of_nat (length (get_collections c))
             | _ => Z.of_nat (length (get_items c))
             end)
  /\ exists ys, recorded_years c = Some ys
                /\ StronglySorted Z.lt ys
                /\ forall y, y ∈ ys <->
                     exists r ysr, r ∈ get_collections c
                                   /\ years_of s0 r = Some ysr /\ y ∈ ysr.

(** The integer the catalogue records under [k]. *)
Definition catalog_field (k : string) (s : state) : option Z :=
  catalog s ≫= int_field k.

(** The integer the object behind [r] records under [k]. *)
Definition field_of (k : string) (s : state) (r : ref) : option Z :=
  lookup_collection r s ≫= int_field k.

(** What [summarize_catalog] leaves on the catalogue, from the themes as
    they are in [s]. *)
Definition catalog_summarized (s : state) : Prop :=
  catalog_field "osc:numberOfThemes" s
  = Some (Z.of_nat (length (theme_collections s)))
  /\ (exists ns, Forall2 (fun c k => int_field "osc:numberOfProducts" c = Some k)
                         (theme_collections s) ns
                 /\ catalog_field "osc:numberOfProducts" s = Some (sum_Z ns))
  /\ (exists vs, Forall2 (fun c k => int_field "osc:numberOfVariables" c = Some k)
                         (theme_collections s) vs
                 /\ catalog_field "osc:numberOfVariables" s = Some (sum_Z vs))
  /\ exists ys, catalog s ≫= recorded_years = Some ys
                /\ StronglySorted Z.lt ys
                /\ forall y, y ∈ ys <->
                     exists c ysc, c ∈ theme_collections s
                                   /\ recorded_years c = Some ysc /\ y ∈ ysc.


(** * Properties *)

(** ** The date parser *)

Lemma new_datetime_first_of_month y m :
  1 <= y <= 9999 -> 1 <= m <= 12 ->
  new_datetime y m 1 = Return (mk_datetime y m 1 0 0 0).
Proof.
  intros Hy Hm. unfold new_datetime, fits_c_int.
  assert (Hd : 1 <= days_in_month y m).
  { unfold days_in_month.
    destruct (m =? 2), (is_leap y), ((m =? 4) || (m =? 6) || (m =? 9) || (m =? 11)); lia. }
  repeat (rewrite (proj2 (Z.leb_le _ _)) by lia). reflexivity.
Qed.

Lemma new_datetime_Return y m d dt :
  new_datetime y m d = Return dt ->
  1 <= y <= 9999 /\ 1 <= m <= 12 /\ dt = mk_datetime y m d 0 0 0.
Proof.
  unfold new_datetime. case_match eqn:E0; [discriminate|].
  case_match eqn:E; [|discriminate].
  intros [= <-].
  repeat match goal with
         | H : _ && _ = true |- _ => apply andb_prop in H as [? ?]
         | H : (_ <=? _) = true |- _ => apply Z.leb_le in H
         end.
  repeat split; auto; lia.
Qed.

Lemma new_datetime_bad_month y m d :
  12 < m ->
  new_datetime y m d
  = Raise (if fits_c_int y && fits_c_int m && fits_c_int d
           then ValueError else OverflowError).
Proof.
  intros Hm. unfold new_datetime.
  destruct (fits_c_int y && fits_c_int m && fits_c_int d); [|reflexivity].
  replace (m <=? 12) with false by (symmetry; apply Z.leb_gt; lia).
  rewrite !andb_false_r. reflexivity.
Qed.

(** What [parse_date] does on a non-empty string, by cases on its parts. *)
Lemma parse_date_parts source y m :
  Py.split "." source = [y; m] ->
  parse_date (Some source) =
    match Py.int y, Py.int m with
    | Some y', Some m' => obind (new_datetime y' (m' + 1) 1) (fun d => Return (Some d))
    | _, _ => Raise ValueError
    end.
Proof.
  intros Hs. destruct source as [|a source].
  - simpl in Hs. discriminate.
  - unfold parse_date. rewrite Hs. repeat case_match; reflexivity.
Qed.

Lemma parse_date_month_beyond_range source :
  month_beyond_range source ->
  exists e, parse_date (Some source) = Raise e
            /\ (e = ValueError \/ e = OverflowError).
Proof.
  intros (y & m & m' & Hs & Hm & Hle).
  rewrite (parse_date_parts _ _ _ Hs), Hm.
  destruct (Py.int y) as [y'|]; [|eauto].
  rewrite new_datetime_bad_month by lia. simpl.
  destruct (fits_c_int y' && fits_c_int (m' + 1) && fits_c_int 1); eauto.
Qed.

Lemma parse_date_Return source d :
  parse_date (Some source) = Return (Some d) ->
  exists y m y' m',
    Py.split "." source = [y; m] /\ Py.int y = Some y' /\ Py.int m = Some m' /\
    1 <= y' <= 9999 /\ 0 <= m' <= 11 /\ d = mk_datetime y' (m' + 1) 1 0 0 0.
Proof.
  destruct source as [|a source]; [discriminate|].
  unfold parse_date.
  destruct (Py.split "." (String a source)) as [|y [|m [|? ?]]] eqn:Hs; try discriminate.
  destruct (Py.int y) as [y'|] eqn:Hy; [|discriminate].
  destruct (Py.int m) as [m'|] eqn:Hm; [|discriminate].
  destruct (new_datetime y' (m' + 1) 1) as [dt|] eqn:Hd; [|discriminate].
  simpl. intros [= <-].
  apply new_datetime_Return in Hd as (? & ? & ->).
  exists y, m, y', m'. repeat split; auto; lia.
Qed.

(** ** Reasoning about [M] *)

Lemma bind_unfold {A B} (m : M A) (k : A -> M B) s :
  (m ≫= k) s =
  match m s with
  | (Return a, s') => k a s'
  | (Raise e, s') => (Raise e, s')
  end.
Proof. reflexivity. Qed.

Lemma bind_Return_inv {A B} (m : M A) (k : A -> M B) s b s' :
  (m ≫= k) s = (Return b, s') ->
  exists a s1, m s = (Return a, s1) /\ k a s1 = (Return b, s').
Proof.
  rewrite bind_unfold. destruct (m s) as [[a|e] s1]; [eauto|discriminate].
Qed.

Lemma bind_Raise_l {A B} (m : M A) (k : A -> M B) s e s' :
  m s = (Raise e, s') -> (m ≫= k) s = (Raise e, s').
Proof. intros E. rewrite bind_unfold, E. reflexivity. Qed.

Lemma bind_Return_l {A B} (m : M A) (k : A -> M B) s a s1 :
  m s = (Return a, s1) -> (m ≫= k) s = k a s1.
Proof. intros E. rewrite bind_unfold, E. reflexivity. Qed.

Lemma aborts_bind_l {A B} (m : M A) (k : A -> M B) s :
  aborts m s -> aborts (m ≫= k) s.
Proof.
  unfold aborts. rewrite bind_unfold. destruct (m s) as [[a|e] s1]; simpl; tauto.
Qed.

Lemma aborts_bind_r {A B} (m : M A) (k : A -> M B) s :
  (forall a s1, m s = (Return a, s1) -> aborts (k a) s1) -> aborts (m ≫= k) s.
Proof.
  unfold aborts. rewrite bind_unfold. intros Hk.
  destruct (m s) as [[a|e] s1] eqn:E; simpl; [eauto|tauto].
Qed.

Section Preserves.
Context {B : Type} (proj : state -> B).

Lemma preserves_ret {A} (a : A) : preserves proj (mret a).
Proof. intros s. reflexivity. Qed.

Lemma preserves_throw {A} e : preserves proj (@throw A e).
Proof. intros s. reflexivity. Qed.

Lemma preserves_lift {A} (o : outcome A) : preserves proj (lift o).
Proof. intros s. reflexivity. Qed.

Lemma preserves_get_state : preserves proj get_state.
Proof. intros s. reflexivity. Qed.

Lemma preserves_deref r : preserves proj (deref r).
Proof. intros s. unfold deref. destruct (lookup_collection r s); reflexivity. Qed.

Lemma preserves_deref_item r : preserves proj (deref_item r).
Proof. intros s. unfold deref_item. destruct (lookup_item r s); reflexivity. Qed.

Lemma preserves_modify f :
    (forall s, proj (f s) = proj s) -> preserves proj (modify f).
Proof. intros Hf s. apply Hf. Qed.

Lemma preserves_bind {A C} (m : M A) (k : A -> M C) :
    preserves proj m -> (forall a, preserves proj (k a)) -> preserves proj (m ≫= k).
Proof.
    intros Hm Hk s. rewrite bind_unfold. specialize (Hm s).
    destruct (m s) as [[a|e] s1]; simpl in *; [|done].
    rewrite Hk. done.
Qed.

Lemma preserves_for_ {A} (l : list A) body :
    (forall x, preserves proj (body x)) -> preserves proj (for_ l body).
Proof.
    intros Hb. induction l as [|x l IH]; simpl.
    - apply preserves_ret.
    - apply preserves_bind; auto.
Qed.

Lemma preserves_for_fold {A C} (l : list A) (acc : C) body :
    (forall acc x, preserves proj (body acc x)) -> preserves proj (for_fold l acc body).
Proof.
    intros Hb. revert acc. induction l as [|x l IH]; intros acc; simpl.
    - apply preserves_ret.
    - apply preserves_bind; auto.
Qed.

Lemma preserves_for_list {A C} (l : list A) (f : A -> M C) :
    (forall x, preserves proj (f x)) -> preserves proj (for_list l f).
Proof.
    intros Hb. induction l as [|x l IH]; simpl.
    - apply preserves_ret.
    - apply preserves_bind; auto. intros y. apply preserves_bind; auto.
      intros ys. apply preserves_ret.
Qed.

Lemma preserves_update r f :
    (forall c s, proj (store_collection r c s) = proj s) -> preserves proj (update r f).
Proof.
    intros Hs. apply preserves_bind; [apply preserves_deref|].
    intros c. apply preserves_modify. apply Hs.
Qed.

Lemma preserves_col obj c : preserves proj (col obj c).
Proof. unfold col. destruct (obj !! c); [apply preserves_ret|apply preserves_throw]. Qed.

End Preserves.

(** The operations on the file system touch [fs] and [cwd] only. *)
Lemma preserves_mkdir_at {B} (proj : state -> B) name start comps :
  (forall v s, proj (set_fs v s) = proj s) ->
  preserves proj (mkdir_at name start comps).
Proof.
  intros Hp s. unfold mkdir_at. destruct (walk _ _ _ _); [|done].
  destruct (entry _ _); simpl; [done|apply Hp].
Qed.

Lemma preserves_ignore_FileExistsError {B} (proj : state -> B) m :
  preserves proj m -> preserves proj (ignore_FileExistsError m).
Proof.
  intros Hm s. unfold ignore_FileExistsError. specialize (Hm s).
  destruct (m s) as [[|[]] s']; exact Hm.
Qed.

Lemma preserves_makedirs_rev {B} (proj : state -> B) name start r :
  (forall v s, proj (set_fs v s) = proj s) ->
  preserves proj (makedirs_rev name start r).
Proof.
  intros Hp. induction r as [|tail rest IH]; simpl.
  - by apply preserves_mkdir_at.
  - destruct (String.eqb tail EmptyString); [done|].
    apply preserves_bind.
    + destruct rest as [|h rest']; [apply preserves_ret|].
      intros s. destruct (exists_at _ _ _ _); [done|].
      apply (preserves_bind proj _ _
               (preserves_ignore_FileExistsError proj _ IH)
               (fun _ => preserves_ret proj _) s).
    + intros [|]; [apply preserves_ret|by apply preserves_mkdir_at].
Qed.

Lemma preserves_makedirs {B} (proj : state -> B) name :
  (forall v s, proj (set_fs v s) = proj s) -> preserves proj (makedirs name).
Proof.
  intros Hp s. unfold makedirs. destruct name; [done|].
  by apply preserves_makedirs_rev.
Qed.

Lemma preserves_chdir {B} (proj : state -> B) name :
  (forall v s, proj (set_cwd v s) = proj s) -> preserves proj (chdir name).
Proof.
  intros Hp s. unfold chdir. destruct (resolve _ _); [|done].
  destruct (entry _ _) as [[]|]; simpl; first [done|apply Hp].
Qed.

Lemma preserves_write_file {B} (proj : state -> B) name content :
  (forall v s, proj (set_fs v s) = proj s) ->
  preserves proj (write_file name content).
Proof.
  intros Hp s. unfold write_file. destruct (resolve _ _); [|done].
  destruct (entry _ _) as [[]|]; simpl; first [done|apply Hp].
Qed.

Lemma preserves_write_text_to_href {B} (proj : state -> B) href content :
  (forall v s, proj (set_fs v s) = proj s) ->
  preserves proj (write_text_to_href href content).
Proof.
  intros Hp. unfold write_text_to_href. apply preserves_bind.
  - destruct (removelast _) as [|c0 dir]; [apply preserves_ret|].
    intros s. destruct (isdir_at _ _ _ _); [done|].
    by apply preserves_makedirs_rev.
  - intros _. by apply preserves_write_file.
Qed.

(** One step of a proof that a computation preserves a component: the
    structural rules, then the shape of the computation. *)
Ltac preserves_step :=
  lazymatch goal with
  | |- preserves _ (mret _) => apply preserves_ret
  | |- preserves _ (throw _) => apply preserves_throw
  | |- preserves _ (lift _) => apply preserves_lift
  | |- preserves _ get_state => apply preserves_get_state
  | |- preserves _ (deref _) => apply preserves_deref
  | |- preserves _ (deref_item _) => apply preserves_deref_item
  | |- preserves _ (col _ _) => apply preserves_col
  | |- preserves _ (_ ≫= _) => apply preserves_bind; [|intros ?]
  | |- preserves _ (for_ _ _) => apply preserves_for_; intros ?
  | |- preserves _ (for_fold _ _ _) => apply preserves_for_fold; intros ? ?
  | |- preserves _ (for_list _ _) => apply preserves_for_list; intros ?
  | |- preserves _ (match ?x with _ => _ end) => destruct x
  end.

Create HintDb script.
#[local] Hint Unfold print add_child add_item via get_themes get_geometry
  date_or_none isoformat_or_none product_to_item project_to_item
  theme_to_collection variable_to_collection build_nodes place_variables
  place_products place_projects add_children summarize_variable
  summarize_theme summarize_catalog aggregate variable_metrics theme_metrics
  build_metrics build : script.

Lemma preserves_get_href {B} (proj : state -> B) `{Library} l :
  preserves proj (get_href l).
Proof.
  unfold get_href. destruct (target l); [apply preserves_ret|].
  intros s. destruct (lookup_collection r s), (lookup_item r s); reflexivity.
Qed.

Ltac preserves_files :=
  repeat first
    [ progress (autounfold with script; cbv zeta beta)
    | refine (preserves_get_href _ _)
    | preserves_step
    | apply preserves_modify; intros ?; reflexivity
    | apply preserves_write_file; intros ? ?; reflexivity
    | apply preserves_write_text_to_href; intros ? ?; reflexivity
    | apply preserves_update; intros ? ?;
      first [ reflexivity
            | lazymatch goal with
              | |- context [store_collection ?r _ _] => destruct r
              end; reflexivity ]
    | match goal with
      | |- preserves _ ?m =>
          match m with
          | context [match ?a with _ => _ end] => is_var a; destruct a
          end
      end ].

Lemma build_preserves_files `{Library} variables themes projects products :
  preserves files (build variables themes projects products).
Proof. preserves_files. Qed.

Lemma for_list_aborts {A B} (f : A -> M B) (l : list A) x :
  x ∈ l -> (forall s, aborts (f x) s) -> forall s, aborts (for_list l f) s.
Proof.
  intros Hin Hx. induction l as [|y l IH]; intros s.
  - inversion Hin.
  - simpl. apply elem_of_cons in Hin as [-> | Hin].
    + apply aborts_bind_l, Hx.
    + apply aborts_bind_r. intros b s1 _. apply aborts_bind_l, IH, Hin.
Qed.

Lemma month_beyond_range_nonempty source :
  month_beyond_range source -> Py.truthy (Some source) = true.
Proof.
  intros (y & m & m' & Hs & _). destruct source; [discriminate|reflexivity].
Qed.

Lemma col_Some obj c v s : obj !! c = Some v -> col obj c s = (Return v, s).
Proof. intros E. unfold col. rewrite E. reflexivity. Qed.

Lemma isoformat_or_none_aborts `{Library} obj c source s :
  obj !! c = Some source -> month_beyond_range source ->
  aborts (isoformat_or_none obj c) s.
Proof.
  intros Hc Hbad. unfold aborts, isoformat_or_none.
  rewrite (bind_Return_l _ _ _ _ _ (col_Some _ _ _ s Hc)).
  rewrite (month_beyond_range_nonempty _ Hbad).
  rewrite (bind_Return_l _ _ _ _ _ (col_Some _ _ _ s Hc)).
  rewrite bind_unfold. unfold lift.
  destruct (parse_date_month_beyond_range _ Hbad) as (e & -> & _). exact I.
Qed.

Lemma product_to_item_aborts `{Library} obj c source s :
  c = "Start" \/ c = "End" ->
  obj !! c = Some source -> month_beyond_range source ->
  aborts (product_to_item obj) s.
Proof.
  intros [-> | ->] Hc Hbad; unfold product_to_item.
  - apply aborts_bind_l. eapply isoformat_or_none_aborts; eauto.
  - apply aborts_bind_r. intros ? ? _.
    apply aborts_bind_l. eapply isoformat_or_none_aborts; eauto.
Qed.

Lemma build_aborts_on_product `{Library} variables themes projects products obj s :
  obj ∈ products -> (forall s', aborts (product_to_item obj) s') ->
  aborts (build variables themes projects products) s.
Proof.
  intros Hin Hbad. unfold build. apply aborts_bind_l. unfold build_nodes.
  do 5 (apply aborts_bind_r; intros ? ? _).
  apply aborts_bind_l. eapply for_list_aborts; eauto.
Qed.

Lemma main_aborts_in_build `{Library} variables themes projects products out_dir s :
  aborts (build variables themes projects products) s ->
  aborts (main variables themes projects products out_dir) s /\
  fs (main variables themes projects products out_dir s).2 = fs s.
Proof.
  intros Hb. split; [apply aborts_bind_l, Hb|].
  pose proof (build_preserves_files variables themes projects products s) as Hf.
  unfold main. rewrite bind_unfold. unfold aborts in Hb.
  destruct (build variables themes projects products s) as [[m|e] s1];
    simpl in *; [tauto|].
  unfold files in Hf. congruence.
Qed.

(** ** Claims about the date parser *)

(** C3, as stated, fails: a December date ["2019.12"] is a non-empty
    Year.Month string, and the parser raises on it instead of returning a
    date. *)
Lemma parse_date_december_counterexample :
  ~ (exists d, parse_date (Some "2019.12") = Return (Some d)
               /\ year d = 2019 /\ month d = 12 + 1 /\ day d = 1).
Proof. intros (d & Hd & _). vm_compute in Hd. discriminate. Qed.

(** C3, amended: for a Year.Month string whose year reads as 1..9999 and
    whose month reads as 0..11, the parser returns the first day of the
    month numbered one higher in the same year (["2019.03"] gives April 1,
    2019 and ["2020.07"] gives August 1, 2020); the empty string and an
    absent string give an absent date. *)
Theorem parse_date_month_plus_one source y m y' m' :
  Py.split "." source = [y; m] ->
  Py.int y = Some y' -> Py.int m = Some m' ->
  1 <= y' <= 9999 -> 0 <= m' <= 11 ->
  parse_date (Some source) = Return (Some (mk_datetime y' (m' + 1) 1 0 0 0))
  /\ parse_date (Some "2019.03") = Return (Some (mk_datetime 2019 4 1 0 0 0))
  /\ parse_date (Some "2020.07") = Return (Some (mk_datetime 2020 8 1 0 0 0))
  /\ parse_date (Some EmptyString) = Return None
  /\ parse_date None = Return None.
Proof.
  intros Hs Hy Hm Hyr Hmr. repeat split; try reflexivity.
  rewrite (parse_date_parts _ _ _ Hs), Hy, Hm.
  rewrite new_datetime_first_of_month by lia. reflexivity.
Qed.

Lemma parse_date_month_plus_one_witness :
  parse_date (Some "2021.00") = Return (Some (mk_datetime 2021 1 1 0 0 0)).
Proof.
  refine (proj1 (parse_date_month_plus_one "2021.00" "2021" "00" 2021 0 _ _ _ _ _));
    first [reflexivity | lia].
Defined.

(** C10: the parser returns a date only when the month part reads as an
    integer from 0 to 11; when it reads as 12 or more the parser raises
    (month plus one is handed to [datetime], which raises [ValueError], or
    [OverflowError] when an argument is too large for it), the product
    builder raises on a row with such a Start or End, and a run over a
    products file with such a row aborts, leaving the file system as it
    was. *)
Theorem parse_date_month_twelve_aborts `{Library} source :
  month_beyond_range source ->
  (exists e, parse_date (Some source) = Raise e
             /\ (e = ValueError \/ e = OverflowError))
  /\ (forall obj c s,
        c = "Start" \/ c = "End" -> obj !! c = Some source ->
        aborts (product_to_item obj) s)
  /\ (forall variables themes projects products out_dir obj c s,
        obj ∈ products -> c = "Start" \/ c = "End" -> obj !! c = Some source ->
        aborts (main variables themes projects products out_dir) s
        /\ fs (main variables themes projects products out_dir s).2 = fs s)
  /\ (forall src d,
        parse_date (Some src) = Return (Some d) ->
        exists y m m', Py.split "." src = [y; m] /\ Py.int m = Some m'
                       /\ 0 <= m' <= 11 /\ month d = m' + 1).
Proof.
  intros Hbad. split; [|split; [|split]].
  - apply parse_date_month_beyond_range, Hbad.
  - intros obj c s Hc Hobj. eapply product_to_item_aborts; eauto.
  - intros variables themes projects products out_dir obj c s Hin Hc Hobj.
    apply main_aborts_in_build. eapply build_aborts_on_product; [done|].
    intros s'. eapply product_to_item_aborts; eauto.
  - intros src d Hd.
    apply parse_date_Return in Hd as (y & m & y' & m' & Hs & _ & Hm & _ & Hr & ->).
    exists y, m, m'. simpl. auto.
Qed.

Lemma parse_date_month_twelve_aborts_witness :
  raises (parse_date (Some "2019.12"))
  /\ raises (parse_date (Some "2019.99999999999999999999")).
Proof.
  split.
  - destruct (proj1 (parse_date_month_twelve_aborts (H := Sample.library) "2019.12"
                       ltac:(exists "2019", "12", 12;
                             repeat split; first [reflexivity | lia])))
      as (e & -> & _). exact I.
  - destruct (proj1 (parse_date_month_twelve_aborts (H := Sample.library)
                       "2019.99999999999999999999"
                       ltac:(exists "2019", "99999999999999999999",
                                    99999999999999999999;
                             repeat split; first [reflexivity | lia])))
      as (e & -> & _). exact I.
Defined.

(** ** The output directory *)

Lemma step_Return name s cur c p :
  step name s cur c = Return p -> entry s cur = Some Directory.
Proof. unfold step. by destruct (entry s cur) as [[]|]. Qed.

Lemma step_empty name s cur p :
  step name s cur EmptyString = Return p -> p = cur.
Proof.
  unfold step. destruct (entry s cur) as [[]|]; try discriminate.
  simpl. by intros [= <-].
Qed.

Lemma walk_snoc name s cur comps c :
  walk name s cur (comps ++ [c])
  = obind (walk name s cur comps) (fun q => step name s q c).
Proof.
  revert cur. induction comps as [|c' comps IH]; intros cur; simpl.
  - by destruct (step name s cur c).
  - destruct (step name s cur c'); simpl; [apply IH|done].
Qed.

(** The slashes that end a path string make no difference to where it
    leads, when it leads somewhere. *)
Lemma walk_rstrip_slashes name s cur comps q :
  walk name s cur comps = Return q ->
  walk name s cur (rstrip_slashes comps) = Return q.
Proof.
  revert cur. induction comps as [|c comps IH]; intros cur; simpl; [done|].
  destruct (step name s cur c) as [p1|] eqn:Hs; simpl; [|done].
  intros Hw. specialize (IH _ Hw).
  destruct (rstrip_slashes comps) as [|c1 r].
  - simpl in IH. injection IH as <-.
    destruct (String.eqb_spec c EmptyString) as [->|Hne]; simpl.
    + apply step_empty in Hs. by subst.
    + by rewrite Hs.
  - simpl. rewrite Hs. simpl. exact IH.
Qed.

(** What is at a path and where a string leads depend on the file system
    and the working directory only. *)
Lemma walk_files name s s' cur comps :
  fs s' = fs s -> walk name s' cur comps = walk name s cur comps.
Proof.
  intros Hfs. revert cur. induction comps as [|c comps IH]; intros cur; [done|].
  simpl. unfold step, entry. rewrite Hfs.
  destruct (match cur with [] => _ | _ :: _ => _ end) as [[]|]; try done;
    repeat case_match; simpl; auto.
Qed.

Lemma path_exists_files name s s' :
  files s' = files s -> path_exists name s' = path_exists name s.
Proof.
  unfold files. intros [= Hfs Hcwd]. unfold path_exists, exists_at, start_of.
  destruct name; [done|]. rewrite Hcwd, (walk_files _ _ _ _ _ Hfs).
  unfold entry. by rewrite Hfs.
Qed.

(** [os.makedirs] on components that lead to something raises, and makes
    nothing. *)
Lemma makedirs_rev_existing name s start r p f :
  walk name s start (reverse r) = Return p -> entry s p = Some f ->
  exists e, makedirs_rev name start r s = (Raise e, s).
Proof.
  assert (Hmk : forall comps, walk name s start comps = Return p ->
                  entry s p = Some f ->
                  exists e, mkdir_at name start comps s = (Raise e, s)).
  { intros comps Hw Hp. unfold mkdir_at. rewrite Hw, Hp. eauto. }
  revert p f Hmk. induction r as [|tail rest IH]; intros p f Hmk Hw Hp.
  - simpl. by apply Hmk.
  - pose proof Hw as Hw'. rewrite reverse_cons, walk_snoc in Hw'.
    destruct (walk name s start (reverse rest)) as [q|] eqn:Hq; [|done].
    simpl in Hw'. simpl.
    destruct (String.eqb_spec tail EmptyString) as [->|Hne].
    + apply step_empty in Hw' as ->. apply (IH q f); [|done..].
      intros comps Hc Hf. unfold mkdir_at. rewrite Hc, Hf. eauto.
    + rewrite bind_unfold. destruct rest as [|h rest'].
      * simpl. by apply Hmk.
      * unfold exists_at. rewrite (walk_rstrip_slashes _ _ _ _ _ Hq).
        rewrite (step_Return _ _ _ _ _ Hw'). simpl. by apply Hmk.
Qed.

Lemma makedirs_existing_path out_dir s :
  path_exists out_dir s = true ->
  exists e, makedirs out_dir s = (Raise e, s).
Proof.
  unfold path_exists, makedirs, exists_at.
  destruct out_dir as [|a out_dir]; [done|].
  destruct (walk _ _ _ _) as [p|] eqn:Hw; [|done].
  destruct (entry s p) as [f|] eqn:Hp; [|done]. intros _.
  apply (makedirs_rev_existing _ _ _ _ p f); [|done].
  by rewrite reverse_involutive.
Qed.

Lemma save_existing_path `{Library} metrics out_dir s :
  path_exists out_dir s = true ->
  exists e, save metrics out_dir s = (Raise e, s).
Proof.
  intros Hentry. destruct (makedirs_existing_path _ _ Hentry) as [e He].
  exists e. unfold save. apply bind_Raise_l, He.
Qed.

(** C8: when the output directory path leads to something that is there
    already (a directory, empty or not, or a file), however the path is
    spelled, the run raises and the file system is what it was: neither
    [metrics.json] nor any node file has been written. *)
Theorem existing_output_directory_fails `{Library}
    variables themes projects products out_dir s :
  path_exists out_dir s = true ->
  aborts (main variables themes projects products out_dir) s
  /\ fs (main variables themes projects products out_dir s).2 = fs s.
Proof.
  intros Hentry.
  pose proof (build_preserves_files variables themes projects products s) as Hf.
  unfold main, aborts. rewrite bind_unfold.
  destruct (build variables themes projects products s) as [[m|e] s1];
    simpl in *; [|unfold files in Hf; split; [exact I|congruence]].
  rewrite <- (path_exists_files _ _ _ Hf) in Hentry.
  destruct (save_existing_path m out_dir s1 Hentry) as [e ->].
  unfold files in Hf. simpl. split; [exact I|congruence].
Qed.

Lemma existing_output_directory_fails_witness :
  aborts (main (H := Sample.library)
               Sample.variables Sample.themes Sample.projects Sample.products "dist")
         (initial_state Defects.dist_with_a_file)
  /\ aborts (main (H := Sample.library)
                Sample.variables Sample.themes Sample.projects Sample.products "dist/")
            (initial_state Defects.dist_with_a_file)
  /\ aborts (main (H := Sample.library)
                Sample.variables Sample.themes Sample.projects Sample.products "./dist")
            (initial_state Defects.dist_with_a_file).
Proof.
  split; [|split].
  - refine (proj1 (existing_output_directory_fails _ _ _ _ "dist" _ _)).
    vm_compute. reflexivity.
  - refine (proj1 (existing_output_directory_fails _ _ _ _ "dist/" _ _)).
    vm_compute. reflexivity.
  - refine (proj1 (existing_output_directory_fails _ _ _ _ "./dist" _ _)).
    vm_compute. reflexivity.
Defined.

(** ** The geometry parser *)

Lemma get_depth_empty_list : get_depth (VList []) = Raise IndexError.
Proof. reflexivity. Qed.

(** An absent or empty string, and the unsupported prefix, give no geometry. *)
Lemma get_geometry_absent `{Library} s :
  get_geometry None s = (Return None, s)
  /\ get_geometry (Some EmptyString) s = (Return None, s).
Proof. split; reflexivity. Qed.

Lemma get_geometry_multipolygon `{Library} source s :
  Py.startswith source "Multipolygon" = true ->
  get_geometry (Some source) s = (Return None, s).
Proof.
  intros Hp. unfold get_geometry. destruct source; [reflexivity|].
  rewrite Hp. reflexivity.
Qed.

(** A string that is not JSON is printed and gives no geometry. *)
Lemma get_geometry_not_json `{Library} source s :
  source <> EmptyString ->
  Py.startswith source "Multipolygon" = false ->
  json_loads source = None ->
  get_geometry (Some source) s
  = (Return None, set_stdout (stdout s ++ [source]) s).
Proof.
  intros Hne Hp Hj. unfold get_geometry. destruct source; [done|].
  rewrite Hp, Hj. reflexivity.
Qed.

(** A decoded value of a depth other than 1 and 3 gives no geometry. *)
Lemma get_geometry_other_depth `{Library} source raw_geom depth s :
  source <> EmptyString ->
  Py.startswith source "Multipolygon" = false ->
  json_loads source = Some raw_geom ->
  get_depth raw_geom = Return depth -> depth <> 1 -> depth <> 3 ->
  get_geometry (Some source) s = (Return None, s).
Proof.
  intros Hne Hp Hj Hd H1 H3. unfold get_geometry. destruct source; [done|].
  rewrite Hp, Hj. rewrite bind_unfold. unfold lift. rewrite Hd.
  destruct (Z.eqb_spec depth 1); [done|].
  destruct (Z.eqb_spec depth 3); [done|]. reflexivity.
Qed.

(** C5 fails on the code: the JSON text ["[]"] decodes to the empty list,
    [get_depth] indexes its first element, and the [IndexError] leaves
    [get_geometry] (only [ValueError] from the decoder is caught). *)
Theorem get_geometry_empty_array_raises `{Library} s :
  json_loads "[]" = Some (VList []) ->
  get_geometry (Some "[]") s = (Raise IndexError, s).
Proof.
  intros Hj. unfold get_geometry. simpl. rewrite Hj. reflexivity.
Qed.

Lemma get_geometry_empty_array_raises_witness :
  get_geometry (H := Sample.library) (Some "[]") (initial_state ∅)
  = (Raise IndexError, initial_state ∅).
Proof.
  apply (get_geometry_empty_array_raises (H := Sample.library)). reflexivity.
Defined.

(** ** The reference normalizer *)

Lemma lower_char_isalnum a : Py.isalnum (Py.lower_char a) = Py.isalnum a.
Proof. destruct a as [[] [] [] [] [] [] [] []]; reflexivity. Qed.

Lemma lower_char_idempotent a : Py.lower_char (Py.lower_char a) = Py.lower_char a.
Proof. destruct a as [[] [] [] [] [] [] [] []]; reflexivity. Qed.

Lemma lower_idempotent s : Py.lower (Py.lower s) = Py.lower s.
Proof.
  induction s as [|a s IH]; simpl; [reflexivity|].
  rewrite lower_char_idempotent, IH. reflexivity.
Qed.

(** Lower-casing commutes with collapsing: it keeps a character
    alphanumeric or not, and leaves the separator alone. *)
Lemma lower_collapse_runs b s :
  Py.lower (Normalizer.collapse_runs b s) = Normalizer.collapse_runs b (Py.lower s).
Proof.
  revert b. induction s as [|a s IH]; intros b; simpl; [reflexivity|].
  rewrite lower_char_isalnum.
  destruct (Py.isalnum a); simpl; [rewrite IH; reflexivity|].
  destruct b; simpl; rewrite IH; reflexivity.
Qed.

(** Collapsing what has been collapsed changes nothing, also when the
    second pass starts inside a run, provided the first did. *)
Lemma collapse_runs_collapse_runs b b' s :
  (b' = true -> b = true) ->
  Normalizer.collapse_runs b' (Normalizer.collapse_runs b s)
  = Normalizer.collapse_runs b s.
Proof.
  revert b b'. induction s as [|a s IH]; intros b b' Hb; simpl; [reflexivity|].
  destruct (Py.isalnum a) eqn:Ha; simpl.
  - rewrite Ha. rewrite IH by done. reflexivity.
  - destruct b; simpl.
    + apply IH. done.
    + destruct b'; [specialize (Hb eq_refl); discriminate|].
      rewrite IH by done. reflexivity.
Qed.

(** C7: normalizing twice is normalizing once. *)
Theorem slugify_idempotent x :
  Normalizer.slugify (Normalizer.slugify x) = Normalizer.slugify x.
Proof.
  unfold Normalizer.slugify.
  rewrite lower_collapse_runs, lower_idempotent.
  apply collapse_runs_collapse_runs. done.
Qed.

(** ** Two runs that show defects *)

(** C1 fails on the code.  After the diagnostic the loop body goes on to
    [variable_coll.add_item(item)] with whatever [variable_coll] held: the
    product with the unknown variable "Sea Ice" ends up among the items of
    "Soil Moisture", the variable of the row before it; when no row before
    it resolved, the name is unbound and the run aborts. *)
Theorem unresolved_product_is_attached_or_aborts :
  Defects.run_unknown_variable.1 = Return tt
  /\ stdout Defects.run_unknown_variable.2 = ["Missing variable Sea Ice"]
  /\ get_items <$> variable_collections Defects.run_unknown_variable.2
     = [[RProduct 0; RProduct 1]]
  /\ Defects.run_unknown_variable_first.1 = Raise (UnboundLocalError "variable_coll")
  /\ stdout Defects.run_unknown_variable_first.2 = ["Missing variable Sea Ice"].
Proof. vm_compute. repeat split. Qed.

(** C2 fails on the code.  The counter [i] still holds the number of
    variables when the loop over the theme's items does not run: "Climate"
    has one variable and no project, and records one project. *)
Theorem theme_without_projects_records_variable_count :
  Defects.run_without_projects.1 = Return tt
  /\ (get_items <$> theme_collections Defects.run_without_projects.2) = [[]; []]
  /\ ((fun c => extra_fields c !! "osc:numberOfProjects")
        <$> theme_collections Defects.run_without_projects.2)
     = [Some (VInt 1); Some (VInt 0)]
  /\ ((fun c => extra_fields c !! "osc:numberOfVariables")
        <$> theme_collections Defects.run_without_projects.2)
     = [Some (VInt 1); Some (VInt 0)].
Proof. vm_compute. repeat split. Qed.

(** ** Runs that return: inversion *)

Local Open Scope list_scope.

Lemma ret_inv {A} (a b : A) s s' :
  (mret a : M A) s = (Return b, s') -> b = a /\ s' = s.
Proof. intros [= -> ->]. done. Qed.

Lemma lift_inv {A} (o : outcome A) a s s' :
  lift o s = (Return a, s') -> o = Return a /\ s' = s.
Proof. intros [= -> ->]. done. Qed.

Lemma get_state_inv a s s' : get_state s = (Return a, s') -> a = s /\ s' = s.
Proof. intros [= -> ->]. done. Qed.

Lemma deref_inv r c s s' :
  deref r s = (Return c, s') -> lookup_collection r s = Some c /\ s' = s.
Proof.
  unfold deref. destruct (lookup_collection r s); intros [= -> ->]. done.
Qed.

Lemma deref_item_inv r it s s' :
  deref_item r s = (Return it, s') -> lookup_item r s = Some it /\ s' = s.
Proof.
  unfold deref_item. destruct (lookup_item r s); intros [= -> ->]. done.
Qed.

Lemma modify_inv f u s s' : modify f s = (Return u, s') -> s' = f s.
Proof. intros [= <-]. done. Qed.

Lemma update_inv r f u s s' :
  update r f s = (Return u, s') ->
  exists c, lookup_collection r s = Some c /\ s' = store_collection r (f c) s.
Proof.
  unfold update. intros E. apply bind_Return_inv in E as (c & s1 & E1 & E2).
  apply deref_inv in E1 as [E1 ->]. apply modify_inv in E2. eauto.
Qed.

Lemma col_inv obj c v s s' :
  col obj c s = (Return v, s') -> obj !! c = Some v /\ s' = s.
Proof. unfold col. destruct (obj !! c); intros [= -> ->]. done. Qed.

Lemma obind_inv {A B} (o : outcome A) (k : A -> outcome B) b :
  obind o k = Return b -> exists a, o = Return a /\ k a = Return b.
Proof. destruct o; simpl; [eauto|discriminate]. Qed.

(** Takes apart every hypothesis saying that a composite computation
    returned. *)
Ltac run_inv :=
  repeat match goal with
  | H : (_ ≫= _) _ = (Return _, _) |- _ =>
      let a := fresh "a" in let s := fresh "s" in let E := fresh "E" in
      apply bind_Return_inv in H as (a & s & E & H)
  | H : (mret _) _ = (Return _, _) |- _ => apply ret_inv in H as [? ?]
  | H : lift _ _ = (Return _, _) |- _ => apply lift_inv in H as [? ?]
  | H : get_state _ = (Return _, _) |- _ => apply get_state_inv in H as [? ?]
  | H : deref _ _ = (Return _, _) |- _ => apply deref_inv in H as [? ?]
  | H : deref_item _ _ = (Return _, _) |- _ => apply deref_item_inv in H as [? ?]
  | H : modify _ _ = (Return _, _) |- _ => apply modify_inv in H
  | H : update _ _ _ = (Return _, _) |- _ =>
      let c := fresh "c" in apply update_inv in H as (c & ? & ?)
  | H : col _ _ _ = (Return _, _) |- _ => apply col_inv in H as [? ?]
  | H : throw _ _ = (Return _, _) |- _ => discriminate H
  | H : obind _ _ = Return _ |- _ =>
      let a := fresh "a" in apply obind_inv in H as (a & ? & H)
  end.

(** A loop invariant over the elements already visited. *)
Lemma for_invariant {A} (I : list A -> state -> Prop) (l : list A) body s s' :
  (forall pre x post s1 s2,
      l = pre ++ x :: post -> I pre s1 ->
      body x s1 = (Return tt, s2) -> I (pre ++ [x]) s2) ->
  I [] s -> for_ l body s = (Return tt, s') -> I l s'.
Proof.
  intros Hbody.
  enough (Hgen : forall post pre s, l = pre ++ post -> I pre s ->
                   for_ post body s = (Return tt, s') -> I l s').
  { intros. eapply (Hgen l []); eauto. }
  induction post as [|x post IH]; intros pre s0 Hl Hpre Hrun; simpl in Hrun.
  - apply ret_inv in Hrun as [_ ->]. rewrite app_nil_r in Hl. by subst.
  - apply bind_Return_inv in Hrun as ([] & s1 & E1 & E2).
    apply (IH (pre ++ [x]) s1); [by rewrite <- app_assoc| |done].
    eapply Hbody; eauto.
Qed.

Lemma for_fold_invariant {A B} (I : list A -> B -> state -> Prop)
      (l : list A) (acc : B) body s acc' s' :
  (forall pre x post b s1 b' s2,
      l = pre ++ x :: post -> I pre b s1 ->
      body b x s1 = (Return b', s2) -> I (pre ++ [x]) b' s2) ->
  I [] acc s -> for_fold l acc body s = (Return acc', s') -> I l acc' s'.
Proof.
  intros Hbody.
  enough (Hgen : forall post pre b s, l = pre ++ post -> I pre b s ->
                   for_fold post b body s = (Return acc', s') -> I l acc' s').
  { intros. eapply (Hgen l []); eauto. }
  induction post as [|x post IH]; intros pre b s0 Hl Hpre Hrun; simpl in Hrun.
  - apply ret_inv in Hrun as [-> ->]. rewrite app_nil_r in Hl. by subst.
  - apply bind_Return_inv in Hrun as (b1 & s1 & E1 & E2).
    apply (IH (pre ++ [x]) b1 s1); [by rewrite <- app_assoc| |done].
    eapply Hbody; eauto.
Qed.

(** Each element of a comprehension that returned was built by a run of
    the builder that returned. *)
Lemma for_list_inv {A B} (f : A -> M B) l ys s s' :
  for_list l f s = (Return ys, s') ->
  Forall2 (fun x y => exists s1 s2, f x s1 = (Return y, s2)) l ys.
Proof.
  revert ys s. induction l as [|x l IH]; intros ys s Hrun; simpl in Hrun.
  - apply ret_inv in Hrun as [-> _]. constructor.
  - run_inv. subst. constructor; eauto.
Qed.


Lemma preserved {A B} (proj : state -> B) (m : M A) s o s' :
  preserves proj m -> m s = (o, s') -> proj s' = proj s.
Proof. intros Hp E. specialize (Hp s). rewrite E in Hp. exact Hp. Qed.

(** ** Links *)

Lemma get_stac_objects_app r l1 l2 :
  get_stac_objects r (l1 ++ l2) = get_stac_objects r l1 ++ get_stac_objects r l2.
Proof. apply omap_app. Qed.

Lemma get_stac_objects_snoc r ls l :
  get_stac_objects r (ls ++ [l])
  = get_stac_objects r ls ++
    match target l with
    | Object o => if decide (rel l = r) then [o] else []
    | Href _ => []
    end.
Proof.
  rewrite get_stac_objects_app. f_equal. unfold get_stac_objects. simpl.
  destruct (target l); [done|]. destruct (decide (rel l = r)); done.
Qed.

Lemma theme_to_collection_inv `{Library} obj c s s' :
  theme_to_collection obj s = (Return c, s') -> theme_built obj c /\ s' = s.
Proof.
  unfold theme_to_collection, via. intros E. run_inv. subst.
  split; [|done]. do 3 eexists. repeat split; eauto.
Qed.

Lemma variable_to_collection_inv `{Library} obj c s s' :
  variable_to_collection obj s = (Return c, s') ->
  (exists l, links c = [l] /\ rel l = VIA) /\ s' = s.
Proof.
  unfold variable_to_collection, via. intros E. run_inv. subst.
  split; [|done]. eexists. split; reflexivity.
Qed.

Lemma builders_preserve_heap `{Library} :
  (forall l, preserves heap (for_list l theme_to_collection))
  /\ (forall l, preserves heap (for_list l variable_to_collection))
  /\ (forall l, preserves heap (for_list l product_to_item))
  /\ (forall l, preserves heap (for_list l project_to_item)).
Proof. repeat split; intros l; preserves_files. Qed.

Lemma Forall2_length_eq {A B} (P : A -> B -> Prop) l k :
  Forall2 P l k -> length k = length l.
Proof. intros HF. symmetry. eapply Forall2_length, HF. Qed.

Lemma Forall2_right {A B} (P : A -> B -> Prop) (Q : B -> Prop) l k :
  Forall2 P l k -> (forall x y, P x y -> Q y) -> Forall Q k.
Proof. induction 1; intros HPQ; constructor; eauto. Qed.

(** The state after the node builders (lines 233-268). *)
Lemma build_nodes_inv `{Library} variables themes projects products s tm vm s' :
  build_nodes variables themes projects products s = (Return (tm, vm), s') ->
  catalog s' = Some (mk_Collection "OSC-Catalog" "OSC-Catalog" ∅ [] "catalog.json")
  /\ Forall2 theme_built themes (theme_collections s')
  /\ Forall (fun c => exists l, links c = [l] /\ rel l = VIA) (variable_collections s')
  /\ length (product_items s') = length products
  /\ length (project_items s') = length projects
  /\ tm = index_by_slug RTheme (theme_collections s')
  /\ vm = index_by_slug RVariable (variable_collections s').
Proof.
  unfold build_nodes. intros E. run_inv.
  destruct builders_preserve_heap as (Ht & Hv & Hp & Hj).
  pose proof (preserved _ _ _ _ _ (Ht _) E1) as P1.
  pose proof (preserved _ _ _ _ _ (Hv _) E3) as P3.
  pose proof (preserved _ _ _ _ _ (Hp _) E5) as P5.
  pose proof (preserved _ _ _ _ _ (Hj _) E7) as P7.
  apply for_list_inv in E1, E3, E5, E7.
  injection H0 as -> ->. subst s' s8 s6 s4 s2 s0. unfold heap in *. simpl in *.
  injection P7 as C7 T7 V7 I7 J7. injection P5 as C5 T5 V5 I5 J5.
  injection P3 as C3 T3 V3 I3 J3. injection P1 as C1 T1 V1 I1 J1.
  rewrite C7, C5, C3, C1, T7, T5, T3, V7, V5, I7.
  repeat split; try done.
  - eapply Forall2_impl; [exact E1|]. intros obj c (s1' & s2' & Hb).
    by apply theme_to_collection_inv in Hb as [? _].
  - eapply Forall2_right; [exact E3|]. intros obj c (s1' & s2' & Hb).
    by apply variable_to_collection_inv in Hb as [? _].
  - eapply Forall2_length_eq, E5.
  - eapply Forall2_length_eq, E7.
Qed.



(** ** Views of the collections

    An update whose function keeps the view of a collection keeps the view
    of the state, whichever object it is applied to. *)

Lemma list_fmap_insert_same {A B} (π : A -> B) (l : list A) i c c' :
  l !! i = Some c -> π c' = π c -> π <$> <[i := c']> l = π <$> l.
Proof.
  intros Hl Hπ. rewrite list_fmap_insert, Hπ.
  apply list_insert_id. rewrite list_lookup_fmap, Hl. done.
Qed.

Lemma store_collection_view {B} (π : Collection -> B) r c c' s :
  lookup_collection r s = Some c -> π c' = π c ->
  view π (store_collection r c' s) = view π s.
Proof.
  intros Hl Hπ. destruct r; simpl in Hl; try done; unfold view; simpl.
  - rewrite Hl. simpl. by rewrite Hπ.
  - by rewrite (list_fmap_insert_same π _ _ _ _ Hl Hπ).
  - by rewrite (list_fmap_insert_same π _ _ _ _ Hl Hπ).
Qed.

Lemma preserves_update_lookup {B} (proj : state -> B) r f :
  (forall c s, lookup_collection r s = Some c ->
               proj (store_collection r (f c) s) = proj s) ->
  preserves proj (update r f).
Proof.
  intros Hf s. unfold update. rewrite bind_unfold. unfold deref.
  destruct (lookup_collection r s) eqn:E; simpl; [|done]. by apply Hf.
Qed.

Lemma preserves_update_view {B} (π : Collection -> B) r f :
  (forall c, π (f c) = π c) -> preserves (view π) (update r f).
Proof.
  intros Hf. apply preserves_update_lookup. intros c s Hl.
  by apply store_collection_view with c.
Qed.


Lemma kids_add_item r c :
  kids (add_link (mk_Link ITEM (Object r) None) c) = kids c.
Proof. unfold kids. simpl. rewrite get_stac_objects_snoc. simpl. apply app_nil_r. Qed.

Lemma kids_add_child r c :
  kids (add_link (mk_Link CHILD (Object r) None) c) = kids c ++ [r].
Proof. unfold kids. simpl. rewrite get_stac_objects_snoc. done. Qed.

Lemma get_items_add_child r c :
  get_items (add_link (mk_Link CHILD (Object r) None) c) = get_items c.
Proof. unfold get_items. simpl. rewrite get_stac_objects_snoc. simpl. apply app_nil_r. Qed.

Lemma get_items_add_item r c :
  get_items (add_link (mk_Link ITEM (Object r) None) c) = get_items c ++ [r].
Proof. unfold get_items. simpl. rewrite get_stac_objects_snoc. done. Qed.


(** Proves that a stage keeps a view: structural steps, and at each update
    the fact [tac] that the function applied keeps the view. *)
Ltac preserves_view tac :=
  repeat first
    [ progress (autounfold with script; cbv zeta beta)
    | refine (preserves_get_href _ _)
    | preserves_step
    | apply preserves_modify; intros ?; reflexivity
    | apply preserves_write_file; intros ? ?; reflexivity
    | apply preserves_write_text_to_href; intros ? ?; reflexivity
    | apply preserves_update_view; intros ?; tac
    | match goal with
      | |- preserves _ ?m =>
          match m with
          | context [match ?a with _ => _ end] => is_var a; destruct a
          end
      end ].

(** The values of a lookup map name objects of the list it indexes. *)
Lemma index_by_slug_lookup `{Library} mk colls k r :
  index_by_slug mk colls !! k = Some r ->
  exists i, r = mk i /\ (i < length colls)%nat.
Proof.
  unfold index_by_slug.
  assert (Hall : Forall (fun p : string * ref =>
                   exists i, p.2 = mk i /\ (i < length colls)%nat)
                 (imap (fun i c => (slugify (id c), mk i)) colls)).
  { apply Forall_forall. intros p Hp.
    apply elem_of_lookup_imap_1 in Hp as (i & c & -> & Hc).
    exists i. split; [done|]. by eapply lookup_lt_Some. }
  revert Hall. generalize (imap (fun i c => (slugify (id c), mk i)) colls).
  intros pairs Hall.
  enough (Hgen : forall m0 : gmap string ref,
             map_Forall (fun _ r => exists i, r = mk i /\ (i < length colls)%nat) m0 ->
             map_Forall (fun _ r => exists i, r = mk i /\ (i < length colls)%nat)
                        (foldl (fun m p => <[p.1 := p.2]> m) m0 pairs)).
  { intros Hk. eapply (Hgen ∅); [apply map_Forall_empty|exact Hk]. }
  induction Hall as [|p pairs Hp _ IH]; intros m0 Hm0; simpl; [done|].
  apply IH. apply map_Forall_insert_2; done.
Qed.

(** ** The hierarchy stages and the catalogue *)



Lemma kids_kept `{Library} tm vm :
  preserves (view kids) (place_products vm)
  /\ preserves (view kids) (place_projects tm)
  /\ preserves (view kids) aggregate.
Proof.
  repeat split; preserves_view ltac:(first [reflexivity | apply kids_add_item]).
Qed.

Lemma add_children_themes : preserves theme_collections add_children.
Proof.
  unfold add_children.
  apply preserves_bind; [apply preserves_get_state|]. intros s.
  apply preserves_for_. intros t. unfold add_child.
  apply preserves_update. intros; reflexivity.
Qed.



(** ** The metrics document *)

Lemma reads_state {A} (m : M A) s o s' :
  preserves (fun s => s) m -> m s = (o, s') -> s' = s.
Proof. intros Hp E. apply (preserved _ _ _ _ _ Hp E). Qed.

Lemma build_metrics_reads `{Library} : preserves (fun s => s) build_metrics.
Proof. preserves_files. Qed.



(** The stages of [build], one state after the other. *)
Lemma build_inv `{Library} variables themes projects products s doc s' :
  build variables themes projects products s = (Return doc, s') ->
  exists tm vm s1 s2 s3 s4 s5,
    build_nodes variables themes projects products s = (Return (tm, vm), s1)
    /\ place_variables tm s1 = (Return tt, s2)
    /\ place_products vm s2 = (Return tt, s3)
    /\ place_projects tm s3 = (Return tt, s4)
    /\ add_children s4 = (Return tt, s5)
    /\ aggregate s5 = (Return tt, s')
    /\ build_metrics s' = (Return doc, s').
Proof.
  unfold build. intros E.
  apply bind_Return_inv in E as ([tm vm] & s1 & E1 & E).
  apply bind_Return_inv in E as ([] & s2 & E2 & E).
  apply bind_Return_inv in E as ([] & s3 & E3 & E).
  apply bind_Return_inv in E as ([] & s4 & E4 & E).
  apply bind_Return_inv in E as ([] & s5 & E5 & E).
  apply bind_Return_inv in E as ([] & s6 & E6 & E).
  pose proof (reads_state _ _ _ _ build_metrics_reads E) as ->.
  exists tm, vm, s1, s2, s3, s4, s5. repeat split; done.
Qed.

Lemma view_lookup {B} (π : Collection -> B) (l k : list Collection) i c :
  π <$> l = π <$> k -> l !! i = Some c ->
  exists c', k !! i = Some c' /\ π c = π c'.
Proof.
  intros Hv Hl.
  assert (Hi : (π <$> k) !! i = Some (π c)).
  { rewrite <- Hv, list_lookup_fmap, Hl. done. }
  rewrite list_lookup_fmap in Hi. destruct (k !! i) as [c'|]; [|done].
  injection Hi as Hi. eauto.
Qed.

Lemma view_length {B} (π : Collection -> B) (l k : list Collection) :
  π <$> l = π <$> k -> length l = length k.
Proof. intros Hv. rewrite <- (length_fmap π l), Hv. apply length_fmap. Qed.






(** ** Variables under themes *)

Lemma refs_of_NoDup {A} mk (l : list A) :
  Inj (=) (=) mk -> NoDup (refs_of mk l).
Proof. intros Hinj. unfold refs_of. apply NoDup_fmap_2; [done|apply NoDup_seq]. Qed.

Lemma refs_of_elem {A} mk (l : list A) r :
  r ∈ refs_of mk l <-> exists i, r = mk i /\ (i < length l)%nat.
Proof.
  unfold refs_of. rewrite list_elem_of_fmap. split.
  - intros (i & -> & Hi). apply elem_of_seq in Hi. exists i. split; [done|lia].
  - intros (i & -> & Hi). exists i. split; [done|]. apply elem_of_seq. lia.
Qed.

#[local] Instance RVariable_inj : Inj (=) (=) RVariable.
Proof. intros i j [= ->]. done. Qed.
#[local] Instance RTheme_inj : Inj (=) (=) RTheme.
Proof. intros i j [= ->]. done. Qed.
#[local] Instance RProject_inj : Inj (=) (=) RProject.
Proof. intros i j [= ->]. done. Qed.
#[local] Instance RProduct_inj : Inj (=) (=) RProduct.
Proof. intros i j [= ->]. done. Qed.

(** What an update of one object does to the list of themes. *)
Lemma store_collection_themes (P : Collection -> Prop) r c c' s :
  lookup_collection r s = Some c ->
  Forall P (theme_collections s) ->
  (forall t, r = RTheme t -> P c') ->
  Forall P (theme_collections (store_collection r c' s)).
Proof.
  intros Hl HP Hc'. destruct r; simpl; try done.
  apply Forall_insert; [done|]. by eapply Hc'.
Qed.

(** After [place_variables], from themes without children: the children
    of every theme are variable collections, each at most once. *)
Lemma place_variables_kids `{Library} tm s s' :
  Forall (fun c => kids c = []) (theme_collections s) ->
  place_variables tm s = (Return tt, s') ->
  Forall (fun c => NoDup (kids c) /\ Forall is_variable (kids c))
         (theme_collections s').
Proof.
  intros Hinit E. unfold place_variables in E.
  apply bind_Return_inv in E as (s0 & s1 & E0 & E).
  apply get_state_inv in E0 as [-> ->].
  set (l := refs_of RVariable (variable_collections s)) in *.
  assert (Hnd : NoDup l) by (apply refs_of_NoDup; apply _).
  assert (Hinv : Forall (fun c => NoDup (kids c) /\ forall r, r ∈ kids c -> r ∈ l)
                        (theme_collections s')).
  { revert E.
    apply (for_invariant (fun pre st =>
             Forall (fun c => NoDup (kids c) /\ forall r, r ∈ kids c -> r ∈ pre)
                    (theme_collections st))).
    - intros pre x post s1 s2 Hl Hpre Hb.
      apply bind_Return_inv in Hb as (c & s1' & E1 & Hb).
      apply deref_inv in E1 as [_ ->].
      apply bind_Return_inv in Hb as (theme & s1' & E1 & Hb).
      apply lift_inv in E1 as [_ ->].
      destruct (tm !! slugify theme) as [theme_coll|]; [|discriminate].
      unfold add_child in Hb. apply update_inv in Hb as (c0 & Hc0 & ->).
      assert (Hx : x ∉ pre).
      { rewrite Hl in Hnd. apply NoDup_app in Hnd as (_ & Hnd & _).
        intros Hin. apply (Hnd x Hin). left. }
      eapply store_collection_themes; [exact Hc0| |].
      + eapply Forall_impl; [exact Hpre|]. intros c1 [? Hsub]. split; [done|].
        intros r Hr. apply elem_of_app. left. auto.
      + intros t ->. simpl in Hc0.
        apply list_elem_of_lookup_2 in Hc0.
        rewrite Forall_forall in Hpre. destruct (Hpre _ Hc0) as [Hnd0 Hsub].
        rewrite kids_add_child. split.
        * apply NoDup_app. split; [done|]. split; [|apply NoDup_singleton].
          intros r Hr Hr'. apply list_elem_of_singleton in Hr' as ->. auto.
        * intros r Hr. apply elem_of_app in Hr as [Hr|Hr]; apply elem_of_app; auto.
    - eapply Forall_impl; [exact Hinit|]. intros c ->. split; [constructor|].
      intros r Hr. inversion Hr. }
  eapply Forall_impl; [exact Hinv|]. intros c [? Hsub]. split; [done|].
  apply Forall_forall. intros r Hr. apply Hsub in Hr.
  apply refs_of_elem in Hr as (v & -> & _). by exists v.
Qed.

(** ** Product counts *)

Lemma sum_Z_snoc l n : sum_Z (l ++ [n]) = sum_Z l + n.
Proof. induction l as [|x l IH]; simpl; [lia|]. rewrite IH. lia. Qed.

Lemma getitem_inv d k v : getitem d k = Return v -> d !! k = Some v.
Proof. unfold getitem. destruct (d !! k); intros [= ->]. done. Qed.

Lemma as_int_inv v n : as_int v = Return n -> v = VInt n.
Proof. destruct v; intros [= ->]. done. Qed.

Lemma enumerate_snd {A} k (l : list A) : (enumerate k l).*2 = l.
Proof. revert k. induction l as [|x l IH]; intros k; simpl; [done|]. by rewrite IH. Qed.

(** The first loop of [summarize_theme] reads the state and adds up what
    the sub-collections record. *)
Lemma summarize_theme_children `{Library} subs s years n i s' :
  for_fold (enumerate1 subs) ((∅ : gset Z), 0, 0)
    (fun '(years, number_of_products, _) '(i, sub_coll) =>
       deref sub_coll ≫= fun sc =>
       lift (obind (getitem (extra_fields sc) "osc:years") as_years) ≫= fun ys =>
       lift (obind (getitem (extra_fields sc) "osc:numberOfProducts") as_int) ≫= fun n =>
       mret (years ∪ list_to_set ys, number_of_products + n, i)) s
  = (Return (years, n, i), s') ->
  s' = s /\ exists ns, Forall2 (fun r k => products_of s r = Some k) subs ns
                       /\ n = sum_Z ns.
Proof.
  intros E.
  apply (for_fold_invariant (fun pre (acc : gset Z * Z * Z) st =>
           st = s /\ exists ns,
             Forall2 (fun r k => products_of s r = Some k) pre.*2 ns
             /\ acc.1.2 = sum_Z ns)) in E.
  - destruct E as (-> & ns & HF & Hn). split; [done|].
    unfold enumerate1 in HF. rewrite enumerate_snd in HF. eauto.
  - intros pre [k sub_coll] post [[ys0 n0] i0] s1 [[ys1 n1] i1] s2 _
           (-> & ns & HF & Hn) Hb.
    apply bind_Return_inv in Hb as (sc & s1 & E1 & Hb).
    apply deref_inv in E1 as [Hsc ->].
    apply bind_Return_inv in Hb as (ys & s1 & E1 & Hb).
    apply lift_inv in E1 as [_ ->].
    apply bind_Return_inv in Hb as (m & s1 & E1 & Hb).
    apply lift_inv in E1 as [Hm ->].
    apply ret_inv in Hb as [[= -> -> ->] ->].
    apply obind_inv in Hm as (v & Hv & Hm).
    apply getitem_inv in Hv. apply as_int_inv in Hm as ->.
    split; [done|]. exists (ns ++ [m]). split.
    + rewrite fmap_app. apply Forall2_app; [done|]. constructor; [|constructor].
      simpl. unfold products_of. rewrite Hsc. simpl.
      unfold number_of_products. by rewrite Hv.
    + simpl in *. rewrite sum_Z_snoc. lia.
  - split; [done|]. exists []. split; [constructor|done].
Qed.

Lemma update_theme_inv t f u s s' :
  update (RTheme t) f s = (Return u, s') ->
  exists c, theme_collections s !! t = Some c
            /\ theme_collections s' = <[t := f c]> (theme_collections s)
            /\ theme_collections s' !! t = Some (f c)
            /\ variable_collections s' = variable_collections s.
Proof.
  intros E. apply update_inv in E as (c & Hc & ->). simpl in *.
  exists c. repeat split; try done.
  apply list_lookup_insert_eq. by eapply lookup_lt_Some.
Qed.

Lemma number_of_products_set_other k v c :
  k <> "osc:numberOfProducts" ->
  number_of_products (set_field k v c) = number_of_products c.
Proof.
  intros Hk. unfold number_of_products. simpl. by rewrite lookup_insert_ne.
Qed.

Lemma number_of_products_set n c :
  number_of_products (set_field "osc:numberOfProducts" (VInt n) c) = Some n.
Proof. unfold number_of_products. simpl. by rewrite lookup_insert_eq. Qed.

Lemma summarize_theme_inv `{Library} t s s' :
  summarize_theme (RTheme t) s = (Return tt, s') ->
  exists c c' ns,
    theme_collections s !! t = Some c
    /\ theme_collections s' = <[t := c']> (theme_collections s)
    /\ variable_collections s' = variable_collections s
    /\ links c' = links c
    /\ Forall2 (fun r k => products_of s r = Some k) (get_collections c) ns
    /\ number_of_products c' = Some (sum_Z ns).
Proof.
  unfold summarize_theme. intros E.
  apply bind_Return_inv in E as (c & s0 & E0 & E).
  apply deref_inv in E0 as [Hc ->]. simpl in Hc.
  apply bind_Return_inv in E as ([[years n] i] & s0 & E0 & E).
  apply summarize_theme_children in E0 as (-> & ns & HF & ->).
  apply bind_Return_inv in E as ([] & s1 & E1 & E).
  apply update_theme_inv in E1 as (c1 & Hc1 & T1 & L1 & V1).
  apply bind_Return_inv in E as ([] & s2 & E2 & E).
  apply update_theme_inv in E2 as (c2 & Hc2 & T2 & L2 & V2).
  apply bind_Return_inv in E as ([] & s3 & E3 & E).
  apply update_theme_inv in E3 as (c3 & Hc3 & T3 & L3 & V3).
  apply bind_Return_inv in E as (c4 & s4 & E4 & E).
  apply deref_inv in E4 as [Hc4 ->].
  apply bind_Return_inv in E as (j & s5 & E5 & E).
  apply reads_state in E5 as ->; [|preserves_files].
  apply update_theme_inv in E as (c5 & Hc5 & T5 & L5 & V5).
  rewrite Hc in Hc1. injection Hc1 as <-.
  rewrite L1 in Hc2. injection Hc2 as <-.
  rewrite L2 in Hc3. injection Hc3 as <-.
  rewrite L3 in Hc5. injection Hc5 as <-.
  eexists c, _, ns. split; [done|]. split.
  { rewrite T5, T3, T2, T1. rewrite !list_insert_insert_eq. reflexivity. }
  split; [congruence|]. split; [reflexivity|]. split; [done|].
  rewrite !number_of_products_set_other by done.
  apply number_of_products_set.
Qed.

(** A loop that only assigns the counter of [enumerate] leaves the last
    index in it, or what it held when there is nothing to enumerate. *)
Lemma counting_loop {A} (l : list A) k (i j : Z) s s' :
  for_fold (enumerate k l) i (fun _ '(i, _) => mret i) s = (Return j, s') ->
  s' = s /\ j = match l with [] => i | _ => k + Z.of_nat (length l) - 1 end.
Proof.
  revert k i. induction l as [|x l IH]; intros k i E; simpl in E.
  - apply ret_inv in E as [-> ->]. done.
  - apply bind_Return_inv in E as (i1 & s1 & E1 & E).
    apply ret_inv in E1 as [-> ->].
    apply IH in E as [-> ->]. split; [done|].
    destruct l; simpl length; lia.
Qed.

(** What [summarize_theme] records as the theme's number of projects:
    the number of its items, unless it has none; then the counter still
    holds what the loop over the sub-collections left in it. *)
Lemma summarize_theme_projects `{Library} t s s' :
  summarize_theme (RTheme t) s = (Return tt, s') ->
  exists c c',
    theme_collections s !! t = Some c
    /\ theme_collections s' !! t = Some c'
    /\ get_items c' = get_items c
    /\ extra_fields c' !! "osc:numberOfProjects"
       = match get_items c with
         | [] => extra_fields c' !! "osc:numberOfVariables"
         | _ => Some (VInt (Z.of_nat (length (get_items c))))
         end.
Proof.
  unfold summarize_theme. intros E.
  apply bind_Return_inv in E as (c & s0 & E0 & E).
  apply deref_inv in E0 as [Hc ->]. simpl in Hc.
  apply bind_Return_inv in E as ([[years n] i] & s0 & E0 & E).
  apply summarize_theme_children in E0 as (-> & _).
  apply bind_Return_inv in E as ([] & s1 & E1 & E).
  apply update_theme_inv in E1 as (c1 & Hc1 & T1 & L1 & V1).
  apply bind_Return_inv in E as ([] & s2 & E2 & E).
  apply update_theme_inv in E2 as (c2 & Hc2 & T2 & L2 & V2).
  apply bind_Return_inv in E as ([] & s3 & E3 & E).
  apply update_theme_inv in E3 as (c3 & Hc3 & T3 & L3 & V3).
  apply bind_Return_inv in E as (c4 & s4 & E4 & E).
  apply deref_inv in E4 as [Hc4 ->]. simpl in Hc4.
  apply bind_Return_inv in E as (j & s5 & E5 & E).
  apply counting_loop in E5 as [-> ->].
  apply update_theme_inv in E as (c5 & Hc5 & T5 & L5 & V5).
  rewrite Hc in Hc1. injection Hc1 as <-.
  rewrite L1 in Hc2. injection Hc2 as <-.
  rewrite L2 in Hc3. injection Hc3 as <-.
  rewrite L3 in Hc4, Hc5. injection Hc4 as <-. injection Hc5 as <-.
  eexists c, _. split; [done|]. split; [exact L5|]. split; [reflexivity|].
  unfold get_items, set_field, set_extra_fields. cbn [links extra_fields].
  rewrite lookup_insert_eq.
  rewrite lookup_insert_ne, lookup_insert_eq by done.
  destruct (get_stac_objects ITEM (links c)); [done|].
  do 2 f_equal. simpl length. lia.
Qed.

Lemma products_of_same s s' l ns :
  variable_collections s = variable_collections s' ->
  Forall is_variable l ->
  Forall2 (fun r k => products_of s r = Some k) l ns ->
  Forall2 (fun r k => products_of s' r = Some k) l ns.
Proof.
  intros HV Hl HF. induction HF as [|r k l ns Hr HF IH]; [constructor|].
  apply Forall_cons in Hl as [[v ->] Hl]. constructor; [|auto].
  unfold products_of in *. simpl in *. by rewrite <- HV.
Qed.

Lemma get_collections_variables c :
  Forall is_variable (kids c) -> Forall is_variable (get_collections c).
Proof.
  intros Hk. unfold get_collections. apply Forall_forall. intros r Hr.
  apply list_elem_of_filter in Hr as [_ Hr].
  rewrite Forall_forall in Hk. by apply Hk.
Qed.

Lemma summed_same s s' c :
  variable_collections s = variable_collections s' ->
  Forall is_variable (kids c) -> summed s c -> summed s' c.
Proof.
  intros HV Hk (ns & HF & Hn). exists ns. split; [|done].
  eapply products_of_same; eauto using get_collections_variables.
Qed.

(** The loop over the themes (lines 305-320), from themes whose children
    are variable collections. *)
Lemma theme_pass_inv `{Library} n s s' :
  n = length (theme_collections s) ->
  Forall (fun c => Forall is_variable (kids c)) (theme_collections s) ->
  for_ (RTheme <$> seq 0 n) summarize_theme s = (Return tt, s') ->
  variable_collections s' = variable_collections s
  /\ links <$> theme_collections s' = links <$> theme_collections s
  /\ forall t c, theme_collections s' !! t = Some c -> summed s' c.
Proof.
  intros Hn Hkids E.
  assert (Hview : forall T t c,
             links <$> T = links <$> theme_collections s -> T !! t = Some c ->
             Forall is_variable (kids c)).
  { intros T t c HT Hc. destruct (view_lookup _ _ _ _ _ HT Hc) as (c0 & Hc0 & Hl).
    unfold kids. rewrite Hl. rewrite Forall_forall in Hkids.
    eapply Hkids, list_elem_of_lookup_2, Hc0. }
  apply (for_invariant (fun pre st =>
           variable_collections st = variable_collections s
           /\ links <$> theme_collections st = links <$> theme_collections s
           /\ forall t c, RTheme t ∈ pre -> theme_collections st !! t = Some c ->
                          summed st c)) in E.
  - destruct E as (HV & HL & Hsum). split; [done|]. split; [done|].
    intros t c Hc. apply (Hsum t c); [|done].
    apply list_elem_of_fmap. exists t. split; [done|]. apply elem_of_seq.
    apply lookup_lt_Some in Hc. rewrite (view_length _ _ _ HL) in Hc. lia.
  - intros pre x post s1 s2 Hl (HV & HL & Hsum) Hb.
    assert (Hx : x ∈ RTheme <$> seq 0 n).
    { rewrite Hl. apply elem_of_app. right. left. }
    apply list_elem_of_fmap in Hx as (t & -> & _).
    apply summarize_theme_inv in Hb as (c & c' & ns & Hc & HT & HV2 & Hlinks & HF & Hnum).
    assert (HL2 : links <$> theme_collections s2 = links <$> theme_collections s).
    { rewrite HT, <- HL. by eapply list_fmap_insert_same. }
    split; [congruence|]. split; [done|].
    intros t0 c0 Ht0 Hc0. destruct (decide (t0 = t)) as [->|Hne].
    + rewrite HT, list_lookup_insert_eq in Hc0 by (by eapply lookup_lt_Some).
      injection Hc0 as <-. exists ns. split; [|done].
      unfold get_collections, kids. rewrite Hlinks.
      eapply products_of_same; [symmetry; exact HV2| |exact HF].
      apply get_collections_variables.
      apply (Hview (theme_collections s1) t c HL Hc).
    + rewrite HT, list_lookup_insert_ne in Hc0 by done.
      apply elem_of_app in Ht0 as [Ht0|Ht0].
      * eapply summed_same; [symmetry; exact HV2| |by eapply Hsum].
        apply (Hview (theme_collections s1) t0 c0 HL Hc0).
      * apply list_elem_of_singleton in Ht0. congruence.
  - split; [done|]. split; [done|]. intros t c Ht. inversion Ht.
Qed.

Lemma variable_pass_kids `{Library} l :
  preserves (view kids) (for_ l summarize_variable).
Proof. preserves_view ltac:(reflexivity). Qed.

Lemma summarize_catalog_collections `{Library} :
  preserves collections summarize_catalog.
Proof. preserves_files. Qed.

Lemma Forall_view {B} (π : Collection -> B) (P : B -> Prop) l k :
  π <$> l = π <$> k -> Forall (fun c => P (π c)) k -> Forall (fun c => P (π c)) l.
Proof.
  intros Hv Hk. apply Forall_lookup. intros i c Hc.
  destruct (view_lookup _ _ _ _ _ Hv Hc) as (c' & Hc' & ->).
  rewrite Forall_lookup in Hk. by eapply Hk.
Qed.

(** The aggregation pass, from themes whose children are variable
    collections: every theme records the sum over its children. *)
Lemma aggregate_inv `{Library} s s' :
  Forall (fun c => Forall is_variable (kids c)) (theme_collections s) ->
  aggregate s = (Return tt, s') ->
  forall t c, theme_collections s' !! t = Some c -> summed s' c.
Proof.
  intros Hkids E. unfold aggregate in E.
  apply bind_Return_inv in E as (s0 & s1 & E0 & E).
  apply get_state_inv in E0 as [-> ->].
  apply bind_Return_inv in E as ([] & s1 & E1 & E).
  apply bind_Return_inv in E as ([] & s2 & E2 & E).
  pose proof (preserved _ _ _ _ _ (variable_pass_kids _) E1) as K1.
  assert (K1' : kids <$> theme_collections s1 = kids <$> theme_collections s)
    by (unfold view in K1; congruence).
  unfold refs_of in E2. rewrite <- (view_length _ _ _ K1') in E2.
  apply theme_pass_inv in E2 as (HV & HL & Hsum); [|done|].
  2:{ by apply (Forall_view kids (Forall is_variable) _ _ K1'). }
  pose proof (preserved _ _ _ _ _ summarize_catalog_collections E) as C3.
  unfold collections in C3. injection C3 as T3 V3.
  intros t c Hc. rewrite T3 in Hc.
  eapply summed_same; [symmetry; exact V3| |by eapply Hsum].
  rewrite Forall_lookup in Hkids.
  destruct (view_lookup _ _ _ _ _ HL Hc) as (c1 & Hc1 & Hl1).
  destruct (view_lookup _ _ _ _ _ K1' Hc1) as (c0 & Hc0 & Hk0).
  unfold kids in *. rewrite Hl1, Hk0. by eapply Hkids.
Qed.

(** ** Saving *)

#[local] Hint Unfold save normalize_and_save layout_theme layout_variable
  layout_items : script.

Lemma save_collections `{Library} metrics out_dir :
  preserves collections (save metrics out_dir).
Proof.
  autounfold with script.
  apply preserves_bind; [by apply preserves_makedirs|]. intros _.
  apply preserves_bind; [by apply preserves_chdir|]. intros _.
  preserves_files.
Qed.

Lemma save_view `{Library} {B} (π : Collection -> B) metrics out_dir :
  (forall l c, π (add_link l c) = π c) ->
  preserves (view π) (save metrics out_dir).
Proof.
  intros Hπ. autounfold with script.
  apply preserves_bind; [by apply preserves_makedirs|]. intros _.
  apply preserves_bind; [by apply preserves_chdir|]. intros _.
  preserves_view ltac:(apply Hπ).
Qed.

Lemma main_inv `{Library} variables themes projects products out_dir s s' :
  main variables themes projects products out_dir s = (Return tt, s') ->
  exists doc sB,
    build variables themes projects products s = (Return doc, sB)
    /\ save doc out_dir sB = (Return tt, s').
Proof. unfold main. intros E. apply bind_Return_inv in E. exact E. Qed.

Lemma theme_built_kids obj c : theme_built obj c -> kids c = [] /\ get_items c = [].
Proof. intros (theme & descr & link & _ & _ & _ & ->). done. Qed.

(** The themes' children once the hierarchy is built. *)
Lemma build_theme_kids `{Library} variables themes projects products s doc sB :
  build variables themes projects products s = (Return doc, sB) ->
  Forall (fun c => NoDup (kids c) /\ Forall is_variable (kids c))
         (theme_collections sB)
  /\ forall t c, theme_collections sB !! t = Some c -> summed sB c.
Proof.
  intros E.
  apply build_inv in E as (tm & vm & s1 & s2 & s3 & s4 & s5 &
                           E1 & E2 & E3 & E4 & E5 & E6 & _).
  apply build_nodes_inv in E1 as (_ & Hthemes & _).
  apply place_variables_kids in E2.
  2:{ eapply Forall2_right; [exact Hthemes|]. intros obj c Hb.
      by apply theme_built_kids in Hb as [? _]. }
  destruct (kids_kept tm vm) as (K3 & K4 & K6).
  apply (preserved _ _ _ _ _ K3) in E3.
  apply (preserved _ _ _ _ _ K4) in E4.
  apply (preserved _ _ _ _ _ add_children_themes) in E5.
  pose proof (preserved _ _ _ _ _ K6 E6) as K6'.
  assert (K5 : kids <$> theme_collections s5 = kids <$> theme_collections s2)
    by (unfold view in *; congruence).
  assert (KB : kids <$> theme_collections sB = kids <$> theme_collections s2)
    by (unfold view in *; congruence).
  split.
  - by apply (Forall_view kids (fun k => NoDup k /\ Forall is_variable k) _ _ KB).
  - eapply aggregate_inv; [|exact E6].
    apply (Forall_view kids (Forall is_variable) _ _ K5).
    eapply Forall_impl; [exact E2|]. by intros c [_ ?].
Qed.

Lemma sample_ran : Sample.ran = (Return tt, Sample.ran.2).
Proof. vm_compute. reflexivity. Qed.

(** C6: after a run, every theme records as [osc:numberOfProducts] the sum
    of the [osc:numberOfProducts] of its sub-collections; these are
    variable collections, and none occurs twice among them. *)
Theorem theme_products_sum `{Library}
    variables themes projects products out_dir s s' :
  main variables themes projects products out_dir s = (Return tt, s') ->
  forall t c, theme_collections s' !! t = Some c ->
    NoDup (get_collections c)
    /\ Forall is_variable (get_collections c)
    /\ exists ns,
         Forall2 (fun r n => products_of s' r = Some n) (get_collections c) ns
         /\ number_of_products c = Some (sum_Z ns).
Proof.
  intros E t c Hc.
  apply main_inv in E as (doc & sB & EB & ES).
  apply build_theme_kids in EB as [Hkids Hsum].
  pose proof (preserved _ _ _ _ _ (save_collections _ _) ES) as HC.
  unfold collections in HC. injection HC as HT HV.
  rewrite HT in Hc.
  rewrite Forall_lookup in Hkids. destruct (Hkids _ _ Hc) as [Hnd Hvar].
  split; [by apply NoDup_filter|].
  split; [by apply get_collections_variables|].
  destruct (Hsum _ _ Hc) as (ns & HF & Hn). exists ns. split; [|done].
  eapply products_of_same; [symmetry; exact HV| |exact HF].
  by apply get_collections_variables.
Qed.

Lemma theme_products_sum_witness :
  exists c ns,
    theme_collections Sample.ran.2 !! 0%nat = Some c
    /\ Forall2 (fun r n => products_of Sample.ran.2 r = Some n) (get_collections c) ns
    /\ number_of_products c = Some (sum_Z ns).
Proof.
  destruct (theme_collections Sample.ran.2 !! 0%nat) as [c|] eqn:Hc;
    [|vm_compute in Hc; discriminate].
  destruct (theme_products_sum (H := Sample.library) _ _ _ _ _ _ _
              sample_ran 0%nat c Hc) as (_ & _ & ns & HF & Hn).
  exists c, ns. auto.
Defined.

(** ** Projects under themes *)

(** [place_products] adds items to variable collections only. *)
Lemma place_products_themes `{Library} vm s s' :
  (forall k r, vm !! k = Some r -> is_variable r) ->
  place_products vm s = (Return tt, s') ->
  theme_collections s' = theme_collections s.
Proof.
  intros Hvm E. unfold place_products in E.
  apply bind_Return_inv in E as (s0 & s1 & E0 & E).
  apply get_state_inv in E0 as [-> ->].
  apply bind_Return_inv in E as (acc & s1 & E & E1).
  apply ret_inv in E1 as [_ ->].
  apply (for_fold_invariant (fun pre (acc : option ref) st =>
           theme_collections st = theme_collections s
           /\ forall r, acc = Some r -> is_variable r)) in E.
  - by destruct E.
  - intros pre item post b st1 b' st2 _ [HT Hb] Hrun.
    apply bind_Return_inv in Hrun as (it & st & E1 & Hrun).
    apply deref_item_inv in E1 as [_ ->].
    apply bind_Return_inv in Hrun as (variable & st & E1 & Hrun).
    apply lift_inv in E1 as [_ ->].
    apply bind_Return_inv in Hrun as (variable_coll & st & E1 & Hrun).
    assert (Hvc : theme_collections st = theme_collections st1
                  /\ forall r, variable_coll = Some r -> is_variable r).
    { destruct (vm !! slugify variable) as [c|] eqn:Hc.
      - apply ret_inv in E1 as [-> ->]. split; [done|].
        intros r [= <-]. eauto.
      - apply bind_Return_inv in E1 as ([] & st' & E1 & E2).
        apply modify_inv in E1 as ->. apply ret_inv in E2 as [-> ->]. done. }
    destruct Hvc as [HT1 Hvc].
    destruct variable_coll as [c|]; [|discriminate].
    apply bind_Return_inv in Hrun as ([] & st' & E2 & Hrun).
    apply ret_inv in Hrun as [-> ->].
    destruct (Hvc c eq_refl) as [v ->].
    unfold add_item in E2. apply update_inv in E2 as (c0 & _ & ->).
    split; [simpl; congruence|done].
  - split; [done|]. intros r [=].
Qed.

Lemma covered_add_item t c0 x r s :
  theme_collections s !! t = Some c0 ->
  covered r s ->
  covered r (store_collection (RTheme t)
               (add_link (mk_Link ITEM (Object x) None) c0) s).
Proof.
  intros Hc0 (c & Hc & Hr). apply list_elem_of_lookup in Hc as [i Hi].
  unfold covered. simpl. destruct (decide (i = t)) as [->|Hne].
  - exists (add_link (mk_Link ITEM (Object x) None) c0). split.
    + apply list_elem_of_lookup. exists t. apply list_lookup_insert_eq.
      by eapply lookup_lt_Some.
    + rewrite get_items_add_item. apply elem_of_app. left. congruence.
  - exists c. split; [|done]. apply list_elem_of_lookup. exists i.
    by rewrite list_lookup_insert_ne.
Qed.

Lemma covered_added t c0 x s :
  theme_collections s !! t = Some c0 ->
  covered x (store_collection (RTheme t)
               (add_link (mk_Link ITEM (Object x) None) c0) s).
Proof.
  intros Hc0. exists (add_link (mk_Link ITEM (Object x) None) c0). split.
  - simpl. apply list_elem_of_lookup. exists t. apply list_lookup_insert_eq.
    by eapply lookup_lt_Some.
  - rewrite get_items_add_item. apply elem_of_app. right. left.
Qed.

(** The inner loop of [place_projects]: one project, its themes. *)
Lemma place_project_inv `{Library} (tm : gmap string ref) (allowed : list ref) x themes s s' :
  (forall k r, tm !! k = Some r -> exists t, r = RTheme t) ->
  x ∈ allowed ->
  Forall (fun c => forall r, r ∈ get_items c -> r ∈ allowed) (theme_collections s) ->
  for_ themes (fun theme =>
     match tm !! slugify theme with
     | None => throw (KeyError (slugify theme))
     | Some theme_coll => add_item theme_coll x
     end) s = (Return tt, s') ->
  project_items s' = project_items s
  /\ Forall (fun c => forall r, r ∈ get_items c -> r ∈ allowed) (theme_collections s')
  /\ (forall r, covered r s -> covered r s')
  /\ (themes <> [] -> covered x s').
Proof.
  intros Htm Hx Hall E.
  apply (for_invariant (fun pre st =>
           project_items st = project_items s
           /\ Forall (fun c => forall r, r ∈ get_items c -> r ∈ allowed)
                     (theme_collections st)
           /\ (forall r, covered r s -> covered r st)
           /\ (pre <> [] -> covered x st))) in E; [done| |done].
  intros pre theme post st1 st2 _ (HP & HF & Hmono & _) Hb.
  destruct (tm !! slugify theme) as [theme_coll|] eqn:Htc; [|discriminate].
  destruct (Htm _ _ Htc) as [t ->].
  unfold add_item in Hb. apply update_inv in Hb as (c0 & Hc0 & ->).
  simpl in Hc0. split; [done|]. split; [|split].
  - simpl. apply Forall_insert; [done|]. intros r Hr.
    rewrite get_items_add_item in Hr. apply elem_of_app in Hr as [Hr|Hr].
    + rewrite Forall_forall in HF. eapply HF; [|exact Hr].
      by eapply list_elem_of_lookup_2.
    + apply list_elem_of_singleton in Hr as ->. done.
  - intros r Hr. apply covered_add_item; auto.
  - intros _. by apply covered_added.
Qed.

(** After [place_projects], from themes without items: the items of the
    themes are project nodes, and every project with a theme membership is
    among the items of some theme. *)
Lemma place_projects_inv `{Library} (tm : gmap string ref) s s' :
  (forall k r, tm !! k = Some r -> exists t, r = RTheme t) ->
  Forall (fun c => get_items c = []) (theme_collections s) ->
  place_projects tm s = (Return tt, s') ->
  project_items s' = project_items s
  /\ Forall (fun c => forall r, r ∈ get_items c ->
                                r ∈ refs_of RProject (project_items s))
            (theme_collections s')
  /\ forall j it, project_items s !! j = Some it ->
                  themes_of it <> Return [] -> covered (RProject j) s'.
Proof.
  intros Htm Hinit E. unfold place_projects in E.
  apply bind_Return_inv in E as (s0 & s1 & E0 & E).
  apply get_state_inv in E0 as [-> ->].
  set (allowed := refs_of RProject (project_items s)) in *.
  apply (for_invariant (fun pre st =>
           project_items st = project_items s
           /\ Forall (fun c => forall r, r ∈ get_items c -> r ∈ allowed)
                     (theme_collections st)
           /\ forall j it, RProject j ∈ pre -> project_items s !! j = Some it ->
                           themes_of it <> Return [] -> covered (RProject j) st))
    in E.
  - destruct E as (HP & HF & Hcov). split; [done|]. split; [done|].
    intros j it Hit Hth. apply (Hcov j it); [|done..].
    apply refs_of_elem. exists j. split; [done|]. by eapply lookup_lt_Some.
  - intros pre x post st1 st2 Hl (HP & HF & Hcov) Hb.
    assert (Hx : x ∈ allowed).
    { rewrite Hl. apply elem_of_app. right. left. }
    apply bind_Return_inv in Hb as (it & st & E1 & Hb).
    apply deref_item_inv in E1 as [Hit ->].
    apply bind_Return_inv in Hb as (ths & st & E1 & Hb).
    apply lift_inv in E1 as [Hths ->].
    apply place_project_inv with (allowed := allowed) in Hb
      as (HP2 & HF2 & Hmono & Hnew); [|done..].
    split; [congruence|]. split; [done|].
    intros j it' Hj Hit' Hne. apply elem_of_app in Hj as [Hj|Hj].
    + apply Hmono. by eapply Hcov.
    + apply list_elem_of_singleton in Hj as <-. apply Hnew.
      simpl in Hit. rewrite HP, Hit' in Hit. injection Hit as ->.
      intros ->. congruence.
  - split; [done|]. split.
    + eapply Forall_impl; [exact Hinit|]. intros c -> r Hr. inversion Hr.
    + intros j it Hj. inversion Hj.
Qed.

Lemma summarize_catalog_inv `{Library} s s' :
  summarize_catalog s = (Return tt, s') ->
  number_of_projects s' = Some (Z.of_nat (length (project_items s))).
Proof.
  unfold summarize_catalog. intros E.
  apply bind_Return_inv in E as (s0 & s1 & E0 & E).
  apply get_state_inv in E0 as [-> ->].
  apply bind_Return_inv in E as ([[[years n] v] i] & s1 & _ & E).
  apply update_inv in E as (c & _ & ->).
  unfold number_of_projects. simpl.
  rewrite !lookup_insert_ne by done. rewrite lookup_insert_eq. done.
Qed.

Lemma passes_keep_items `{Library} l k :
  preserves (view get_items) (for_ l summarize_variable)
  /\ preserves (view get_items) (for_ k summarize_theme).
Proof. split; preserves_view ltac:(reflexivity). Qed.

Lemma aggregate_projects `{Library} s s' :
  aggregate s = (Return tt, s') ->
  number_of_projects s' = Some (Z.of_nat (length (project_items s))).
Proof.
  unfold aggregate. intros E.
  apply bind_Return_inv in E as (s0 & s1 & E0 & E).
  apply get_state_inv in E0 as [-> ->].
  apply bind_Return_inv in E as ([] & s1 & E1 & E).
  apply bind_Return_inv in E as ([] & s2 & E2 & E).
  destruct (passes_keep_items (refs_of RVariable (variable_collections s))
              (refs_of RTheme (theme_collections s))) as [P1 P2].
  apply (preserved _ _ _ _ _ P1) in E1. apply (preserved _ _ _ _ _ P2) in E2.
  apply summarize_catalog_inv in E. rewrite E.
  unfold view in *. do 3 f_equal. congruence.
Qed.

Lemma reachable_projects_elem r s : r ∈ reachable_projects s <-> covered r s.
Proof.
  unfold reachable_projects, covered.
  rewrite list_elem_of_In, in_concat. split.
  - intros (l & Hl & Hr). apply list_elem_of_In in Hl, Hr.
    apply list_elem_of_fmap in Hl as (c & -> & Hc). eauto.
  - intros (c & Hc & Hr). exists (get_items c).
    rewrite <- !list_elem_of_In. split; [|done].
    apply list_elem_of_fmap. eauto.
Qed.

Lemma items_kept `{Library} tm :
  preserves (view get_items) (place_variables tm)
  /\ preserves (view get_items) add_children
  /\ preserves (view get_items) aggregate.
Proof.
  repeat split;
    preserves_view ltac:(first [reflexivity | apply get_items_add_child]).
Qed.

Lemma place_products_items `{Library} vm : preserves project_items (place_products vm).
Proof. preserves_files. Qed.

(** The projects and the themes' items once the hierarchy is built and
    aggregated. *)
Lemma build_projects `{Library} variables themes projects products s doc sB :
  build variables themes projects products s = (Return doc, sB) ->
  number_of_projects sB = Some (Z.of_nat (length projects))
  /\ length (project_items sB) = length projects
  /\ (forall r, covered r sB -> r ∈ refs_of RProject (project_items sB))
  /\ (forall j it, project_items sB !! j = Some it ->
                   themes_of it <> Return [] -> covered (RProject j) sB).
Proof.
  intros E.
  apply build_inv in E as (tm & vm & s1 & s2 & s3 & s4 & s5 &
                           E1 & E2 & E3 & E4 & E5 & E6 & _).
  apply build_nodes_inv in E1 as (_ & Hthemes & _ & _ & Hlen & Htm & Hvm).
  destruct (items_kept tm) as (I2 & I5 & I6).
  apply (preserved _ _ _ _ _ I2) in E2.
  pose proof (place_products_themes vm _ _
                ltac:(intros k r Hk; rewrite Hvm in Hk;
                      apply index_by_slug_lookup in Hk as (i & -> & _);
                      by exists i) E3) as T3.
  apply (preserved _ _ _ _ _ (place_products_items vm)) in E3.
  apply place_projects_inv in E4 as (P4 & HF & Hcov).
  2:{ intros k r Hk. rewrite Htm in Hk.
      apply index_by_slug_lookup in Hk as (i & -> & _). eauto. }
  2:{ rewrite T3.
      assert (V : get_items <$> theme_collections s2 = get_items <$> theme_collections s1)
        by (unfold view in E2; congruence).
      apply (Forall_view get_items (fun l => l = []) _ _ V).
      eapply Forall2_right; [exact Hthemes|]. intros obj c Hb.
      by apply theme_built_kids in Hb as [_ ?]. }
  apply (preserved _ _ _ _ _ I5) in E5.
  pose proof (aggregate_projects _ _ E6) as Hn.
  apply (preserved _ _ _ _ _ I6) in E6.
  assert (PB : project_items sB = project_items s1)
    by (unfold view in *; congruence).
  assert (P5 : project_items s5 = project_items s1)
    by (unfold view in *; congruence).
  assert (P3 : project_items s3 = project_items s1)
    by (unfold view in *; congruence).
  assert (IB : get_items <$> theme_collections sB = get_items <$> theme_collections s4)
    by (unfold view in *; congruence).
  assert (Hcovered : forall r, covered r sB <-> covered r s4).
  { intros r. rewrite <- !reachable_projects_elem. unfold reachable_projects.
    by rewrite IB. }
  rewrite Hn, P5, PB, Hlen. split; [done|]. split; [done|]. split.
  - intros r Hr. apply Hcovered in Hr as (c & Hc & Hr).
    rewrite Forall_forall in HF. rewrite <- P3. eauto.
  - intros j it Hit Hne. apply Hcovered. apply (Hcov j it); [|done].
    by rewrite P3.
Qed.

(** C4, as stated, fails: a project whose theme slots are all blank is
    attached under no theme, yet the catalogue counts it. *)
Lemma catalog_counts_unattached_project_counterexample :
  Defects.run_unattached_project.1 = Return tt
  /\ reachable_projects Defects.run_unattached_project.2 = []
  /\ number_of_projects Defects.run_unattached_project.2 = Some 1
  /\ number_of_projects Defects.run_unattached_project.2
     <> Some (Z.of_nat (length (remove_dups
                (reachable_projects Defects.run_unattached_project.2)))).
Proof. vm_compute. repeat split. discriminate. Qed.

(** C4, amended: the catalogue's [osc:numberOfProjects] is the number of
    project nodes built from the projects file, each counted once however
    many themes it hangs under.  Everything reachable as an item of a theme
    is one of these nodes, every project with a theme membership is
    reachable, and when every project has a membership the count is the
    number of distinct reachable project nodes. *)
Theorem catalog_project_count `{Library}
    variables themes projects products out_dir s s' :
  main variables themes projects products out_dir s = (Return tt, s') ->
  number_of_projects s' = Some (Z.of_nat (length projects))
  /\ length (project_items s') = length projects
  /\ (forall r, r ∈ reachable_projects s' ->
         exists j, r = RProject j /\ (j < length projects)%nat)
  /\ (forall j it, project_items s' !! j = Some it ->
         themes_of it <> Return [] -> RProject j ∈ reachable_projects s')
  /\ (Forall (fun it => themes_of it <> Return []) (project_items s') ->
      length (remove_dups (reachable_projects s')) = length projects).
Proof.
  intros E. apply main_inv in E as (doc & sB & EB & ES).
  apply build_projects in EB as (Hn & Hlen & Hin & Hcov).
  pose proof (preserved _ _ _ _ _ (save_collections _ _) ES) as HC.
  pose proof (preserved _ _ _ _ _
                (save_view extra_fields _ _ ltac:(reflexivity)) ES) as HV.
  unfold collections in HC. injection HC as HT _.
  assert (HP : project_items s' = project_items sB)
    by (unfold view in HV; congruence).
  assert (HN : number_of_projects s' = number_of_projects sB).
  { unfold number_of_projects. unfold view in HV.
    assert (HE : extra_fields <$> catalog s' = extra_fields <$> catalog sB)
      by congruence.
    destruct (catalog s'), (catalog sB); simpl in *; try done.
    injection HE as ->. done. }
  assert (HR : reachable_projects s' = reachable_projects sB).
  { unfold reachable_projects. by rewrite HT. }
  rewrite HN, HR, HP.
  assert (Hin' : forall r, r ∈ reachable_projects sB ->
                   exists j, r = RProject j /\ (j < length projects)%nat).
  { intros r Hr. apply reachable_projects_elem, Hin, refs_of_elem in Hr.
    by rewrite Hlen in Hr. }
  assert (Hcov' : forall j it, project_items sB !! j = Some it ->
                    themes_of it <> Return [] -> RProject j ∈ reachable_projects sB).
  { intros j it Hit Hne. apply reachable_projects_elem. eauto. }
  repeat split; try done.
  intros Hall. rewrite <- Hlen.
  transitivity (length (refs_of RProject (project_items sB)));
    [|unfold refs_of; by rewrite length_fmap, length_seq].
  apply Permutation_length, NoDup_Permutation.
  - apply NoDup_remove_dups.
  - apply (refs_of_NoDup RProject (project_items sB)). apply _.
  - intros r. rewrite elem_of_remove_dups. split.
    + intros Hr. apply reachable_projects_elem in Hr. by apply Hin.
    + intros Hr. apply (refs_of_elem RProject (project_items sB)) in Hr
        as (j & -> & Hj).
      destruct (lookup_lt_is_Some_2 _ _ Hj) as [it Hit].
      apply (Hcov' j it Hit). rewrite Forall_forall in Hall.
      eapply Hall, list_elem_of_lookup_2, Hit.
Qed.

Lemma catalog_project_count_witness :
  number_of_projects Sample.ran.2 = Some (Z.of_nat (length Sample.projects))
  /\ length (reachable_projects Sample.ran.2) = 2%nat
  /\ length (remove_dups (reachable_projects Sample.ran.2)) = length Sample.projects.
Proof.
  destruct (catalog_project_count (H := Sample.library) _ _ _ _ _ _ _ sample_ran)
    as (Hn & _ & _ & _ & Hd).
  split; [exact Hn|]. split; [vm_compute; reflexivity|].
  apply Hd. vm_compute. repeat constructor. discriminate.
Defined.

(** * Further properties *)

(** ** Theme memberships *)

Lemma for_list_reads {A B} (f : A -> M B) (g : A -> B) l s :
  (forall x, x ∈ l -> f x s = (Return (g x), s)) ->
  for_list l f s = (Return (g <$> l), s).
Proof.
  induction l as [|x l IH]; intros Hf; simpl; [done|].
  rewrite (bind_Return_l _ _ _ _ _ (Hf x ltac:(left))).
  rewrite (bind_Return_l _ _ _ _ _ (IH ltac:(intros y Hy; apply Hf; by right))).
  done.
Qed.

(** [get_themes] on a row with the six theme columns: the non-blank
    cells, in column order. *)
Theorem get_themes_nonblank_cells (obj : row) t1 t2 t3 t4 t5 t6 s :
  obj !! "Theme1" = Some t1 -> obj !! "Theme2" = Some t2 ->
  obj !! "Theme3" = Some t3 -> obj !! "Theme4" = Some t4 ->
  obj !! "Theme5" = Some t5 -> obj !! "Theme6" = Some t6 ->
  get_themes obj s
  = (Return (filter (fun t => t <> EmptyString) [t1; t2; t3; t4; t5; t6]), s).
Proof.
  intros H1 H2 H3 H4 H5 H6. unfold get_themes.
  erewrite bind_Return_l.
  2:{ apply (for_list_reads _
               (fun k => match obj !! k with
                         | Some (String a v) => [String a v]
                         | _ => []
                         end)).
      intros k Hk.
      assert (Hv : exists v, obj !! k = Some v).
      { repeat (apply elem_of_cons in Hk as [->|Hk]; [eauto|]). inversion Hk. }
      destruct Hv as [v Hv].
      rewrite (bind_Return_l _ _ _ _ _ (col_Some _ _ _ _ Hv)), Hv.
      destruct v; [reflexivity|]. simpl.
      rewrite (bind_Return_l _ _ _ _ _ (col_Some _ _ _ _ Hv)). reflexivity. }
  simpl. rewrite H1, H2, H3, H4, H5, H6.
  destruct t1, t2, t3, t4, t5, t6; reflexivity.
Qed.

Lemma get_themes_nonblank_cells_witness :
  get_themes (Sample.project_row "7" ["Climate"; "Land"]) (initial_state ∅)
  = (Return ["Climate"; "Land"], initial_state ∅).
Proof.
  apply (get_themes_nonblank_cells _ "Climate" "Land" EmptyString EmptyString
           EmptyString EmptyString); reflexivity.
Defined.

Lemma theme_slot_present (obj : row) k v s :
  obj !! k = Some v ->
  (col obj k ≫= fun v =>
     if Py.truthy (Some v) then col obj k ≫= fun v' => mret [v'] else mret []) s
  = (Return (if Py.truthy (Some v) then [v] else []), s).
Proof.
  intros Hv. rewrite (bind_Return_l _ _ _ _ _ (col_Some _ _ _ _ Hv)).
  destruct (Py.truthy (Some v)); [|reflexivity].
  rewrite (bind_Return_l _ _ _ _ _ (col_Some _ _ _ _ Hv)). reflexivity.
Qed.

Lemma theme_slots_missing (obj : row) (l : list string) k s :
  k ∈ l -> obj !! k = None ->
  exists k', k' ∈ l /\ obj !! k' = None /\
    for_list l (fun k => col obj k ≫= fun v =>
                  if Py.truthy (Some v) then col obj k ≫= fun v' => mret [v']
                  else mret []) s
    = (Raise (KeyError k'), s).
Proof.
  intros Hk Hnone. induction l as [|x l IH]; [inversion Hk|].
  simpl. destruct (obj !! x) as [v|] eqn:Hx.
  - assert (Hk' : k ∈ l).
    { apply elem_of_cons in Hk as [->|Hk]; [congruence|done]. }
    destruct (IH Hk') as (k' & Hin & Hn & Hrun).
    exists k'. split; [by right|]. split; [done|].
    rewrite (bind_Return_l _ _ _ _ _ (theme_slot_present _ _ _ _ Hx)).
    rewrite (bind_Raise_l _ _ _ _ _ Hrun). reflexivity.
  - exists x. split; [left|]. split; [done|].
    apply bind_Raise_l, bind_Raise_l. unfold col. by rewrite Hx.
Qed.

(** A row that lacks one of the six theme columns makes [get_themes]
    raise [KeyError] for a missing column, and [get_themes] changes
    nothing. *)
Theorem get_themes_missing_column (obj : row) k s :
  k ∈ ["Theme1"; "Theme2"; "Theme3"; "Theme4"; "Theme5"; "Theme6"] ->
  obj !! k = None ->
  exists k', obj !! k' = None /\ get_themes obj s = (Raise (KeyError k'), s).
Proof.
  intros Hk Hnone.
  destruct (theme_slots_missing obj _ k s Hk Hnone) as (k' & _ & Hn & Hrun).
  exists k'. split; [done|]. unfold get_themes. by apply bind_Raise_l.
Qed.

Lemma get_themes_missing_column_witness :
  exists k', get_themes (delete "Theme3" (Sample.project_row "7" ["Climate"]))
               (initial_state ∅)
             = (Raise (KeyError k'), initial_state ∅).
Proof.
  destruct (get_themes_missing_column
              (delete "Theme3" (Sample.project_row "7" ["Climate"])) "Theme3"
              (initial_state ∅)) as (k' & _ & Hrun).
  - set_solver.
  - reflexivity.
  - exists k'. exact Hrun.
Defined.

(** ** Geometries *)

(** An absent or empty string and a string that starts with
    ["Multipolygon"] give no geometry, and nothing is printed. *)
Theorem get_geometry_skipped `{Library} source s :
  (source = None \/ source = Some EmptyString
   \/ exists text, source = Some text /\ Py.startswith text "Multipolygon" = true) ->
  get_geometry source s = (Return None, s).
Proof.
  intros [-> | [-> | (text & -> & Hp)]]; [reflexivity..|].
  by apply get_geometry_multipolygon.
Qed.

Lemma get_geometry_skipped_witness :
  get_geometry (H := Sample.library) (Some "Multipolygon (((1 2, 3 4)))")
               (initial_state ∅)
  = (Return None, initial_state ∅).
Proof.
  apply (get_geometry_skipped (H := Sample.library)). right. right.
  eexists. split; reflexivity.
Defined.

Lemma get_geometry_not_json_witness :
  get_geometry (H := Sample.library) (Some "POINT (1 2)") (initial_state ∅)
  = (Return None, set_stdout ["POINT (1 2)"] (initial_state ∅)).
Proof.
  apply (get_geometry_not_json (H := Sample.library)); [discriminate|reflexivity..].
Defined.

Lemma get_geometry_other_depth_witness :
  get_geometry (H := Sample.library) (Some "[[1, 2], [3, 4]]") (initial_state ∅)
  = (Return None, initial_state ∅).
Proof.
  apply (get_geometry_other_depth (H := Sample.library) _
           (VList [VList [VInt 1; VInt 2]; VList [VInt 3; VInt 4]]) 2);
    first [discriminate | reflexivity].
Defined.

(** A depth-1 array is handed, element by element, to [Point]; the
    geometry is the [__geo_interface__] of the point when the point is
    truthy. *)
Theorem get_geometry_point `{Library} source coords g s :
  source <> EmptyString ->
  Py.startswith source "Multipolygon" = false ->
  json_loads source = Some (VList coords) ->
  get_depth (VList coords) = Return 1 ->
  Point coords = Return g -> geom_bool g = true ->
  get_geometry (Some source) s = (Return (Some (geo_interface g)), s).
Proof.
  intros Hne Hp Hj Hd Hg Hb. unfold get_geometry. destruct source; [done|].
  rewrite Hp, Hj. rewrite bind_unfold. unfold lift. rewrite Hd. simpl.
  rewrite bind_unfold, Hg, Hb. reflexivity.
Qed.

Lemma get_geometry_point_witness :
  get_geometry (H := Sample.library) (Some "[12, 48]") (initial_state ∅)
  = (Return (Some (VDict [("type", VStr "Point");
                          ("coordinates", VList [VInt 12; VInt 48])])),
     initial_state ∅).
Proof.
  apply (get_geometry_point (H := Sample.library) "[12, 48]" [VInt 12; VInt 48]);
    first [discriminate | reflexivity].
Defined.

(** A depth-3 array is split into its first ring, the shell, and the
    other rings, the holes; with no other ring [Polygon] gets [None] for
    the holes. *)
Theorem get_geometry_polygon `{Library} source shell holes g s :
  source <> EmptyString ->
  Py.startswith source "Multipolygon" = false ->
  json_loads source = Some (VList (shell :: holes)) ->
  get_depth shell = Return 2 ->
  Polygon shell (match holes with [] => None | _ => Some holes end) = Return g ->
  geom_bool g = true ->
  get_geometry (Some source) s = (Return (Some (geo_interface g)), s).
Proof.
  intros Hne Hp Hj Hd Hg Hb. unfold get_geometry. destruct source; [done|].
  rewrite Hp, Hj. rewrite bind_unfold. unfold lift. simpl get_depth. rewrite Hd. simpl.
  rewrite bind_unfold, Hg, Hb. reflexivity.
Qed.

Lemma get_geometry_polygon_witness :
  get_geometry (H := Shapes.library) (Some Shapes.triangle) (initial_state ∅)
  = (Return (Some (VDict [("type", VStr "Polygon");
                          ("coordinates", VList [Shapes.ring])])),
     initial_state ∅).
Proof.
  apply (get_geometry_polygon (H := Shapes.library) Shapes.triangle Shapes.ring []);
    first [discriminate | reflexivity].
Defined.

(** ** Statistics of the variables *)

Lemma enumerate_app_inv {A} k0 (l : list A) pre k x post :
  enumerate k0 l = pre ++ (k, x) :: post -> k = k0 + Z.of_nat (length pre).
Proof.
  revert k0 l. induction pre as [|p pre IH]; intros k0 l E.
  - destruct l; simpl in E; [discriminate|]. injection E as <- _ _. simpl. lia.
  - destruct l; simpl in E; [discriminate|]. injection E as _ E.
    apply IH in E. simpl length. lia.
Qed.

Lemma as_ints_VInt l : as_ints (VInt <$> l) = Return l.
Proof.
  induction l as [|n l IH]; [done|].
  rewrite fmap_cons. cbn [as_ints as_int obind]. rewrite IH. done.
Qed.

Lemma as_years_years_value years : as_years (years_value years) = Return (sorted years).
Proof. apply as_ints_VInt. Qed.

Lemma elem_of_sorted y (years : gset Z) : y ∈ sorted years <-> y ∈ years.
Proof.
  unfold sorted. rewrite merge_sort_Permutation. apply elem_of_elements.
Qed.

#[local] Instance Z_le_total : Total Z.le.
Proof. intros x y. lia. Qed.

(** [sorted] of a set of integers is strictly increasing. *)
Lemma sorted_increasing (years : gset Z) : StronglySorted Z.lt (sorted years).
Proof.
  assert (Hs : StronglySorted Z.le (sorted years)).
  { unfold sorted. apply StronglySorted_merge_sort; apply _. }
  assert (Hn : NoDup (sorted years)).
  { unfold sorted. rewrite merge_sort_Permutation. apply NoDup_elements. }
  induction Hs as [|x l Hl IH Hx]; [constructor|].
  apply NoDup_cons in Hn as [Hx' Hn]. constructor; [auto|].
  rewrite Forall_forall in *. intros y Hy.
  assert (x <> y) by (intros ->; done). specialize (Hx y Hy). lia.
Qed.

Lemma update_variable_inv v f u s s' :
  update (RVariable v) f s = (Return u, s') ->
  exists c, variable_collections s !! v = Some c
            /\ variable_collections s' = <[v := f c]> (variable_collections s)
            /\ variable_collections s' !! v = Some (f c)
            /\ theme_collections s' = theme_collections s
            /\ product_items s' = product_items s
            /\ project_items s' = project_items s.
Proof.
  intros E. apply update_inv in E as (c & Hc & ->). simpl in *.
  exists c. repeat split; try done.
  apply list_lookup_insert_eq. by eapply lookup_lt_Some.
Qed.

Lemma as_str_inv v x : as_str v = Return x -> v = VStr x.
Proof. destruct v; intros [= ->]. done. Qed.

Lemma start_year_falsy `{Library} it start :
  properties it !! "start_datetime" = Some start ->
  value_truthy start = false -> start_year it = None.
Proof.
  intros Hs Hf. unfold start_year. rewrite Hs.
  destruct start; try done. change (Py.truthy (Some s) = false) in Hf.
  by rewrite Hf.
Qed.

Lemma start_year_parsed `{Library} it start d :
  properties it !! "start_datetime" = Some (VStr start) ->
  value_truthy (VStr start) = true -> parse start = Return d ->
  start_year it = Some (year d).
Proof.
  intros Hs Ht Hp. unfold start_year. rewrite Hs.
  change (Py.truthy (Some start) = true) in Ht. by rewrite Ht, Hp.
Qed.

(** The loop of [summarize_variable] reads the state, counts the items
    and collects the years of those with a start date. *)
Lemma summarize_variable_items `{Library} items s years i s' :
  for_fold (enumerate1 items) ((∅ : gset Z), 0)
    (fun '(years, _) '(i, item) =>
       deref_item item ≫= fun it =>
       lift (getitem (properties it) "start_datetime") ≫= fun start =>
       if value_truthy start then
         lift (getitem (properties it) "start_datetime") ≫= fun start' =>
         lift (obind (as_str start') parse) ≫= fun d =>
         mret (years ∪ {[year d]}, i)
       else mret (years, i)) s
  = (Return (years, i), s') ->
  s' = s
  /\ i = Z.of_nat (length items)
  /\ forall y, y ∈ years <->
       exists r it, r ∈ items /\ lookup_item r s = Some it /\ start_year it = Some y.
Proof.
  intros E.
  apply (for_fold_invariant (fun pre (acc : gset Z * Z) st =>
           st = s
           /\ acc.2 = Z.of_nat (length pre)
           /\ forall y, y ∈ acc.1 <->
                exists r it, r ∈ pre.*2 /\ lookup_item r s = Some it
                             /\ start_year it = Some y)) in E.
  - destruct E as (-> & Hi & Hy). split; [done|].
    unfold enumerate1 in *. rewrite enumerate_snd in Hy. simpl in *.
    split; [|done]. rewrite Hi.
    rewrite <- (enumerate_snd 1 items) at 2. by rewrite length_fmap.
  - intros pre [k item] post [ys0 i0] st1 [ys1 i1] st2 Hl (-> & Hi & Hy) Hb.
    apply enumerate_app_inv in Hl. simpl in Hi, Hy.
    apply bind_Return_inv in Hb as (it & st & E1 & Hb).
    apply deref_item_inv in E1 as [Hit ->].
    apply bind_Return_inv in Hb as (start & st & E1 & Hb).
    apply lift_inv in E1 as [Hstart ->]. apply getitem_inv in Hstart.
    assert (Hsnoc : forall r, r ∈ (pre ++ [(k, item)]).*2 <-> r ∈ pre.*2 \/ r = item).
    { intros r. rewrite fmap_app, elem_of_app. simpl.
      by rewrite list_elem_of_singleton. }
    destruct (value_truthy start) eqn:Ht.
    + apply bind_Return_inv in Hb as (start' & st & E1 & Hb).
      apply lift_inv in E1 as [Hstart' ->]. apply getitem_inv in Hstart'.
      apply bind_Return_inv in Hb as (d & st & E1 & Hb).
      apply lift_inv in E1 as [Hd ->].
      apply ret_inv in Hb as [[= -> ->] ->].
      apply obind_inv in Hd as (x & Hx & Hd). apply as_str_inv in Hx as ->.
      rewrite Hstart in Hstart'. injection Hstart' as ->.
      pose proof (start_year_parsed it x d Hstart Ht Hd) as Hyear.
      split; [done|]. split; [rewrite length_app; simpl; lia|].
      intros y. simpl. rewrite elem_of_union, elem_of_singleton, Hy. split.
      * intros [(r & it' & Hr & Hit' & Hy')| ->].
        -- exists r, it'. rewrite Hsnoc. auto.
        -- exists item, it. rewrite Hsnoc. auto.
      * intros (r & it' & Hr & Hit' & Hy'). apply Hsnoc in Hr as [Hr| ->].
        -- left. eauto.
        -- right. congruence.
    + apply ret_inv in Hb as [[= -> ->] ->].
      pose proof (start_year_falsy it start Hstart Ht) as Hyear.
      split; [done|]. split; [rewrite length_app; simpl; lia|].
      intros y. simpl. rewrite Hy. split.
      * intros (r & it' & Hr & Hit' & Hy'). exists r, it'. rewrite Hsnoc. auto.
      * intros (r & it' & Hr & Hit' & Hy'). apply Hsnoc in Hr as [Hr| ->].
        -- eauto.
        -- congruence.
  - split; [done|]. split; [done|]. intros y. simpl. split.
    + intros Hy. set_solver.
    + intros (r & it & Hr & _). inversion Hr.
Qed.

(** A loop that summarizes the collections of one list, one after the
    other: when each step replaces the collection it is run on by one that
    satisfies [P], keeping [J], every collection satisfies [P] in the end. *)
Lemma pass_each (mk : nat -> ref) `{!Inj (=) (=) mk}
      (get : state -> list Collection) (body : ref -> M unit)
      (P : Collection -> Prop) (J : state -> Prop) n s s' :
  n = length (get s) -> J s ->
  (forall i s1 s2, J s1 -> body (mk i) s1 = (Return tt, s2) ->
     J s2 /\ exists c c', get s1 !! i = Some c
                          /\ get s2 = <[i := c']> (get s1) /\ P c') ->
  for_ (mk <$> seq 0 n) body s = (Return tt, s') ->
  J s' /\ forall i c, get s' !! i = Some c -> P c.
Proof.
  intros Hn HJ Hbody E.
  apply (for_invariant (fun pre st =>
           J st /\ length (get st) = length (get s)
           /\ forall i c, mk i ∈ pre -> get st !! i = Some c -> P c)) in E.
  - destruct E as (HJ' & Hlen & HP). split; [done|]. intros i c Hc.
    apply (HP i c); [|done]. apply list_elem_of_fmap. exists i. split; [done|].
    apply elem_of_seq. apply lookup_lt_Some in Hc. lia.
  - intros pre x post s1 s2 Hl (HJ1 & Hlen & HP) Hb.
    assert (Hx : x ∈ mk <$> seq 0 n).
    { rewrite Hl. apply elem_of_app. right. left. }
    apply list_elem_of_fmap in Hx as (i & -> & _).
    destruct (Hbody _ _ _ HJ1 Hb) as (HJ2 & c & c' & Hc & Hget & Hc').
    split; [done|]. split; [by rewrite Hget, length_insert|].
    intros j c0 Hj Hc0. rewrite Hget in Hc0.
    destruct (decide (j = i)) as [->|Hne].
    + rewrite list_lookup_insert_eq in Hc0 by (by eapply lookup_lt_Some).
      by injection Hc0 as <-.
    + rewrite list_lookup_insert_ne in Hc0 by done.
      apply elem_of_app in Hj as [Hj|Hj]; [by eapply HP|].
      apply list_elem_of_singleton in Hj. apply (inj mk) in Hj. done.
  - split; [done|]. split; [done|]. intros i c Hi. inversion Hi.
Qed.

(** The items of a run: the products and the projects. *)
Lemma lookup_item_same r s s' :
  product_items s' = product_items s -> project_items s' = project_items s ->
  lookup_item r s' = lookup_item r s.
Proof. intros Hp Hj. destruct r; simpl; congruence. Qed.

Lemma recorded_years_set years c k v :
  k <> "osc:years" ->
  recorded_years (set_field k v (set_field "osc:years" (years_value years) c))
  = Some (sorted years).
Proof.
  intros Hk. unfold recorded_years. simpl.
  rewrite lookup_insert_ne, lookup_insert_eq by done.
  by rewrite as_years_years_value.
Qed.

Lemma summarize_variable_inv `{Library} v s s' :
  summarize_variable (RVariable v) s = (Return tt, s') ->
  exists c c',
    variable_collections s !! v = Some c
    /\ variable_collections s' = <[v := c']> (variable_collections s)
    /\ theme_collections s' = theme_collections s
    /\ product_items s' = product_items s
    /\ project_items s' = project_items s
    /\ variable_summarized s c'.
Proof.
  unfold summarize_variable. intros E.
  apply bind_Return_inv in E as (c & s0 & E0 & E).
  apply deref_inv in E0 as [Hc ->]. simpl in Hc.
  apply bind_Return_inv in E as ([years i] & s0 & E0 & E).
  apply summarize_variable_items in E0 as (-> & -> & Hy).
  apply bind_Return_inv in E as ([] & s1 & E1 & E).
  apply update_variable_inv in E1 as (c1 & Hc1 & V1 & L1 & T1 & P1 & J1).
  apply update_variable_inv in E as (c2 & Hc2 & V2 & L2 & T2 & P2 & J2).
  rewrite Hc in Hc1. injection Hc1 as <-.
  rewrite L1 in Hc2. injection Hc2 as <-.
  eexists c, _. split; [done|]. split.
  { rewrite V2, V1, list_insert_insert_eq. reflexivity. }
  split; [congruence|]. split; [congruence|]. split; [congruence|]. split.
  - apply number_of_products_set.
  - exists (sorted years). split; [by apply recorded_years_set|].
    split; [apply sorted_increasing|].
    intros y. rewrite elem_of_sorted. apply Hy.
Qed.


Lemma variable_summarized_same `{Library} s s' c :
  product_items s' = product_items s -> project_items s' = project_items s ->
  variable_summarized s c -> variable_summarized s' c.
Proof.
  intros Hp Hj (Hn & ys & Hys & Hs & Hy). split; [done|].
  exists ys. split; [done|]. split; [done|]. intros y. rewrite Hy.
  by setoid_rewrite (lookup_item_same _ s s' Hp Hj).
Qed.

(** The loop over the variables (lines 292-303). *)
Lemma variable_pass_inv `{Library} n s s' :
  n = length (variable_collections s) ->
  for_ (RVariable <$> seq 0 n) summarize_variable s = (Return tt, s') ->
  theme_collections s' = theme_collections s
  /\ product_items s' = product_items s
  /\ project_items s' = project_items s
  /\ forall v c, variable_collections s' !! v = Some c -> variable_summarized s c.
Proof.
  intros Hn E.
  apply (pass_each RVariable variable_collections summarize_variable
           (variable_summarized s)
           (fun st => theme_collections st = theme_collections s
                      /\ product_items st = product_items s
                      /\ project_items st = project_items s)) in E; [|done..|].
  - destruct E as ((HT & HP & HJ) & HV). done.
  - intros v s1 s2 (HT & HP & HJ) Hb.
    apply summarize_variable_inv in Hb as (c & c' & Hc & HV & HT2 & HP2 & HJ2 & Hsum).
    split; [repeat split; congruence|]. exists c, c'.
    split; [done|]. split; [done|].
    apply (variable_summarized_same s1 s c'); [congruence..|exact Hsum].
Qed.

(** The three loops of the aggregation, one state after the other. *)
Lemma aggregate_stages `{Library} s s' :
  aggregate s = (Return tt, s') ->
  exists sA sT,
    for_ (RVariable <$> seq 0 (length (variable_collections s)))
         summarize_variable s = (Return tt, sA)
    /\ for_ (RTheme <$> seq 0 (length (theme_collections s)))
            summarize_theme sA = (Return tt, sT)
    /\ summarize_catalog sT = (Return tt, s').
Proof.
  unfold aggregate. intros E.
  apply bind_Return_inv in E as (s0 & s1 & E0 & E).
  apply get_state_inv in E0 as [-> ->].
  apply bind_Return_inv in E as ([] & sA & E1 & E).
  apply bind_Return_inv in E as ([] & sT & E2 & E).
  exists sA, sT. done.
Qed.

Lemma theme_pass_variables `{Library} n s s' :
  for_ (RTheme <$> seq 0 n) summarize_theme s = (Return tt, s') ->
  variable_collections s' = variable_collections s.
Proof.
  intros E.
  apply (for_invariant (fun _ st => variable_collections st = variable_collections s))
    in E; [done| |done].
  intros pre x post s1 s2 Hl HV Hb.
  assert (Hx : x ∈ RTheme <$> seq 0 n).
  { rewrite Hl. apply elem_of_app. right. left. }
  apply list_elem_of_fmap in Hx as (t & -> & _).
  apply summarize_theme_inv in Hb as (c & c' & ns & _ & _ & HV2 & _). congruence.
Qed.

(** All the stages of a run that returns. *)
Lemma main_stages `{Library} variables themes projects products out_dir s s' :
  main variables themes projects products out_dir s = (Return tt, s') ->
  exists tm vm s1 s2 s3 s4 s5 sB doc,
    build_nodes variables themes projects products s = (Return (tm, vm), s1)
    /\ place_variables tm s1 = (Return tt, s2)
    /\ place_products vm s2 = (Return tt, s3)
    /\ place_projects tm s3 = (Return tt, s4)
    /\ add_children s4 = (Return tt, s5)
    /\ aggregate s5 = (Return tt, sB)
    /\ build_metrics sB = (Return doc, sB)
    /\ save doc out_dir sB = (Return tt, s').
Proof.
  intros E. apply main_inv in E as (doc & sB & EB & ES).
  apply build_inv in EB as (tm & vm & s1 & s2 & s3 & s4 & s5 & E).
  exists tm, vm, s1, s2, s3, s4, s5, sB, doc. tauto.
Qed.

(** The variables of a run that returns are as [summarize_variable] left
    them. *)
Lemma run_variable_summaries `{Library}
    variables themes projects products out_dir s s' :
  main variables themes projects products out_dir s = (Return tt, s') ->
  forall v c, variable_collections s' !! v = Some c -> variable_summarized s' c.
Proof.
  intros E v c Hc.
  apply main_stages in E as (tm & vm & s1 & s2 & s3 & s4 & s5 & sB & doc &
                             _ & _ & _ & _ & _ & EA & _ & ES).
  destruct (kids_kept tm vm) as (_ & _ & K6).
  pose proof (preserved _ _ _ _ _ K6 EA) as KA.
  pose proof (preserved _ _ _ _ _ (save_collections _ _) ES) as HC.
  pose proof (preserved _ _ _ _ _ (save_view extra_fields _ _ ltac:(reflexivity)) ES) as KS.
  apply aggregate_stages in EA as (sA & sT & EV & ET & EC).
  apply variable_pass_inv in EV as (_ & _ & _ & HV); [|done].
  apply theme_pass_variables in ET.
  apply (preserved _ _ _ _ _ summarize_catalog_collections) in EC.
  unfold collections in *. injection HC as _ HV'. injection EC as _ HVB.
  apply (variable_summarized_same s5 s').
  - unfold view in *. congruence.
  - unfold view in *. congruence.
  - apply (HV v). congruence.
Qed.

(** After a run, every variable records as [osc:numberOfProducts] the
    number of its items: zero for a variable without products. *)
Theorem variable_product_count `{Library}
    variables themes projects products out_dir s s' :
  main variables themes projects products out_dir s = (Return tt, s') ->
  forall v c, variable_collections s' !! v = Some c ->
    number_of_products c = Some (Z.of_nat (length (get_items c))).
Proof.
  intros E v c Hc.
  by destruct (run_variable_summaries _ _ _ _ _ _ _ E v c Hc) as [? _].
Qed.

Lemma variable_product_count_witness :
  exists c, variable_collections Sample.ran.2 !! 0%nat = Some c
            /\ number_of_products c = Some (Z.of_nat (length (get_items c))).
Proof.
  destruct (variable_collections Sample.ran.2 !! 0%nat) as [c|] eqn:Hc;
    [|vm_compute in Hc; discriminate].
  exists c. split; [done|].
  exact (variable_product_count (H := Sample.library) _ _ _ _ _ _ _
           sample_ran 0%nat c Hc).
Defined.

(** After a run, the [osc:years] of every variable is the strictly
    increasing list of the years in which its items start (an item without
    start date gives none). *)
Theorem variable_years `{Library}
    variables themes projects products out_dir s s' :
  main variables themes projects products out_dir s = (Return tt, s') ->
  forall v c, variable_collections s' !! v = Some c ->
    exists ys, recorded_years c = Some ys
               /\ StronglySorted Z.lt ys
               /\ forall y, y ∈ ys <->
                    exists r it, r ∈ get_items c /\ lookup_item r s' = Some it
                                 /\ start_year it = Some y.
Proof.
  intros E v c Hc.
  by destruct (run_variable_summaries _ _ _ _ _ _ _ E v c Hc) as [_ ?].
Qed.

Lemma variable_years_witness :
  exists c ys, variable_collections Sample.ran.2 !! 0%nat = Some c
               /\ recorded_years c = Some ys /\ StronglySorted Z.lt ys.
Proof.
  destruct (variable_collections Sample.ran.2 !! 0%nat) as [c|] eqn:Hc;
    [|vm_compute in Hc; discriminate].
  destruct (variable_years (H := Sample.library) _ _ _ _ _ _ _
              sample_ran 0%nat c Hc) as (ys & Hys & Hs & _).
  exists c, ys. auto.
Defined.

(** ** Statistics of the themes *)

Lemma as_years_recorded c v ys :
  extra_fields c !! "osc:years" = Some v -> as_years v = Return ys ->
  recorded_years c = Some ys.
Proof. intros Hv Hys. unfold recorded_years. by rewrite Hv, Hys. Qed.

(** The first loop of [summarize_theme] counts the sub-collections and
    unites their years. *)
Lemma summarize_theme_children_years `{Library} subs s years n i s' :
  for_fold (enumerate1 subs) ((∅ : gset Z), 0, 0)
    (fun '(years, number_of_products, _) '(i, sub_coll) =>
       deref sub_coll ≫= fun sc =>
       lift (obind (getitem (extra_fields sc) "osc:years") as_years) ≫= fun ys =>
       lift (obind (getitem (extra_fields sc) "osc:numberOfProducts") as_int) ≫= fun n =>
       mret (years ∪ list_to_set ys, number_of_products + n, i)) s
  = (Return (years, n, i), s') ->
  i = Z.of_nat (length subs)
  /\ forall y, y ∈ years <->
       exists r ysr, r ∈ subs /\ years_of s r = Some ysr /\ y ∈ ysr.
Proof.
  intros E.
  apply (for_fold_invariant (fun pre (acc : gset Z * Z * Z) st =>
           st = s
           /\ acc.2 = Z.of_nat (length pre)
           /\ forall y, y ∈ acc.1.1 <->
                exists r ysr, r ∈ pre.*2 /\ years_of s r = Some ysr /\ y ∈ ysr))
    in E.
  - destruct E as (_ & Hi & Hy). unfold enumerate1 in *.
    rewrite enumerate_snd in Hy. simpl in *. split; [|done].
    rewrite Hi. rewrite <- (enumerate_snd 1 subs) at 2. by rewrite length_fmap.
  - intros pre [k sub_coll] post [[ys0 n0] i0] st1 [[ys1 n1] i1] st2 Hl
           (-> & Hi & Hy) Hb.
    apply enumerate_app_inv in Hl. simpl in Hi, Hy.
    apply bind_Return_inv in Hb as (sc & st & E1 & Hb).
    apply deref_inv in E1 as [Hsc ->].
    apply bind_Return_inv in Hb as (ys & st & E1 & Hb).
    apply lift_inv in E1 as [Hys ->].
    apply bind_Return_inv in Hb as (m & st & E1 & Hb).
    apply lift_inv in E1 as [_ ->].
    apply ret_inv in Hb as [[= -> -> ->] ->].
    apply obind_inv in Hys as (v & Hv & Hys). apply getitem_inv in Hv.
    assert (Hrec : years_of s sub_coll = Some ys).
    { unfold years_of. rewrite Hsc. simpl. by eapply as_years_recorded. }
    assert (Hsnoc : forall r, r ∈ (pre ++ [(k, sub_coll)]).*2
                              <-> r ∈ pre.*2 \/ r = sub_coll).
    { intros r. rewrite fmap_app, elem_of_app. simpl.
      by rewrite list_elem_of_singleton. }
    split; [done|]. split; [rewrite length_app; simpl; lia|].
    intros y. simpl. rewrite elem_of_union, elem_of_list_to_set, Hy. split.
    + intros [(r & ysr & Hr & Hyr & Hin)|Hin].
      * exists r, ysr. rewrite Hsnoc. auto.
      * exists sub_coll, ys. rewrite Hsnoc. auto.
    + intros (r & ysr & Hr & Hyr & Hin). apply Hsnoc in Hr as [Hr| ->].
      * left. eauto.
      * right. congruence.
  - split; [done|]. split; [done|]. intros y. simpl. split.
    + intros Hy. set_solver.
    + intros (r & ysr & Hr & _). inversion Hr.
Qed.

Lemma summarize_theme_full `{Library} t s s' :
  summarize_theme (RTheme t) s = (Return tt, s') ->
  exists c c',
    theme_collections s !! t = Some c
    /\ theme_collections s' = <[t := c']> (theme_collections s)
    /\ variable_collections s' = variable_collections s
    /\ links c' = links c
    /\ theme_summarized s c'.
Proof.
  unfold summarize_theme. intros E.
  apply bind_Return_inv in E as (c & s0 & E0 & E).
  apply deref_inv in E0 as [Hc ->]. simpl in Hc.
  apply bind_Return_inv in E as ([[years n] i] & s0 & E0 & E).
  pose proof (summarize_theme_children_years _ _ _ _ _ _ E0) as [Hi Hy].
  apply summarize_theme_children in E0 as (-> & _).
  apply bind_Return_inv in E as ([] & s1 & E1 & E).
  apply update_theme_inv in E1 as (c1 & Hc1 & T1 & L1 & V1).
  apply bind_Return_inv in E as ([] & s2 & E2 & E).
  apply update_theme_inv in E2 as (c2 & Hc2 & T2 & L2 & V2).
  apply bind_Return_inv in E as ([] & s3 & E3 & E).
  apply update_theme_inv in E3 as (c3 & Hc3 & T3 & L3 & V3).
  apply bind_Return_inv in E as (c4 & s4 & E4 & E).
  apply deref_inv in E4 as [Hc4 ->]. simpl in Hc4.
  apply bind_Return_inv in E as (j & s5 & E5 & E).
  apply counting_loop in E5 as [-> ->].
  apply update_theme_inv in E as (c5 & Hc5 & T5 & L5 & V5).
  rewrite Hc in Hc1. injection Hc1 as <-.
  rewrite L1 in Hc2. injection Hc2 as <-.
  rewrite L2 in Hc3. injection Hc3 as <-.
  rewrite L3 in Hc4, Hc5. injection Hc4 as <-. injection Hc5 as <-.
  eexists c, _. split; [done|]. split.
  { rewrite T5, T3, T2, T1. rewrite !list_insert_insert_eq. reflexivity. }
  split; [congruence|]. split; [reflexivity|].
  unfold theme_summarized, int_field, recorded_years, get_collections, kids,
    get_items, set_field, set_extra_fields.
  cbn [links extra_fields]. split; [|split].
  - rewrite lookup_insert_ne, lookup_insert_eq by done. by rewrite Hi.
  - rewrite lookup_insert_eq. subst i.
    destruct (get_stac_objects ITEM (links c)); [done|].
    do 2 f_equal. simpl length. lia.
  - rewrite !lookup_insert_ne by done. rewrite lookup_insert_eq.
    rewrite as_years_years_value. exists (sorted years).
    split; [done|]. split; [apply sorted_increasing|].
    intros y. rewrite elem_of_sorted. apply Hy.
Qed.

Lemma years_of_same s s' r :
  variable_collections s' = variable_collections s -> is_variable r ->
  years_of s' r = years_of s r.
Proof. intros HV [v ->]. unfold years_of. simpl. by rewrite HV. Qed.

Lemma theme_summarized_same s s' c :
  variable_collections s' = variable_collections s ->
  Forall is_variable (kids c) ->
  theme_summarized s c -> theme_summarized s' c.
Proof.
  intros HV Hk (Hn & Hp & ys & Hys & Hs & Hy).
  split; [done|]. split; [done|]. exists ys. split; [done|]. split; [done|].
  apply get_collections_variables in Hk. rewrite Forall_forall in Hk.
  intros y. rewrite Hy. split; intros (r & ysr & Hr & Hl & Hin); exists r, ysr.
  - by rewrite (years_of_same s s' r HV (Hk r Hr)).
  - by rewrite <- (years_of_same s s' r HV (Hk r Hr)).
Qed.

(** The loop over the themes (lines 305-320), from themes whose children
    are variable collections: every theme is left as [summarize_theme]
    leaves it. *)
Lemma theme_pass_summarized `{Library} n s s' :
  n = length (theme_collections s) ->
  Forall (fun c => Forall is_variable (kids c)) (theme_collections s) ->
  for_ (RTheme <$> seq 0 n) summarize_theme s = (Return tt, s') ->
  forall t c, theme_collections s' !! t = Some c -> theme_summarized s c.
Proof.
  intros Hn Hkids E.
  apply (pass_each RTheme theme_collections summarize_theme
           (theme_summarized s)
           (fun st => variable_collections st = variable_collections s
                      /\ links <$> theme_collections st
                         = links <$> theme_collections s)) in E; [|done..|].
  - by destruct E as [_ HP].
  - intros t s1 s2 (HV & HL) Hb.
    apply summarize_theme_full in Hb as (c & c' & Hc & HT & HV2 & Hlinks & Hsum).
    split.
    { split; [congruence|]. rewrite HT, <- HL. by eapply list_fmap_insert_same. }
    exists c, c'. split; [done|]. split; [done|].
    apply (theme_summarized_same s1 s c'); [congruence| |done].
    destruct (view_lookup _ _ _ _ _ HL Hc) as (c0 & Hc0 & Hl0).
    unfold kids. rewrite Hlinks, Hl0. rewrite Forall_lookup in Hkids.
    by eapply Hkids.
Qed.

(** The themes of a run that returns are as [summarize_theme] left them,
    and their children are variable collections. *)
Lemma run_theme_summaries `{Library}
    variables themes projects products out_dir s s' :
  main variables themes projects products out_dir s = (Return tt, s') ->
  forall t c, theme_collections s' !! t = Some c ->
    theme_summarized s' c /\ Forall is_variable (kids c).
Proof.
  intros E t c Hc.
  apply main_inv in E as (doc & sB & EB & ES).
  pose proof (build_theme_kids _ _ _ _ _ _ _ EB) as [HkB _].
  apply build_inv in EB as (tm & vm & s1 & s2 & s3 & s4 & s5 &
                            _ & _ & _ & _ & _ & EA & _).
  destruct (kids_kept tm vm) as (_ & _ & K6).
  pose proof (preserved _ _ _ _ _ K6 EA) as KA.
  pose proof (preserved _ _ _ _ _ (save_collections _ _) ES) as HC.
  apply aggregate_stages in EA as (sA & sT & EV & ET & EC).
  pose proof (preserved _ _ _ _ _ (variable_pass_kids _) EV) as KV.
  apply (preserved _ _ _ _ _ summarize_catalog_collections) in EC.
  unfold collections in *. injection HC as HT' HV'. injection EC as HTB HVB.
  assert (KAB : kids <$> theme_collections sA = kids <$> theme_collections sB)
    by (unfold view in *; congruence).
  assert (KA5 : kids <$> theme_collections sA = kids <$> theme_collections s5)
    by (unfold view in *; congruence).
  assert (HkA : Forall (fun c => Forall is_variable (kids c)) (theme_collections sA)).
  { apply (Forall_view kids (Forall is_variable) _ _ KAB).
    eapply Forall_impl; [exact HkB|]. by intros ? [_ ?]. }
  pose proof (theme_pass_variables _ _ _ ET) as HVT.
  rewrite <- (view_length _ _ _ KA5) in ET.
  pose proof (theme_pass_summarized _ _ _ eq_refl HkA ET) as HP.
  assert (Hk : Forall is_variable (kids c)).
  { rewrite Forall_lookup in HkB. rewrite HT' in Hc.
    by destruct (HkB t c Hc) as [_ ?]. }
  split; [|done].
  apply (theme_summarized_same sA s' c); [congruence|done|].
  apply (HP t). congruence.
Qed.

(** After a run, every theme records as [osc:numberOfVariables] the number
    of its sub-collections: zero for a theme that no variable names. *)
Theorem theme_variable_count `{Library}
    variables themes projects products out_dir s s' :
  main variables themes projects products out_dir s = (Return tt, s') ->
  forall t c, theme_collections s' !! t = Some c ->
    int_field "osc:numberOfVariables" c
    = Some (Z.of_nat (length (get_collections c))).
Proof.
  intros E t c Hc.
  by destruct (run_theme_summaries _ _ _ _ _ _ _ E t c Hc) as [[? _] _].
Qed.

Lemma theme_variable_count_witness :
  exists c, theme_collections Sample.ran.2 !! 0%nat = Some c
            /\ int_field "osc:numberOfVariables" c
               = Some (Z.of_nat (length (get_collections c))).
Proof.
  destruct (theme_collections Sample.ran.2 !! 0%nat) as [c|] eqn:Hc;
    [|vm_compute in Hc; discriminate].
  exists c. split; [done|].
  exact (theme_variable_count (H := Sample.library) _ _ _ _ _ _ _
           sample_ran 0%nat c Hc).
Defined.

(** After a run, a theme that has at least one project among its items
    records as [osc:numberOfProjects] the number of its items. *)
Theorem theme_project_count `{Library}
    variables themes projects products out_dir s s' :
  main variables themes projects products out_dir s = (Return tt, s') ->
  forall t c, theme_collections s' !! t = Some c -> get_items c <> [] ->
    int_field "osc:numberOfProjects" c
    = Some (Z.of_nat (length (get_items c))).
Proof.
  intros E t c Hc Hne.
  destruct (run_theme_summaries _ _ _ _ _ _ _ E t c Hc) as [(_ & Hp & _) _].
  rewrite Hp. by destruct (get_items c).
Qed.

Lemma theme_project_count_witness :
  exists c, theme_collections Sample.ran.2 !! 0%nat = Some c
            /\ get_items c <> []
            /\ int_field "osc:numberOfProjects" c
               = Some (Z.of_nat (length (get_items c))).
Proof.
  destruct (theme_collections Sample.ran.2 !! 0%nat) as [c|] eqn:Hc;
    [|vm_compute in Hc; discriminate].
  assert (Hne : get_items c <> []).
  { intros Hn.
    assert (Hx : get_items <$> (theme_collections Sample.ran.2 !! 0%nat) = Some [])
      by (rewrite Hc; simpl; by rewrite Hn).
    vm_compute in Hx. discriminate. }
  exists c. split; [done|]. split; [done|].
  exact (theme_project_count (H := Sample.library) _ _ _ _ _ _ _
           sample_ran 0%nat c Hc Hne).
Defined.

(** After a run, the [osc:years] of every theme is the strictly increasing
    list of the years its variables record: each year of the theme is a
    year of one of its sub-collections, and conversely. *)
Theorem theme_years `{Library}
    variables themes projects products out_dir s s' :
  main variables themes projects products out_dir s = (Return tt, s') ->
  forall t c, theme_collections s' !! t = Some c ->
    exists ys, recorded_years c = Some ys
               /\ StronglySorted Z.lt ys
               /\ forall y, y ∈ ys <->
                    exists v cv ysv, RVariable v ∈ get_collections c
                                     /\ variable_collections s' !! v = Some cv
                                     /\ recorded_years cv = Some ysv /\ y ∈ ysv.
Proof.
  intros E t c Hc.
  destruct (run_theme_summaries _ _ _ _ _ _ _ E t c Hc)
    as [(_ & _ & ys & Hys & Hs & Hy) Hk].
  exists ys. split; [done|]. split; [done|].
  apply get_collections_variables in Hk. rewrite Forall_forall in Hk.
  intros y. rewrite Hy. split.
  - intros (r & ysr & Hr & Hl & Hin). destruct (Hk r Hr) as [v ->].
    unfold years_of in Hl. simpl in Hl.
    destruct (variable_collections s' !! v) as [cv|] eqn:Hv; [|done].
    exists v, cv, ysr. done.
  - intros (v & cv & ysv & Hr & Hv & Hl & Hin). exists (RVariable v), ysv.
    split; [done|]. split; [|done]. unfold years_of. simpl. by rewrite Hv.
Qed.

Lemma theme_years_witness :
  exists c ys, theme_collections Sample.ran.2 !! 0%nat = Some c
               /\ recorded_years c = Some ys /\ StronglySorted Z.lt ys.
Proof.
  destruct (theme_collections Sample.ran.2 !! 0%nat) as [c|] eqn:Hc;
    [|vm_compute in Hc; discriminate].
  destruct (theme_years (H := Sample.library) _ _ _ _ _ _ _
              sample_ran 0%nat c Hc) as (ys & Hys & Hs & _).
  exists c, ys. auto.
Defined.

(** ** Statistics of the catalogue *)

Lemma int_field_inv k c v n :
  extra_fields c !! k = Some v -> as_int v = Return n -> int_field k c = Some n.
Proof. intros Hv Hn. apply as_int_inv in Hn as ->. unfold int_field. by rewrite Hv. Qed.

(** The loop of [summarize_catalog] reads the state, counts the themes,
    adds up their counts and unites their years. *)
Lemma summarize_catalog_themes `{Library} subs s years n v i s' :
  for_fold (enumerate1 subs) ((∅ : gset Z), 0, 0, 0)
    (fun '(years, number_of_products, number_of_variables, _) '(i, coll) =>
       deref coll ≫= fun c =>
       lift (obind (getitem (extra_fields c) "osc:years") as_years) ≫= fun ys =>
       lift (obind (getitem (extra_fields c) "osc:numberOfProducts") as_int) ≫= fun n =>
       lift (obind (getitem (extra_fields c) "osc:numberOfVariables") as_int) ≫= fun v =>
       mret (years ∪ list_to_set ys, number_of_products + n,
             number_of_variables + v, i)) s
  = (Return (years, n, v, i), s') ->
  s' = s
  /\ i = Z.of_nat (length subs)
  /\ (exists ns, Forall2 (fun r k => field_of "osc:numberOfProducts" s r = Some k) subs ns
                 /\ n = sum_Z ns)
  /\ (exists vs, Forall2 (fun r k => field_of "osc:numberOfVariables" s r = Some k) subs vs
                 /\ v = sum_Z vs)
  /\ forall y, y ∈ years <->
       exists r ysr, r ∈ subs /\ years_of s r = Some ysr /\ y ∈ ysr.
Proof.
  intros E.
  apply (for_fold_invariant (fun pre (acc : gset Z * Z * Z * Z) st =>
           st = s
           /\ acc.2 = Z.of_nat (length pre)
           /\ (exists ns, Forall2 (fun r k => field_of "osc:numberOfProducts" s r = Some k)
                                  pre.*2 ns
                          /\ acc.1.1.2 = sum_Z ns)
           /\ (exists vs, Forall2 (fun r k => field_of "osc:numberOfVariables" s r = Some k)
                                  pre.*2 vs
                          /\ acc.1.2 = sum_Z vs)
           /\ forall y, y ∈ acc.1.1.1 <->
                exists r ysr, r ∈ pre.*2 /\ years_of s r = Some ysr /\ y ∈ ysr))
    in E.
  - destruct E as (-> & Hi & Hn & Hv & Hy). unfold enumerate1 in *.
    rewrite enumerate_snd in Hn, Hv, Hy. simpl in *.
    split; [done|]. split; [|done].
    rewrite Hi. rewrite <- (enumerate_snd 1 subs) at 2. by rewrite length_fmap.
  - intros pre [k coll] post [[[ys0 n0] v0] i0] st1 [[[ys1 n1] v1] i1] st2 Hl
           (-> & Hi & (ns & Hns & Hn) & (vs & Hvs & Hv) & Hy) Hb.
    apply enumerate_app_inv in Hl. simpl in Hi, Hn, Hv, Hy.
    apply bind_Return_inv in Hb as (c & st & E1 & Hb).
    apply deref_inv in E1 as [Hc ->].
    apply bind_Return_inv in Hb as (ys & st & E1 & Hb).
    apply lift_inv in E1 as [Hys ->].
    apply bind_Return_inv in Hb as (m & st & E1 & Hb).
    apply lift_inv in E1 as [Hm ->].
    apply bind_Return_inv in Hb as (w & st & E1 & Hb).
    apply lift_inv in E1 as [Hw ->].
    apply ret_inv in Hb as [[= -> -> -> ->] ->].
    apply obind_inv in Hys as (x & Hx & Hys). apply getitem_inv in Hx.
    apply obind_inv in Hm as (xm & Hxm & Hm). apply getitem_inv in Hxm.
    apply obind_inv in Hw as (xw & Hxw & Hw). apply getitem_inv in Hxw.
    assert (Hrec : years_of s coll = Some ys).
    { unfold years_of. rewrite Hc. simpl. by eapply as_years_recorded. }
    assert (Hsnoc : forall r, r ∈ (pre ++ [(k, coll)]).*2
                              <-> r ∈ pre.*2 \/ r = coll).
    { intros r. rewrite fmap_app, elem_of_app. simpl.
      by rewrite list_elem_of_singleton. }
    split; [done|]. split; [rewrite length_app; simpl; lia|].
    split; [|split].
    + exists (ns ++ [m]). split; [|simpl; rewrite sum_Z_snoc; lia].
      rewrite fmap_app. apply Forall2_app; [done|]. constructor; [|constructor].
      simpl. unfold field_of. rewrite Hc. simpl. by eapply int_field_inv.
    + exists (vs ++ [w]). split; [|simpl; rewrite sum_Z_snoc; lia].
      rewrite fmap_app. apply Forall2_app; [done|]. constructor; [|constructor].
      simpl. unfold field_of. rewrite Hc. simpl. by eapply int_field_inv.
    + intros y. simpl. rewrite elem_of_union, elem_of_list_to_set, Hy. split.
      * intros [(r & ysr & Hr & Hyr & Hin)|Hin].
        -- exists r, ysr. rewrite Hsnoc. auto.
        -- exists coll, ys. rewrite Hsnoc. auto.
      * intros (r & ysr & Hr & Hyr & Hin). apply Hsnoc in Hr as [Hr| ->].
        -- left. eauto.
        -- right. congruence.
  - split; [done|]. split; [done|].
    split; [exists []; split; [constructor|done]|].
    split; [exists []; split; [constructor|done]|].
    intros y. simpl. split.
    + intros Hy. set_solver.
    + intros (r & ysr & Hr & _). inversion Hr.
Qed.

Lemma refs_of_lookup {A} mk (l : list A) i x :
  l !! i = Some x -> refs_of mk l !! i = Some (mk i).
Proof.
  intros Hl. unfold refs_of. rewrite list_lookup_fmap.
  rewrite lookup_seq_lt by (by eapply lookup_lt_Some). done.
Qed.

Lemma refs_of_length {A} mk (l : list A) : length (refs_of mk l) = length l.
Proof. unfold refs_of. by rewrite length_fmap, length_seq. Qed.

(** What holds of the references to the themes holds of the themes. *)
Lemma themes_Forall2 (F : Collection -> option Z) s ns :
  Forall2 (fun r k => lookup_collection r s ≫= F = Some k)
          (refs_of RTheme (theme_collections s)) ns ->
  Forall2 (fun c k => F c = Some k) (theme_collections s) ns.
Proof.
  intros HF. apply Forall2_same_length_lookup. split.
  - apply Forall2_length in HF. by rewrite refs_of_length in HF.
  - intros t c k Hc Hk.
    pose proof (Forall2_lookup_lr _ _ _ _ _ _ HF (refs_of_lookup RTheme _ _ _ Hc) Hk) as Hr.
    simpl in Hr. by rewrite Hc in Hr.
Qed.

Lemma summarize_catalog_full `{Library} s s' :
  summarize_catalog s = (Return tt, s') ->
  theme_collections s' = theme_collections s /\ catalog_summarized s'.
Proof.
  intros E.
  pose proof (preserved _ _ _ _ _ summarize_catalog_collections E) as HC.
  unfold collections in HC. injection HC as HT _. split; [done|].
  unfold summarize_catalog in E.
  apply bind_Return_inv in E as (s0 & s1 & E0 & E).
  apply get_state_inv in E0 as [-> ->].
  apply bind_Return_inv in E as ([[[years n] v] i] & s1 & E1 & E).
  apply summarize_catalog_themes in E1
    as (-> & Hi & (ns & Hns & ->) & (vs & Hvs & ->) & Hy).
  apply update_inv in E as (c & _ & ->).
  unfold catalog_summarized, catalog_field, int_field, recorded_years. simpl.
  split; [|split; [|split]].
  - rewrite lookup_insert_ne, lookup_insert_eq by done.
    by rewrite Hi, refs_of_length.
  - exists ns. split; [by apply (themes_Forall2 (int_field "osc:numberOfProducts"))|].
    rewrite !lookup_insert_ne by done. by rewrite lookup_insert_eq.
  - exists vs. split; [by apply (themes_Forall2 (int_field "osc:numberOfVariables"))|].
    rewrite !lookup_insert_ne by done. by rewrite lookup_insert_eq.
  - rewrite lookup_insert_eq, as_years_years_value.
    exists (sorted years). split; [done|]. split; [apply sorted_increasing|].
    intros y. rewrite elem_of_sorted, Hy. split.
    + intros (r & ysr & Hr & Hyr & Hin).
      apply refs_of_elem in Hr as (t & -> & Ht).
      unfold years_of in Hyr. simpl in Hyr.
      destruct (theme_collections s !! t) as [c0|] eqn:Hc0; [|done].
      exists c0, ysr. split; [by eapply list_elem_of_lookup_2|done].
    + intros (c0 & ysc & Hc0 & Hyc & Hin).
      apply list_elem_of_lookup_1 in Hc0 as (t & Hc0).
      exists (RTheme t), ysc. split; [|split; [|done]].
      * apply refs_of_elem. exists t. split; [done|]. by eapply lookup_lt_Some.
      * unfold years_of. simpl. by rewrite Hc0.
Qed.

(** ** The hierarchy as a partition *)

Lemma join_nil_all {A B} (f : A -> list B) (l : list A) :
  Forall (fun c => f c = []) l -> mjoin (f <$> l) = [].
Proof.
  induction 1 as [|c l Hc _ IH]; [done|].
  change (f c ++ mjoin (f <$> l) = []). by rewrite Hc, IH.
Qed.

Lemma join_insert_snoc {A B} (f : A -> list B) (l : list A) i c c' x :
  l !! i = Some c -> f c' = f c ++ [x] ->
  mjoin (f <$> <[i := c']> l) ≡ₚ mjoin (f <$> l) ++ [x].
Proof.
  revert i. induction l as [|a l IH]; intros [|i] Hl Hf; simpl in *; try done.
  - injection Hl as ->. rewrite Hf. rewrite <- !app_assoc. f_equiv.
    apply Permutation_app_comm.
  - change (f a ++ mjoin (f <$> <[i:=c']> l) ≡ₚ (f a ++ mjoin (f <$> l)) ++ [x]).
    rewrite (IH i) by done. by rewrite app_assoc.
Qed.

(** [place_variables] keeps the variables and hangs each of them under one
    theme: the children of the themes, taken together, are the variables,
    each once. *)
Lemma place_variables_partition `{Library} tm s s' :
  (forall k r, tm !! k = Some r -> exists t, r = RTheme t) ->
  Forall (fun c => kids c = []) (theme_collections s) ->
  place_variables tm s = (Return tt, s') ->
  variable_collections s' = variable_collections s
  /\ mjoin (kids <$> theme_collections s')
     ≡ₚ refs_of RVariable (variable_collections s).
Proof.
  intros Htm Hinit E. unfold place_variables in E.
  apply bind_Return_inv in E as (s0 & s1 & E0 & E).
  apply get_state_inv in E0 as [-> ->].
  apply (for_invariant (fun pre st =>
           variable_collections st = variable_collections s
           /\ mjoin (kids <$> theme_collections st) ≡ₚ pre)) in E; [done| |].
  - intros pre x post s1 s2 _ [HV Hpre] Hb.
    apply bind_Return_inv in Hb as (c & s1' & E1 & Hb).
    apply deref_inv in E1 as [_ ->].
    apply bind_Return_inv in Hb as (theme & s1' & E1 & Hb).
    apply lift_inv in E1 as [_ ->].
    destruct (tm !! slugify theme) as [theme_coll|] eqn:Ht; [|discriminate].
    apply Htm in Ht as [t ->].
    unfold add_child in Hb.
    apply update_theme_inv in Hb as (c0 & Hc0 & HT & _ & HV2).
    split; [congruence|]. rewrite HT.
    rewrite (join_insert_snoc kids _ _ _ _ x Hc0 (kids_add_child _ _)).
    by rewrite Hpre.
  - split; [done|]. by rewrite join_nil_all.
Qed.

(** [place_products], when it returns, has hung every product under one
    variable: the items of the variables, taken together, are the
    products, each once. *)
Lemma place_products_partition `{Library} vm s s' :
  (forall k r, vm !! k = Some r -> is_variable r) ->
  Forall (fun c => get_items c = []) (variable_collections s) ->
  place_products vm s = (Return tt, s') ->
  product_items s' = product_items s
  /\ mjoin (get_items <$> variable_collections s')
     ≡ₚ refs_of RProduct (product_items s).
Proof.
  intros Hvm Hinit E. unfold place_products in E.
  apply bind_Return_inv in E as (s0 & s1 & E0 & E).
  apply get_state_inv in E0 as [-> ->].
  apply bind_Return_inv in E as (acc & s1 & E & E1).
  apply ret_inv in E1 as [_ ->].
  apply (for_fold_invariant (fun pre (acc : option ref) st =>
           product_items st = product_items s
           /\ mjoin (get_items <$> variable_collections st) ≡ₚ pre
           /\ forall r, acc = Some r -> is_variable r)) in E.
  - by destruct E as (? & ? & _).
  - intros pre item post b st1 b' st2 _ (HP & Hpre & Hb) Hrun.
    apply bind_Return_inv in Hrun as (it & st & E1 & Hrun).
    apply deref_item_inv in E1 as [_ ->].
    apply bind_Return_inv in Hrun as (variable & st & E1 & Hrun).
    apply lift_inv in E1 as [_ ->].
    apply bind_Return_inv in Hrun as (variable_coll & st & E1 & Hrun).
    assert (Hvc : product_items st = product_items st1
                  /\ variable_collections st = variable_collections st1
                  /\ forall r, variable_coll = Some r -> is_variable r).
    { destruct (vm !! slugify variable) as [c|] eqn:Hc.
      - apply ret_inv in E1 as [-> ->]. split; [done|]. split; [done|].
        intros r [= <-]. eauto.
      - apply bind_Return_inv in E1 as ([] & st' & E1 & E2).
        apply modify_inv in E1 as ->. apply ret_inv in E2 as [-> ->]. done. }
    destruct Hvc as (HP1 & HV1 & Hvc).
    destruct variable_coll as [c|]; [|discriminate].
    apply bind_Return_inv in Hrun as ([] & st' & E2 & Hrun).
    apply ret_inv in Hrun as [-> ->].
    destruct (Hvc c eq_refl) as [v ->].
    unfold add_item in E2.
    apply update_variable_inv in E2 as (c0 & Hc0 & HV & _ & _ & HP2 & _).
    split; [congruence|]. split; [|done]. rewrite HV.
    rewrite (join_insert_snoc get_items _ _ _ _ item Hc0 (get_items_add_item _ _)).
    by rewrite HV1, Hpre.
  - split; [done|]. split; [by rewrite join_nil_all|]. intros r [=].
Qed.

(** [place_projects] hangs the projects under themes: the variables stay
    as they are. *)
Lemma place_projects_variables `{Library} (tm : gmap string ref) s s' :
  (forall k r, tm !! k = Some r -> exists t, r = RTheme t) ->
  place_projects tm s = (Return tt, s') ->
  variable_collections s' = variable_collections s.
Proof.
  intros Htm E. unfold place_projects in E.
  apply bind_Return_inv in E as (s0 & s1 & E0 & E).
  apply get_state_inv in E0 as [-> ->].
  apply (for_invariant (fun _ st =>
           variable_collections st = variable_collections s)) in E; [done| |done].
  intros pre x post s1 s2 _ HV Hb.
  apply bind_Return_inv in Hb as (it & st & E1 & Hb).
  apply deref_item_inv in E1 as [_ ->].
  apply bind_Return_inv in Hb as (themes & st & E1 & Hb).
  apply lift_inv in E1 as [_ ->].
  apply (for_invariant (fun _ st =>
           variable_collections st = variable_collections s)) in Hb; [done| |done].
  intros pre' theme post' st1 st2 _ HV1 Hb1.
  destruct (tm !! slugify theme) as [theme_coll|] eqn:Ht; [|discriminate].
  apply Htm in Ht as [t ->]. unfold add_item in Hb1.
  apply update_theme_inv in Hb1 as (c0 & _ & _ & _ & HV2). congruence.
Qed.

Lemma build_nodes_variables `{Library} variables themes projects products s tm vm s' :
  build_nodes variables themes projects products s = (Return (tm, vm), s') ->
  length (variable_collections s') = length variables.
Proof.
  unfold build_nodes. intros E. run_inv.
  destruct builders_preserve_heap as (Ht & Hv & Hp & Hj).
  pose proof (preserved _ _ _ _ _ (Ht _) E1) as P1.
  pose proof (preserved _ _ _ _ _ (Hv _) E3) as P3.
  pose proof (preserved _ _ _ _ _ (Hp _) E5) as P5.
  pose proof (preserved _ _ _ _ _ (Hj _) E7) as P7.
  apply for_list_inv in E1, E3, E5, E7.
  injection H0 as -> ->. subst s' s8 s6 s4 s2 s0. unfold heap in *. simpl in *.
  injection P7 as C7 T7 V7 I7 J7. injection P5 as C5 T5 V5 I5 J5.
  rewrite V7, V5. eapply Forall2_length_eq, E3.
Qed.

Lemma built_variable_items c :
  (exists l, links c = [l] /\ rel l = VIA) -> get_items c = [].
Proof.
  intros (l & Hl & Hr). unfold get_items, get_stac_objects. rewrite Hl. simpl.
  destruct (target l); [done|]. by rewrite Hr.
Qed.

Lemma refs_of_same_length {A B} mk (l : list A) (k : list B) :
  length l = length k -> refs_of mk l = refs_of mk k.
Proof. unfold refs_of. by intros ->. Qed.

(** The hierarchy of a run that returns: as many themes, variables and
    products as there are rows; the children of the themes are the
    variables, each once, and the items of the variables are the products,
    each once. *)
Lemma run_partition `{Library} variables themes projects products out_dir s s' :
  main variables themes projects products out_dir s = (Return tt, s') ->
  length (theme_collections s') = length themes
  /\ length (variable_collections s') = length variables
  /\ length (product_items s') = length products
  /\ mjoin (kids <$> theme_collections s')
     ≡ₚ refs_of RVariable (variable_collections s')
  /\ mjoin (get_items <$> variable_collections s')
     ≡ₚ refs_of RProduct (product_items s').
Proof.
  intros E.
  apply main_stages in E as (tm & vm & s1 & s2 & s3 & s4 & s5 & sB & doc &
                             E1 & E2 & E3 & E4 & E5 & E6 & _ & ES).
  pose proof (build_nodes_variables _ _ _ _ _ _ _ _ E1) as LV.
  apply build_nodes_inv in E1 as (_ & Hthemes & Hvars & LP & _ & Htm & Hvm).
  assert (Htm' : forall k r, tm !! k = Some r -> exists t, r = RTheme t).
  { intros k r Hk. rewrite Htm in Hk.
    apply index_by_slug_lookup in Hk as (i & -> & _). eauto. }
  assert (Hvm' : forall k r, vm !! k = Some r -> is_variable r).
  { intros k r Hk. rewrite Hvm in Hk.
    apply index_by_slug_lookup in Hk as (i & -> & _). by exists i. }
  destruct (kids_kept tm vm) as (K3 & K4 & K6).
  destruct (items_kept tm) as (I2 & I5 & I6).
  pose proof (preserved _ _ _ _ _ I2 E2) as I2'.
  apply place_variables_partition in E2 as [V2 P2]; [|done|].
  2:{ eapply Forall2_right; [exact Hthemes|]. intros obj c Hb.
      by apply theme_built_kids in Hb as [? _]. }
  pose proof (preserved _ _ _ _ _ K3 E3) as K3'.
  pose proof (place_products_themes vm _ _ Hvm' E3) as T3.
  apply place_products_partition in E3 as [P3 Q3]; [|done|].
  2:{ rewrite V2. eapply Forall_impl; [exact Hvars|]. apply built_variable_items. }
  pose proof (preserved _ _ _ _ _ K4 E4) as K4'.
  pose proof (place_projects_variables tm _ _ Htm' E4) as V4.
  pose proof (preserved _ _ _ _ _ I5 E5) as I5'.
  pose proof (preserved _ _ _ _ _ add_children_themes E5) as T5.
  pose proof (preserved _ _ _ _ _ K6 E6) as K6'.
  pose proof (preserved _ _ _ _ _ I6 E6) as I6'.
  pose proof (preserved _ _ _ _ _ (save_collections _ _) ES) as HC.
  pose proof (preserved _ _ _ _ _ (save_view extra_fields _ _ ltac:(reflexivity)) ES) as XS.
  unfold view, collections in *.
  injection I2' as _ I2t _ I2p _. injection K3' as _ _ K3v _ _.
  injection K4' as _ K4t _ K4p _. injection I5' as _ _ I5v I5p _.
  injection K6' as _ K6t _ _ _. injection I6' as _ _ I6v I6p _.
  injection HC as HCt HCv. injection XS as _ _ _ XSp _.
  assert (Kt : kids <$> theme_collections s' = kids <$> theme_collections s2)
    by congruence.
  assert (Iv : get_items <$> variable_collections s'
               = get_items <$> variable_collections s3) by congruence.
  assert (Lv : length (variable_collections s') = length (variable_collections s1)).
  { rewrite <- V2, <- (view_length _ _ _ K3v), <- V4.
    rewrite <- (view_length _ _ _ I5v), <- (view_length _ _ _ I6v). congruence. }
  assert (Pp : product_items s' = product_items s2) by congruence.
  split.
  { rewrite (view_length _ _ _ Kt), (view_length _ _ _ I2t).
    symmetry. eapply Forall2_length, Hthemes. }
  split; [congruence|]. split; [congruence|]. split.
  - rewrite Kt, P2. by rewrite (refs_of_same_length RVariable _ _ Lv).
  - rewrite Iv, Q3. by rewrite Pp.
Qed.

Lemma catalog_summarized_same s s' :
  extra_fields <$> catalog s' = extra_fields <$> catalog s ->
  theme_collections s' = theme_collections s ->
  catalog_summarized s -> catalog_summarized s'.
Proof.
  intros HX HT Hs.
  unfold catalog_summarized, catalog_field, int_field, recorded_years in *.
  rewrite HT. destruct (catalog s) as [c|], (catalog s') as [c'|];
    simpl in *; try done.
  injection HX as HX. rewrite HX. exact Hs.
Qed.

(** The catalogue of a run that returns is as [summarize_catalog] left
    it. *)
Lemma run_catalog_summary `{Library} variables themes projects products out_dir s s' :
  main variables themes projects products out_dir s = (Return tt, s') ->
  catalog_summarized s'.
Proof.
  intros E.
  apply main_stages in E as (tm & vm & s1 & s2 & s3 & s4 & s5 & sB & doc &
                             _ & _ & _ & _ & _ & EA & _ & ES).
  pose proof (preserved _ _ _ _ _ (save_collections _ _) ES) as HC.
  pose proof (preserved _ _ _ _ _ (save_view extra_fields _ _ ltac:(reflexivity)) ES) as XS.
  apply aggregate_stages in EA as (sA & sT & _ & _ & EC).
  apply summarize_catalog_full in EC as [_ Hsum].
  unfold view, collections in *. injection HC as HCt _. injection XS as XSc _ _ _ _.
  by apply (catalog_summarized_same sB s').
Qed.

Lemma sum_Z_app l k : sum_Z (l ++ k) = sum_Z l + sum_Z k.
Proof. induction l as [|x l IH]; simpl; [done|]. rewrite IH. lia. Qed.

Lemma sum_Z_perm l k : l ≡ₚ k -> sum_Z l = sum_Z k.
Proof. induction 1; simpl; lia. Qed.

Lemma sum_Z_lengths {A B} (f : A -> list B) (l : list A) ns :
  Forall2 (fun c k => k = Z.of_nat (length (f c))) l ns ->
  sum_Z ns = Z.of_nat (length (mjoin (f <$> l))).
Proof.
  induction 1 as [|c k l ns -> _ IH]; [done|].
  change (Z.of_nat (length (f c)) + sum_Z ns
          = Z.of_nat (length (f c ++ mjoin (f <$> l)))).
  rewrite length_app, IH. lia.
Qed.

Lemma sum_Z_join {A B} (f : A -> list B) (g : B -> Z) (l : list A) ns :
  Forall2 (fun c k => k = sum_Z (g <$> f c)) l ns ->
  sum_Z ns = sum_Z (g <$> mjoin (f <$> l)).
Proof.
  induction 1 as [|c k l ns -> _ IH]; [done|].
  change (sum_Z (g <$> f c) + sum_Z ns = sum_Z (g <$> (f c ++ mjoin (f <$> l)))).
  by rewrite fmap_app, sum_Z_app, IH.
Qed.

Lemma sum_Z_counts {A B} (f : A -> list B) (g : ref -> Z) rs (l : list A) :
  Forall2 (fun r c => g r = Z.of_nat (length (f c))) rs l ->
  sum_Z (g <$> rs) = Z.of_nat (length (mjoin (f <$> l))).
Proof.
  induction 1 as [|r c rs l Hr _ IH]; [done|].
  change (g r + sum_Z (g <$> rs) = Z.of_nat (length (f c ++ mjoin (f <$> l)))).
  rewrite length_app, IH, Hr. lia.
Qed.

Lemma Forall2_default {A} (F : A -> option Z) l ns :
  Forall2 (fun r n => F r = Some n) l ns -> ns = (fun r => default 0 (F r)) <$> l.
Proof.
  induction 1 as [|r n l ns Hr _ IH]; [done|].
  rewrite fmap_cons, Hr, <- IH. done.
Qed.

Lemma get_collections_kids c :
  Forall is_variable (kids c) -> get_collections c = kids c.
Proof.
  unfold get_collections, kids.
  induction (get_stac_objects CHILD (links c)) as [|r l IH]; [done|].
  intros Hk. apply Forall_cons in Hk as [[v ->] Hk].
  rewrite filter_cons_True by done. by rewrite IH.
Qed.

(** The themes of a run that returns record the sum of what their
    children record. *)
Lemma run_theme_sums `{Library} variables themes projects products out_dir s s' :
  main variables themes projects products out_dir s = (Return tt, s') ->
  forall t c, theme_collections s' !! t = Some c ->
    Forall is_variable (kids c) /\ summed s' c.
Proof.
  intros E t c Hc.
  apply main_inv in E as (doc & sB & EB & ES).
  apply build_theme_kids in EB as [Hkids Hsum].
  pose proof (preserved _ _ _ _ _ (save_collections _ _) ES) as HC.
  unfold collections in HC. injection HC as HT HV.
  rewrite HT in Hc.
  rewrite Forall_lookup in Hkids. destruct (Hkids _ _ Hc) as [_ Hvar].
  split; [done|].
  apply (summed_same sB s'); [by symmetry|done|by eapply Hsum].
Qed.

(** After a run, the catalogue records as [osc:numberOfThemes] the number
    of rows of the themes file. *)
Theorem catalog_theme_count `{Library}
    variables themes projects products out_dir s s' :
  main variables themes projects products out_dir s = (Return tt, s') ->
  catalog_field "osc:numberOfThemes" s' = Some (Z.of_nat (length themes)).
Proof.
  intros E.
  destruct (run_catalog_summary _ _ _ _ _ _ _ E) as (Hn & _).
  destruct (run_partition _ _ _ _ _ _ _ E) as (LT & _).
  by rewrite Hn, LT.
Qed.

Lemma catalog_theme_count_witness :
  catalog_field "osc:numberOfThemes" Sample.ran.2
  = Some (Z.of_nat (length Sample.themes)).
Proof.
  exact (catalog_theme_count (H := Sample.library) _ _ _ _ _ _ _ sample_ran).
Defined.

(** After a run, the catalogue records as [osc:numberOfVariables] the
    number of rows of the variables file: every variable is counted under
    one theme, once. *)
Theorem catalog_variable_count `{Library}
    variables themes projects products out_dir s s' :
  main variables themes projects products out_dir s = (Return tt, s') ->
  catalog_field "osc:numberOfVariables" s' = Some (Z.of_nat (length variables)).
Proof.
  intros E.
  destruct (run_catalog_summary _ _ _ _ _ _ _ E) as (_ & _ & (vs & Hvs & ->) & _).
  destruct (run_partition _ _ _ _ _ _ _ E) as (_ & LV & _ & PK & _).
  f_equal. rewrite (sum_Z_lengths kids (theme_collections s') vs).
  - by rewrite PK, refs_of_length, LV.
  - apply Forall2_same_length_lookup. split; [by eapply Forall2_length|].
    intros t c k Hc Hk.
    pose proof (Forall2_lookup_lr _ _ _ _ _ _ Hvs Hc Hk) as Hf. simpl in Hf.
    destruct (run_theme_summaries _ _ _ _ _ _ _ E t c Hc) as [(Hn & _) Hvar].
    rewrite Hn in Hf. injection Hf as <-. by rewrite get_collections_kids.
Qed.

Lemma catalog_variable_count_witness :
  catalog_field "osc:numberOfVariables" Sample.ran.2
  = Some (Z.of_nat (length Sample.variables)).
Proof.
  exact (catalog_variable_count (H := Sample.library) _ _ _ _ _ _ _ sample_ran).
Defined.

(** After a run, the catalogue records as [osc:numberOfProducts] the
    number of rows of the products file: in a run that returns every
    product hangs under one variable, and every variable under one
    theme. *)
Theorem catalog_product_count `{Library}
    variables themes projects products out_dir s s' :
  main variables themes projects products out_dir s = (Return tt, s') ->
  catalog_field "osc:numberOfProducts" s' = Some (Z.of_nat (length products)).
Proof.
  intros E.
  destruct (run_catalog_summary _ _ _ _ _ _ _ E) as (_ & (ns & Hns & ->) & _).
  destruct (run_partition _ _ _ _ _ _ _ E) as (_ & _ & LP & PK & PI).
  f_equal.
  set (g := fun r => default 0 (products_of s' r)).
  rewrite (sum_Z_join kids g (theme_collections s') ns).
  - rewrite (sum_Z_perm _ _ (fmap_Permutation g _ _ PK)).
    rewrite (sum_Z_counts get_items g _ (variable_collections s')).
    + by rewrite PI, refs_of_length, LP.
    + apply Forall2_same_length_lookup. split; [apply refs_of_length|].
      intros v r c Hr Hc. rewrite (refs_of_lookup RVariable _ _ _ Hc) in Hr.
      injection Hr as <-. unfold g, products_of. simpl. rewrite Hc. simpl.
      destruct (run_variable_summaries _ _ _ _ _ _ _ E v c Hc) as [-> _]. done.
  - apply Forall2_same_length_lookup. split; [by eapply Forall2_length|].
    intros t c k Hc Hk.
    pose proof (Forall2_lookup_lr _ _ _ _ _ _ Hns Hc Hk) as Hf. simpl in Hf.
    destruct (run_theme_sums _ _ _ _ _ _ _ E t c Hc) as [Hvar (ms & HF & Hn)].
    change (number_of_products c) with (int_field "osc:numberOfProducts" c) in Hn.
    rewrite Hn in Hf. injection Hf as <-.
    rewrite (Forall2_default _ _ _ HF). by rewrite get_collections_kids.
Qed.

Lemma catalog_product_count_witness :
  catalog_field "osc:numberOfProducts" Sample.ran.2
  = Some (Z.of_nat (length Sample.products)).
Proof.
  exact (catalog_product_count (H := Sample.library) _ _ _ _ _ _ _ sample_ran).
Defined.

(** After a run, the [osc:years] of the catalogue is the strictly
    increasing list of the years its themes record. *)
Theorem catalog_years `{Library}
    variables themes projects products out_dir s s' :
  main variables themes projects products out_dir s = (Return tt, s') ->
  exists ys, catalog s' ≫= recorded_years = Some ys
             /\ StronglySorted Z.lt ys
             /\ forall y, y ∈ ys <->
                  exists c ysc, c ∈ theme_collections s'
                                /\ recorded_years c = Some ysc /\ y ∈ ysc.
Proof.
  intros E. by destruct (run_catalog_summary _ _ _ _ _ _ _ E) as (_ & _ & _ & ?).
Qed.

Lemma catalog_years_witness :
  exists ys, catalog Sample.ran.2 ≫= recorded_years = Some ys
             /\ StronglySorted Z.lt ys.
Proof.
  destruct (catalog_years (H := Sample.library) _ _ _ _ _ _ _ sample_ran)
    as (ys & Hys & Hs & _).
  exists ys. auto.
Defined.

(** ** The metrics document is always built *)













